(** * Deal-Desk expansion-store evaluation bot: name matching and product
      extraction cache

    A shallow embedding of the name normaliser, the similarity matcher, the
    qualification search and the criteria on goods, services and products of
    [expansion_store_evaluator.py], and of the result cache, the dynamic
    knowledge base, the extraction pipeline, the link classifiers and the
    background queue of [product_extractor.py], with the properties the
    specification states about them and further properties of the code.

    Conventions of the embedding.
    - A Python [str] is a [string]; a character is the code point of the
      [ascii] value (0..255, i.e. the Latin-1 range of Unicode).  Code points
      above U+00FF are outside the model.
    - Python's [re] patterns used by the normaliser are written as data
      ([pattern]) and run by a small backtracking matcher that follows the
      semantics of [re.sub]: leftmost match, greedy repetition with
      backtracking, [$] at the end of the string or before a final newline.
    - [datetime] values are integers counting microseconds (the resolution
      of [datetime]); [total_seconds()] is the exact rational, which compares
      with a whole number of seconds as the float does.
    - The similarity, a Python float obtained by one division of two word
      counts, is the exact rational; its comparisons with 0.8 and 0.9 and
      between two scores agree with the float ones as long as the names have
      fewer than 2^26 words.
    - The functions that leave the process (discovery strategies, clock) are
      answered by a [World]; the calls made are logged in the state.
    - Library functions ([hashlib.md5], [urlparse], [strftime]) are total
      functions, taken as given. *)

From Stdlib Require Import ZArith QArith Ascii String List Bool Lia.
From stdpp Require Import base decidable option list gmap strings fin_sets.

#[local] Set Warnings "-clear-no-such-hyp".

Local Open Scope string_scope.
Local Open Scope list_scope.

(** ** Characters and strings as Python sees them *)

Module PyStr.

Definition code (c : ascii) : N := N_of_ascii c.

Definition in_range (lo hi : N) (c : ascii) : bool :=
  (lo <=? code c)%N && (code c <=? hi)%N.

(** [str.isspace] on the Latin-1 range; it is also the class [\s] of [re]
    for [str] patterns and what [str.strip] and [str.split] remove. *)
Definition is_space (c : ascii) : bool :=
  in_range 9 13 c || in_range 28 32 c
  || (code c =? 133)%N || (code c =? 160)%N.

(** [\d]: decimal digits (category Nd); in Latin-1 only 0-9. *)
Definition is_digit (c : ascii) : bool := in_range 48 57 c.

Definition is_upper_ascii (c : ascii) : bool := in_range 65 90 c.
Definition is_lower_ascii (c : ascii) : bool := in_range 97 122 c.

(** [\w]: alphanumeric ([str.isalnum]) or underscore. *)
Definition is_word (c : ascii) : bool :=
  is_digit c || is_upper_ascii c || is_lower_ascii c || (code c =? 95)%N
  || (code c =? 170)%N || (code c =? 178)%N || (code c =? 179)%N
  || (code c =? 181)%N || (code c =? 185)%N || (code c =? 186)%N
  || in_range 188 190 c || in_range 192 214 c || in_range 216 246 c
  || in_range 248 255 c.

(** [str.lower] on one character. *)
Definition lower_char (c : ascii) : ascii :=
  if is_upper_ascii c || in_range 192 214 c || in_range 216 222 c
  then ascii_of_N (code c + 32) else c.


Definition chars := list ascii.

Definition lower (s : chars) : chars := map lower_char s.

Fixpoint lstrip (s : chars) : chars :=
  match s with
  | c :: s' => if is_space c then lstrip s' else s
  | [] => []
  end.

Definition rstrip (s : chars) : chars := rev (lstrip (rev s)).

Definition strip (s : chars) : chars := rstrip (lstrip s).

Fixpoint startswith (s prefix : chars) : bool :=
  match prefix, s with
  | [], _ => true
  | p :: prefix', c :: s' => if ascii_dec c p then startswith s' prefix' else false
  | _ :: _, [] => false
  end.

Definition endswith (s suffix : chars) : bool :=
  startswith (rev s) (rev suffix).

(** [s[n:]] and [s[:-n]] for [0 < n <= len(s)] (the only uses). *)
Definition drop_prefix (n : nat) (s : chars) : chars := skipn n s.
Definition drop_suffix (n : nat) (s : chars) : chars :=
  firstn (length s - n) s.

(** [sub in s] *)
Fixpoint contains (s sub : chars) : bool :=
  startswith s sub ||
  match s with
  | _ :: s' => contains s' sub
  | [] => false
  end.


(** [s.split()]: the maximal runs of non-space characters. *)
Fixpoint split_ws_aux (cur : chars) (s : chars) : list chars :=
  match s with
  | [] => match cur with [] => [] | _ => [rev cur] end
  | c :: s' =>
      if is_space c
      then match cur with
           | [] => split_ws_aux [] s'
           | _ => rev cur :: split_ws_aux [] s'
           end
      else split_ws_aux (c :: cur) s'
  end.

Definition split_ws (s : chars) : list chars := split_ws_aux [] s.

(** [s.split(sep)[0]]: what precedes the first occurrence of [sep]. *)
Fixpoint before_first (sep : chars) (s : chars) : chars :=
  match s with
  | [] => []
  | c :: s' => if startswith s sep then [] else c :: before_first sep s'
  end.

Definition chars_of (s : string) : chars := list_ascii_of_string s.
Definition str_of (s : chars) : string := string_of_list_ascii s.

End PyStr.

(** ** The fragment of [re] the normaliser uses *)

Module Re.
Import PyStr.

(** A pattern is a sequence of items over character sets, optionally closed
    by [$].  Every repetition in the source patterns is over a single
    character set. *)
Inductive item :=
  | One (p : ascii -> bool)      (* x  *)
  | Many1 (p : ascii -> bool)    (* x+ *)
  | Many0 (p : ascii -> bool).   (* x* *)

Record pattern := Pattern { items : list item; dollar : bool }.

(** [$] without [re.MULTILINE]: at the end, or just before a newline that is
    the last character. *)
Definition at_dollar (s : chars) : bool :=
  match s with
  | [] => true
  | [c] => if ascii_dec c "010"%char then true else false
  | _ => false
  end.

(** Greedy repetition: take one more character when possible, and fall back
    to the continuation here when the longer attempt fails.  The result is the
    number of characters consumed. *)
Fixpoint greedy (p : ascii -> bool) (k : chars -> option nat) (s : chars)
  : option nat :=
  match s with
  | c :: s' =>
      if p c
      then match greedy p k s' with
           | Some n => Some (S n)
           | None => k s
           end
      else k s
  | [] => k []
  end.

Fixpoint match_items (its : list item) (eol : bool) : chars -> option nat :=
  match its with
  | [] => fun s => if eol then (if at_dollar s then Some 0%nat else None)
                   else Some 0%nat
  | One p :: its' => fun s =>
      match s with
      | c :: s' => if p c then S <$> match_items its' eol s' else None
      | [] => None
      end
  | Many1 p :: its' => fun s =>
      match s with
      | c :: s' => if p c then S <$> greedy p (match_items its' eol) s'
                   else None
      | [] => None
      end
  | Many0 p :: its' => greedy p (match_items its' eol)
  end.

(** Length of the match of the pattern that starts at the head of [s]. *)
Definition match_at (pat : pattern) (s : chars) : option nat :=
  match_items (items pat) (dollar pat) s.

(** [re.sub(pat, repl, s)]: scan from the left; at a position where the
    pattern matches [n+1] characters, emit [repl] and resume after the match
    ([skip] counts the characters of the match still to pass).  None of the
    source patterns matches the empty string, so the empty-match rule of
    [re.sub] never applies. *)
Fixpoint sub_from (pat : pattern) (repl : chars) (skip : nat) (s : chars)
  : chars :=
  match s with
  | [] => []
  | c :: s' =>
      match skip with
      | S k => sub_from pat repl k s'
      | O =>
          match match_at pat s with
          | Some (S n) => repl ++ sub_from pat repl n s'
          | _ => c :: sub_from pat repl 0 s'
          end
      end
  end.

Definition sub (pat : pattern) (repl : chars) (s : chars) : chars :=
  sub_from pat repl 0 s.

(** [re.search(pat, s) is not None] *)
Fixpoint search (pat : pattern) (s : chars) : bool :=
  match match_at pat s with
  | Some _ => true
  | None =>
      match s with
      | [] => false
      | _ :: s' => search pat s'
      end
  end.

(** Character sets. *)
Definition lit (c : ascii) : ascii -> bool :=
  fun d => if ascii_dec d c then true else false.
(** A literal under [re.IGNORECASE]. *)
Definition lit_i (c : ascii) : ascii -> bool :=
  fun d => if ascii_dec (lower_char d) (lower_char c) then true else false.
(** [.] : anything but a newline. *)
Definition dot : ascii -> bool :=
  fun d => if ascii_dec d "010"%char then false else true.

Definition lits (s : string) : list item :=
  map (fun c => One (lit c)) (list_ascii_of_string s).
Definition lits_i (s : string) : list item :=
  map (fun c => One (lit_i c)) (list_ascii_of_string s).

End Re.

(** ** [ExpansionStoreEvaluator]: names *)

Module Evaluator.
Import PyStr Re.

(** r'\$\d+\.\d+$' *)
Definition pat_price_decimal : pattern :=
  Pattern ([One (lit "$"); Many1 is_digit; One (lit "."); Many1 is_digit]) true.
(** r'\$\d+$' *)
Definition pat_price_integer : pattern :=
  Pattern ([One (lit "$"); Many1 is_digit]) true.

(** [wholesale_patterns], each applied with [flags=re.IGNORECASE]. *)
Definition wholesale_patterns : list pattern :=
  [ (* r'- min\. \d+.*$' *)
    Pattern (lits_i "- min. " ++ [Many1 is_digit; Many0 dot]) true;
    (* r'minimum \d+.*$' *)
    Pattern (lits_i "minimum " ++ [Many1 is_digit; Many0 dot]) true;
    (* r'\([\w\-\d]+\)$' *)
    Pattern ([One (lit_i "(");
              Many1 (fun c => is_word c || lit "-" c || is_digit c);
              One (lit_i ")")]) true;
    (* r'- \d+ pack.*$' *)
    Pattern (lits_i "- " ++ [Many1 is_digit] ++ lits_i " pack" ++ [Many0 dot]) true;
    (* r'wholesale.*$' *)
    Pattern (lits_i "wholesale" ++ [Many0 dot]) true;
    (* r'bulk.*$' *)
    Pattern (lits_i "bulk" ++ [Many0 dot]) true ].

Definition prefixes_to_remove : list string :=
  ["the "; "a "; "an "; "new "; "original "; "classic "].
Definition suffixes_to_remove : list string :=
  [" - new"; " - original"; " (new)"; " (original)"; " - limited edition"].

(** r'[^\w\s]' *)
Definition pat_special : pattern :=
  Pattern [One (fun c => negb (is_word c || is_space c))] false.
(** r'\s+' *)
Definition pat_spaces : pattern := Pattern [Many1 is_space] false.

Definition remove_prefix (normalized : chars) (prefix : string) : chars :=
  if startswith normalized (chars_of prefix)
  then drop_prefix (String.length prefix) normalized
  else normalized.

Definition remove_suffix (normalized : chars) (suffix : string) : chars :=
  if endswith normalized (chars_of suffix)
  then drop_suffix (String.length suffix) normalized
  else normalized.

(** The body of [_normalize_name] after the emptiness test, on characters. *)
Definition normalize_chars (name : chars) : chars :=
  let normalized := strip (lower name) in
  let normalized := sub pat_price_decimal [] normalized in
  let normalized := sub pat_price_integer [] normalized in
  let normalized :=
    fold_left (fun acc pat => sub pat [] acc) wholesale_patterns normalized in
  let normalized := fold_left remove_prefix prefixes_to_remove normalized in
  let normalized := fold_left remove_suffix suffixes_to_remove normalized in
  let normalized := sub pat_special [" "%char] normalized in
  strip (sub pat_spaces [" "%char] normalized).

Definition _normalize_name (name : string) : string :=
  match name with
  | EmptyString => ""
  | _ => str_of (normalize_chars (chars_of name))
  end.

(** What a further pass of [_normalize_name] would still remove from a
    name: one of [prefixes_to_remove] at its start, a match of one of
    [wholesale_patterns] anywhere. *)
Definition starts_with_removable_prefix (name : string) : bool :=
  existsb (fun prefix => startswith (chars_of name) (chars_of prefix))
          prefixes_to_remove.
Definition matches_wholesale_pattern (name : string) : bool :=
  existsb (fun pat => search pat (chars_of name)) wholesale_patterns.

(** [_calculate_name_similarity]: Jaccard index of the two word sets. *)
Definition words (name : string) : gset string :=
  list_to_set (map str_of (split_ws (chars_of name))).

Definition _calculate_name_similarity (name1 name2 : string) : Q :=
  match name1, name2 with
  | EmptyString, _ | _, EmptyString => 0
  | _, _ =>
      let words1 := words name1 in
      let words2 := words name2 in
      if decide (words1 = ∅ \/ words2 = ∅) then 0
      else
        let intersection := size (words1 ∩ words2) in
        let union := size (words1 ∪ words2) in
        if decide (0 < union)%nat
        then Z.of_nat intersection # Pos.of_nat union
        else 0
  end.

(** The name part of a product entry ["name - http..."]. *)
Definition clean_name (product : string) : string :=
  if contains (chars_of product) (chars_of " - http")
  then str_of (before_first (chars_of " - http") (chars_of product))
  else product.

(** [_normalize_product_names] *)
Definition _normalize_product_names (products : list string) : gset string :=
  fold_left
    (fun normalized product =>
       let normalized_name := _normalize_name (clean_name product) in
       match normalized_name with
       | EmptyString => normalized
       | _ => {[ normalized_name ]} ∪ normalized
       end)
    products ∅.

(** [_find_fuzzy_product_matches].  The source collects the strings
    [f"{exp_name} ≈ {main_name}"]; the names it is given are normalised names,
    which never contain the sign, so a string stands for exactly one pair and
    the set is modelled as a set of pairs. *)
Definition _find_fuzzy_product_matches (expansion_names main_names : gset string)
  : gset (string * string) :=
  set_fold
    (fun exp_name fuzzy_matches =>
       set_fold
         (fun main_name fuzzy_matches =>
            if decide (exp_name = main_name) then fuzzy_matches
            else
              let similarity := _calculate_name_similarity exp_name main_name in
              if Qle_bool (8 # 10) similarity
              then {[ (exp_name, main_name) ]} ∪ fuzzy_matches
              else fuzzy_matches)
         fuzzy_matches main_names)
    ∅ expansion_names.

(** [_count_matching_products] *)
Definition _count_matching_products (main_products expansion_products : list string)
  : nat :=
  match main_products, expansion_products with
  | [], _ | _, [] => 0%nat
  | _, _ =>
      let expansion_names := _normalize_product_names expansion_products in
      let main_names := _normalize_product_names main_products in
      let exact_matches := size (expansion_names ∩ main_names) in
      let fuzzy_matches :=
        size (_find_fuzzy_product_matches expansion_names main_names) in
      (exact_matches + fuzzy_matches)%nat
  end.

(** *** The qualification search *)

(** What the search logs for one target. *)
Inductive verdict :=
  | ExactMatch (exp_name : string)
  | HighSimilarityMatch (best_similarity : Q) (best_match : string)
  | NoMatchFound.

(** The first loop over the candidates: the first one whose normalised name
    equals the normalised target. *)
Fixpoint find_exact (normalized_target : string) (expansion_product_names : list string)
  : option string :=
  match expansion_product_names with
  | [] => None
  | exp_name :: rest =>
      if decide (normalized_target = _normalize_name exp_name)
      then Some exp_name
      else find_exact normalized_target rest
  end.

Definition Qlt_bool (x y : Q) : bool := negb (Qle_bool y x).

(** The second loop: [best_match] and [best_similarity] after the candidates
    have been visited in order. *)
Definition best_step (normalized_target : string)
    (best : option string * Q) (exp_name : string) : option string * Q :=
  let similarity :=
    _calculate_name_similarity normalized_target (_normalize_name exp_name) in
  if Qlt_bool (snd best) similarity && Qle_bool (9 # 10) similarity
  then (Some exp_name, similarity)
  else best.

Definition find_best (normalized_target : string) (expansion_product_names : list string)
  : option string * Q :=
  fold_left (best_step normalized_target) expansion_product_names (None, 0%Q).

(** Truth value of [best_match] in [if best_match:]. *)
Definition truthy (best_match : option string) : bool :=
  match best_match with
  | None | Some EmptyString => false
  | Some _ => true
  end.

Definition search_target (expansion_product_names : list string) (target_name : string)
  : verdict :=
  let normalized_target := _normalize_name target_name in
  match find_exact normalized_target expansion_product_names with
  | Some exp_name => ExactMatch exp_name
  | None =>
      let '(best_match, best_similarity) :=
        find_best normalized_target expansion_product_names in
      match best_match with
      | Some exp_name =>
          if truthy best_match
          then HighSimilarityMatch best_similarity exp_name
          else NoMatchFound
      | None => NoMatchFound
      end
  end.

Definition is_found (v : verdict) : bool :=
  match v with NoMatchFound => false | _ => true end.

(** [_search_for_specific_products_on_expansion_store], given the list that
    [self._extract_products(expansion_store_url)] returned: the targets found
    and the verdict logged for each target. *)
Definition _search_for_specific_products_on_expansion_store
    (expansion_products : list string) (target_product_names : list string)
  : list string * list (string * verdict) :=
  match expansion_products with
  | [] => ([], [])
  | _ =>
      let expansion_product_names := map clean_name expansion_products in
      fold_left
        (fun '(found_products, log) target_name =>
           let v := search_target expansion_product_names target_name in
           (if is_found v then found_products ++ [target_name] else found_products,
            log ++ [(target_name, v)]))
        target_product_names ([], [])
  end.

(** What the second loop of the search maintains over the candidates seen
    so far, for the normalised target [t]. *)
Definition best_inv (t : string) (seen : list string) (best : option string * Q)
  : Prop :=
  let sim e := _calculate_name_similarity t (_normalize_name e) in
  match fst best with
  | None => snd best = 0%Q
  | Some b => b ∈ seen /\ snd best = sim b /\ (9 # 10 <= snd best)%Q
  end
  /\ forall e, e ∈ seen -> (sim e <= snd best)%Q \/ (sim e < 9 # 10)%Q.

(** Two names of 89 and 100 distinct words, the first 89 in common. *)
Definition names_89 : string := "p1 p2 p3 p4 p5 p6 p7 p8 p9 p10 p11 p12 p13 p14 p15 p16 p17 p18 p19 p20 p21 p22 p23 p24 p25 p26 p27 p28 p29 p30 p31 p32 p33 p34 p35 p36 p37 p38 p39 p40 p41 p42 p43 p44 p45 p46 p47 p48 p49 p50 p51 p52 p53 p54 p55 p56 p57 p58 p59 p60 p61 p62 p63 p64 p65 p66 p67 p68 p69 p70 p71 p72 p73 p74 p75 p76 p77 p78 p79 p80 p81 p82 p83 p84 p85 p86 p87 p88 p89".
Definition names_100 : string := "p1 p2 p3 p4 p5 p6 p7 p8 p9 p10 p11 p12 p13 p14 p15 p16 p17 p18 p19 p20 p21 p22 p23 p24 p25 p26 p27 p28 p29 p30 p31 p32 p33 p34 p35 p36 p37 p38 p39 p40 p41 p42 p43 p44 p45 p46 p47 p48 p49 p50 p51 p52 p53 p54 p55 p56 p57 p58 p59 p60 p61 p62 p63 p64 p65 p66 p67 p68 p69 p70 p71 p72 p73 p74 p75 p76 p77 p78 p79 p80 p81 p82 p83 p84 p85 p86 p87 p88 p89 p90 p91 p92 p93 p94 p95 p96 p97 p98 p99 p100".

(** A reported pair, with the two stores exchanged. *)
Definition swap (p : string * string) : string * string := (snd p, fst p).

End Evaluator.

(** ** The shape of a normalised name *)

Module NameShape.
Import PyStr.

(** The characters of a normalised name: word characters and the space. *)
Definition is_name_char (c : ascii) : bool :=
  is_word c || (if ascii_dec c " " then true else false).

Definition lowered (c : ascii) : Prop := lower_char c = c.

Definition head_not_space (s : chars) : Prop :=
  match s with
  | c :: _ => is_space c = false
  | [] => True
  end.

(** No two spaces in a row. *)
Fixpoint single_spaced (s : chars) : Prop :=
  match s with
  | c1 :: s' =>
      match s' with
      | c2 :: _ => (is_space c1 = false \/ is_space c2 = false)
      | [] => True
      end /\ single_spaced s'
  | [] => True
  end.

(** Length of the white space at the start of a text. *)
Fixpoint space_run (s : chars) : nat :=
  match s with
  | c :: s' => if is_space c then S (space_run s') else 0%nat
  | [] => 0%nat
  end.

End NameShape.

(** ** [product_extractor.py] *)

Module Extractor.
Import PyStr.

Record Product := {
  name : string;
  url : string;
  price : option string;
  image_url : option string;
  description : option string;
  sku : option string;
  category : option string;
  availability : option string }.

Record ProductExtractionResult := {
  products : list Product;
  total_found : nat;
  extraction_method : string;
  platform_detected : option string;   (* default None *)
  success : bool;                      (* default True *)
  error_message : option string;       (* default None *)
  data_freshness : option string;      (* default None *)
  confidence_score : option Q;         (* default None *)
  last_verified : option string }.     (* default None *)

(** A [datetime] is a number of microseconds. *)
Record CacheEntry := {
  cache_url : string;
  result : ProductExtractionResult;
  timestamp : Z;
  is_failure : bool;
  failure_reason : option string }.

(** An entry of [self.dynamic_knowledge_base]. *)
Record KnowledgeEntry := {
  kb_products : list Product;
  kb_platform : string;
  kb_last_updated : option string;
  kb_extraction_method : option string }.

(** The state of a [ProductExtractor] instance.  [requests] is not a field
    of the class: it records, in order, every call that reaches the network
    or the background queue. *)
Record ProductExtractor := {
  cache : gmap string CacheEntry;
  dynamic_knowledge_base : gmap string KnowledgeEntry;
  requests : list string }.

(** Set in [__init__] and never assigned again. *)
Definition cache_ttl_hours : Z := 24.
Definition failure_cache_ttl_hours : Z := 2.

(** [l[:n]] *)
Definition slice_to {A} (n : Z) (l : list A) : list A :=
  if (0 <=? n)%Z then firstn (Z.to_nat n) l
  else firstn (length l - Z.to_nat (- n)) l.

(** Truth value of a list and of an optional string. *)
Definition nonempty {A} (l : list A) : bool :=
  match l with [] => false | _ => true end.
Definition truthy_str (s : option string) : bool :=
  match s with None | Some EmptyString => false | Some _ => true end.

Definition lower_str (s : string) : string := str_of (lower (chars_of s)).
Definition contains_str (s sub : string) : bool :=
  contains (chars_of s) (chars_of sub).

(** A call either returns or raises; an exception is kept as [str(e)]. *)
Inductive outcome (A : Type) :=
  | Returns (a : A)
  | Raises (e : string).
Arguments Returns {A} a.
Arguments Raises {A} e.

(** Computations on the extractor: state passing with exceptions. *)
Definition M (A : Type) : Type :=
  ProductExtractor -> outcome A * ProductExtractor.

Definition ret {A} (a : A) : M A := fun self => (Returns a, self).
Definition raise {A} (e : string) : M A := fun self => (Raises e, self).
Definition bind {A B} (m : M A) (f : A -> M B) : M B :=
  fun self =>
    match m self with
    | (Returns a, self') => f a self'
    | (Raises e, self') => (Raises e, self')
    end.
Definition try_except {A} (body : M A) (handler : string -> M A) : M A :=
  fun self =>
    match body self with
    | (Raises e, self') => handler e self'
    | r => r
    end.

Notation "'let!' x ':=' m 'in' k" := (bind m (fun x => k))
  (at level 10, x name, m at level 100, k at level 200).
Notation "'let!' ' p ':=' m 'in' k" := (bind m (fun p => k))
  (at level 10, p strict pattern, m at level 100, k at level 200).

(** A call that leaves the process: logged in [requests]. *)
Definition request {A} (what : string) (o : outcome A) : M A :=
  fun self =>
    (o, {| cache := cache self;
           dynamic_knowledge_base := dynamic_knowledge_base self;
           requests := requests self ++ [what] |}).

Definition set_cache (c : gmap string CacheEntry) : M unit :=
  fun self =>
    (Returns tt, {| cache := c;
                    dynamic_knowledge_base := dynamic_knowledge_base self;
                    requests := requests self |}).
Definition set_knowledge (kb : gmap string KnowledgeEntry) : M unit :=
  fun self =>
    (Returns tt, {| cache := cache self;
                    dynamic_knowledge_base := kb;
                    requests := requests self |}).
Definition get_self : M ProductExtractor := fun self => (Returns self, self).

(** What the outside world answers during one call of the extractor: the
    readings of [datetime.now()] and the outcome of each discovery strategy
    (all of them go to the network). *)
Record World := {
  now_cache_check : Z;        (* in _is_cache_valid *)
  now_knowledge_update : Z;   (* in _add_to_dynamic_knowledge_base *)
  now_verified : Z;           (* for last_verified *)
  now_store : Z;              (* in _store_in_cache *)
  _detect_platform : string -> outcome (option string);
  _extract_from_pages : string -> string -> Z -> outcome (list Product);
  _extract_from_sitemap : string -> Z -> outcome (list Product);
  _validate_product_urls : list Product -> outcome (list Product);
  _discover_products_via_enhanced_link_analysis :
    string -> Z -> outcome (list Product);
  _universal_collection_discovery : string -> Z -> outcome (list Product);
  (* found_products of _try_simplified_search, which catches every exception *)
  simplified_found_products : string -> Z -> list Product;
  (* final_products of generate_comprehensive_product_database, with the
     methods used and the platform detected *)
  comprehensive_final_products :
    string -> Z -> outcome (list Product * list string * option string) }.

Section WithLibraries.

(** Library functions and the static table, taken as given. *)
Variable md5_hexdigest : string -> string.   (* hashlib.md5(url.encode()).hexdigest() *)
Variable netloc : string -> string.          (* urlparse(url).netloc *)
Variable strftime : Z -> string.             (* .strftime('%Y-%m-%d %H:%M:%S') *)
Variable isoformat : Z -> string.            (* .isoformat() *)
(** The dictionary literal [knowledge_base] of
    [_extract_via_static_knowledge_base] (its product URLs are built from
    [store_url]), in insertion order: known domain, products, platform. *)
Variable static_knowledge_base :
  string -> list (string * (list Product * string)).

Definition _get_cache_key (url : string) : string := md5_hexdigest url.

(** [timedelta.total_seconds()] *)
Definition total_seconds (microseconds : Z) : Q := microseconds # 1000000.

Definition _is_cache_valid (now : Z) (entry : CacheEntry) : bool :=
  if is_failure entry
  then Evaluator.Qlt_bool (total_seconds (now - timestamp entry))
                          (inject_Z (failure_cache_ttl_hours * 3600))
  else Evaluator.Qlt_bool (total_seconds (now - timestamp entry))
                          (inject_Z (cache_ttl_hours * 3600)).

Definition _get_from_cache (now : Z) (url : string) : M (option CacheEntry) :=
  let! self := get_self in
  let cache_key := _get_cache_key url in
  match cache self !! cache_key with
  | Some entry =>
      if _is_cache_valid now entry then ret (Some entry)
      else
        let! _ := set_cache (delete cache_key (cache self)) in
        ret None
  | None => ret None
  end.

Definition _store_in_cache (now : Z) (url : string)
    (result : ProductExtractionResult) (is_failure : bool)
    (failure_reason : option string) : M unit :=
  let! self := get_self in
  let cache_key := _get_cache_key url in
  let entry := {| cache_url := url; result := result; timestamp := now;
                  is_failure := is_failure;
                  failure_reason := failure_reason |} in
  set_cache (<[cache_key := entry]> (cache self)).

(** [urlparse(store_url).netloc.lower()] without a leading [www.] *)
Definition domain_of (store_url : string) : string :=
  let domain := lower_str (netloc store_url) in
  if startswith (chars_of domain) (chars_of "www.")
  then str_of (skipn 4 (chars_of domain))
  else domain.

(** [_save_dynamic_knowledge_base] writes a file and catches every
    exception; it is the request ["save"]. *)
Definition _add_to_dynamic_knowledge_base (now : Z) (store_url : string)
    (products : list Product) (platform extraction_method : string) : M unit :=
  let domain := domain_of store_url in
  if nonempty products then
    let! self := get_self in
    let! _ :=
      set_knowledge
        (<[domain := {| kb_products := products; kb_platform := platform;
                        kb_last_updated := Some (isoformat now);
                        kb_extraction_method := Some extraction_method |}]>
           (dynamic_knowledge_base self)) in
    request "_save_dynamic_knowledge_base" (Returns tt)
  else ret tt.

Fixpoint dedup_from (seen : list (string * string)) (products : list Product)
  : list Product :=
  match products with
  | [] => []
  | product :: rest =>
      let key := (lower_str (name product), url product) in
      if decide (key ∈ seen) then dedup_from seen rest
      else product :: dedup_from (key :: seen) rest
  end.
Definition _deduplicate_products (products : list Product) : list Product :=
  dedup_from [] products.

(** [_extract_via_static_knowledge_base] (the definition at line 3438, which
    replaces the one at line 801). *)
Definition _extract_via_static_knowledge_base (store_url : string)
    (max_products : Z) : option ProductExtractionResult :=
  let domain := lower_str (netloc store_url) in
  match
    List.find
      (fun '(known_domain, _) =>
         bool_decide (domain = known_domain)
         || endswith (chars_of domain) (chars_of ("." +:+ known_domain)))
      (static_knowledge_base store_url)
  with
  | Some (known_domain, (kb_products, platform)) =>
      let products := slice_to max_products kb_products in
      Some {| products := products; total_found := length products;
              extraction_method := "Static Knowledge Base - " +:+ known_domain;
              platform_detected := Some platform; success := true;
              error_message := None; data_freshness := None;
              confidence_score := None; last_verified := None |}
  | None => None
  end.

(** *** Functions local to [main]

    [_is_blocking_error], [_handle_blocked_site_learning] and
    [_infer_products_from_domain] are written at lines 3640-3748, after the
    column-0 [def main():] of line 3617 that ends the body of
    [class ProductExtractor], and indented under it: they are functions local
    to [main], not attributes of the class.  They are embedded here as the
    functions they define, on a [self] that is a [ProductExtractor]: a
    [self.] call to a method of the class resolves to it, and a [self.] call
    to another of these three functions is the lookup of a name that the
    class does not define. *)

(** Looking up on a [ProductExtractor] a name its class does not define. *)
Definition no_attribute {A} (attr : string) : M A :=
  raise ("'ProductExtractor' object has no attribute '" +:+ attr +:+ "'").

Definition blocking_indicators : list string :=
  ["403"; "forbidden"; "access denied"; "blocked";
   "cloudflare"; "bot protection"; "rate limit";
   "too many requests"; "captcha"; "security check"].

Definition _is_blocking_error (error : string) : bool :=
  let error_str := lower_str error in
  existsb (fun indicator => contains_str error_str indicator) blocking_indicators.






(** Strategies 2 and 3 of [_handle_blocked_site_learning].
    [self._infer_products_from_domain] is looked up on the instance (line
    3665); the class has no such attribute, so the lookup raises
    [AttributeError] and what follows it is never reached. *)
Definition blocked_site_inference (w : World) (store_url domain : string)
  : M ProductExtractionResult :=
  let! inferred_products :=
    no_attribute (A := list Product) "_infer_products_from_domain" in
  if nonempty inferred_products then
    let! _ := _add_to_dynamic_knowledge_base (now_knowledge_update w)
                store_url inferred_products "blocked_site_inference"
                "Domain-based Product Inference" in
    let! _ := request "background_extractor.queue_extraction" (Returns tt) in
    ret {| products := inferred_products;
           total_found := length inferred_products;
           extraction_method :=
             "Blocked Site - Domain Inference (Background job queued)";
           platform_detected := Some "blocked"; success := true;
           error_message :=
             Some "Site blocking detected - using inferred product data, background extraction queued";
           data_freshness := None; confidence_score := None;
           last_verified := None |}
  else
    ret {| products := []; total_found := 0;
           extraction_method := "Blocked Site - Manual Intervention Required";
           platform_detected := Some "blocked"; success := false;
           error_message :=
             Some ("Site " +:+ domain +:+
                   " is blocking requests and requires manual knowledge base entry");
           data_freshness := None; confidence_score := None;
           last_verified := None |}.

(** [_handle_blocked_site_learning]; [self._extract_via_static_knowledge_base]
    is a method of the class. *)
Definition _handle_blocked_site_learning (w : World) (store_url : string)
    (max_products : Z) : M ProductExtractionResult :=
  let domain := lower_str (netloc store_url) in
  let static_result := _extract_via_static_knowledge_base store_url max_products in
  match static_result with
  | Some r =>
      if nonempty (products r) then ret r
      else blocked_site_inference w store_url domain
  | None => blocked_site_inference w store_url domain
  end.

(** *** Methods of [ProductExtractor] *)

(** One discovery method of [discover_and_learn_products]: run [strategy]
    when fewer than [max_products] products are known, and keep what it
    found under [label]. *)
Definition discovery_method (max_products : Z)
    (acc : list Product * list string) (label : string)
    (strategy : Z -> M (list Product)) : M (list Product * list string) :=
  let '(discovered_products, extraction_methods_used) := acc in
  if (Z.of_nat (length discovered_products) <? max_products)%Z then
    let! found :=
      strategy (max_products - Z.of_nat (length discovered_products))%Z in
    if nonempty found
    then ret (discovered_products ++ found, extraction_methods_used ++ [label])
    else ret acc
  else ret acc.

(** The [try] block of [discover_and_learn_products]. *)
Definition discovery_body (w : World) (store_url : string) (max_products : Z)
  : M ProductExtractionResult :=
  (* Method 1: platform-specific extraction *)
  let! platform_detected :=
    request "_detect_platform" (_detect_platform w store_url) in
  let! acc :=
    match platform_detected with
    | Some platform =>
        if truthy_str platform_detected then
          let! platform_products :=
            request "_extract_from_pages"
                    (_extract_from_pages w store_url platform max_products) in
          if nonempty platform_products
          then ret (platform_products,
                    ["Platform-specific (" +:+ platform +:+ ")"])
          else ret ([], [])
        else ret ([], [])
    | None => ret ([], [])
    end in
  (* Method 2: sitemap analysis, validated on the first five *)
  let! acc :=
    discovery_method max_products acc "Sitemap Analysis"
      (fun remaining =>
         let! sitemap_products :=
           request "_extract_from_sitemap"
                   (_extract_from_sitemap w store_url remaining) in
         if nonempty sitemap_products
         then request "_validate_product_urls"
                (_validate_product_urls w (slice_to 5 sitemap_products))
         else ret []) in
  (* Method 3: enhanced link discovery *)
  let! acc :=
    discovery_method max_products acc "Enhanced Link Discovery"
      (fun remaining =>
         request "_discover_products_via_enhanced_link_analysis"
           (_discover_products_via_enhanced_link_analysis w store_url remaining)) in
  (* Method 4: universal collection discovery *)
  let! acc :=
    discovery_method max_products acc "Universal Collection Discovery"
      (fun remaining =>
         request "_universal_collection_discovery"
           (_universal_collection_discovery w store_url remaining)) in
  let '(discovered_products, extraction_methods_used) := acc in
  let unique_products := _deduplicate_products discovered_products in
  let final_products := slice_to max_products unique_products in
  if nonempty final_products then
    let extraction_method :=
      "Real Discovery - " +:+ String.concat ", " extraction_methods_used in
    let! _ :=
      _add_to_dynamic_knowledge_base (now_knowledge_update w) store_url
        final_products
        (if truthy_str platform_detected
         then default "unknown" platform_detected else "unknown")
        extraction_method in
    ret {| products := final_products; total_found := length final_products;
           extraction_method := extraction_method;
           platform_detected := platform_detected; success := true;
           error_message := None; data_freshness := None;
           confidence_score := None; last_verified := None |}
  else
    ret {| products := []; total_found := 0;
           extraction_method := "Real Discovery - No products found";
           platform_detected := platform_detected; success := true;
           error_message := Some "No e-commerce products detected on this site";
           data_freshness := None; confidence_score := None;
           last_verified := None |}.

(** [discover_and_learn_products].  In the handler,
    [self._is_blocking_error] is looked up on the instance; the class has no
    such attribute (see above), so the lookup raises [AttributeError] and the
    two [return]s of the handler are never reached. *)
Definition discover_and_learn_products (w : World) (store_url : string)
    (max_products : Z) : M ProductExtractionResult :=
  let domain := domain_of store_url in
  let! self := get_self in
  match dynamic_knowledge_base self !! domain with
  | Some kb_data =>
      let products := slice_to max_products (kb_products kb_data) in
      ret {| products := products; total_found := length products;
             extraction_method := "Dynamic Knowledge Base - " +:+ domain;
             platform_detected := Some (kb_platform kb_data); success := true;
             error_message := None; data_freshness := None;
             confidence_score := None; last_verified := None |}
  | None =>
      try_except (discovery_body w store_url max_products)
        (fun e =>
           let! blocking := no_attribute (A := bool) "_is_blocking_error" in
           if blocking
           then _handle_blocked_site_learning w store_url max_products
           else
             ret {| products := []; total_found := 0;
                    extraction_method := "Error";
                    platform_detected := None; success := true;
                    error_message := None; data_freshness := Some "Failed";
                    confidence_score := None; last_verified := None |})
  end.

(** [_try_simplified_search]: every exception is caught inside. *)
Definition _try_simplified_search (w : World) (store_url : string)
    (max_products : Z) : M (option ProductExtractionResult) :=
  let! found_products :=
    request "_try_simplified_search"
            (Returns (simplified_found_products w store_url max_products)) in
  if nonempty found_products then
    ret (Some {| products := found_products;
                 total_found := length found_products;
                 extraction_method := "Simplified search";
                 platform_detected := None; success := true;
                 error_message := None; data_freshness := None;
                 confidence_score := None; last_verified := None |})
  else ret None.

(** Assignment to the three metadata attributes of a result. *)
Definition set_metadata (r : ProductExtractionResult)
    (freshness : option string) (confidence : option Q)
    (verified : option string) : ProductExtractionResult :=
  {| products := products r; total_found := total_found r;
     extraction_method := extraction_method r;
     platform_detected := platform_detected r; success := success r;
     error_message := error_message r;
     data_freshness := freshness; confidence_score := confidence;
     last_verified := verified |}.

(** The cached result is the object the entry holds: assigning to its
    attributes changes the entry in the cache as well. *)
Definition update_cached_result (url : string) (entry : CacheEntry)
    (r : ProductExtractionResult) : M unit :=
  let! self := get_self in
  set_cache (<[_get_cache_key url :=
                 {| cache_url := cache_url entry; result := r;
                    timestamp := timestamp entry;
                    is_failure := is_failure entry;
                    failure_reason := failure_reason entry |}]> (cache self)).

(** Step 4 of [extract_products_from_store]. *)
Definition extraction_step4 (w : World) (store_url : string)
  : M ProductExtractionResult :=
  let failure_result :=
    {| products := []; total_found := 0;
       extraction_method := "No real products found";
       platform_detected := None; success := true;
       error_message :=
         Some "This site does not appear to sell e-commerce products";
       data_freshness := Some "Real-time (no products found)";
       confidence_score := Some (8 # 10);
       last_verified := Some (strftime (now_verified w)) |} in
  let! _ := _store_in_cache (now_store w) store_url failure_result true
              (Some "No products found") in
  ret failure_result.

(** Step 3. *)
Definition extraction_step3 (w : World) (store_url : string) (max_products : Z)
  : M ProductExtractionResult :=
  match _extract_via_static_knowledge_base store_url max_products with
  | Some static_result =>
      if success static_result then
        let static_result :=
          set_metadata static_result (Some "Static knowledge base")
            (Some (6 # 10)) (Some "Static data - not verified") in
        let! _ := _store_in_cache (now_store w) store_url static_result false None in
        ret static_result
      else extraction_step4 w store_url
  | None => extraction_step4 w store_url
  end.

(** Step 2. *)
Definition extraction_step2 (w : World) (store_url : string) (max_products : Z)
  : M ProductExtractionResult :=
  let! simplified_result := _try_simplified_search w store_url max_products in
  match simplified_result with
  | Some simplified_result =>
      if success simplified_result && nonempty (products simplified_result) then
        let simplified_result :=
          set_metadata simplified_result (Some "Real-time (simplified search)")
            (Some (7 # 10)) (Some (strftime (now_verified w))) in
        let! _ := _store_in_cache (now_store w) store_url simplified_result false None in
        ret simplified_result
      else extraction_step3 w store_url max_products
  | None => extraction_step3 w store_url max_products
  end.

(** [extract_products_from_store], with the method that
    [self.discover_and_learn_products] resolves to as a parameter. *)
Definition extract_products_from_store_with
    (discover : World -> string -> Z -> M ProductExtractionResult)
    (w : World) (store_url : string) (max_products : Z)
  : M ProductExtractionResult :=
  try_except
    (let! cached_entry := _get_from_cache (now_cache_check w) store_url in
     match cached_entry with
     | Some cached_entry =>
         if is_failure cached_entry then
           let result :=
             set_metadata (result cached_entry)
               (Some ("Cached failure from " +:+ strftime (timestamp cached_entry)))
               (Some (3 # 10)) (last_verified (result cached_entry)) in
           let! _ := update_cached_result store_url cached_entry result in
           ret result
         else
           let result :=
             set_metadata (result cached_entry)
               (Some ("Cached from " +:+ strftime (timestamp cached_entry)))
               (Some (8 # 10)) (Some (strftime (timestamp cached_entry))) in
           let! _ := update_cached_result store_url cached_entry result in
           ret result
     | None =>
         (* Step 1 *)
         let! learning_result := discover w store_url max_products in
         if success learning_result && nonempty (products learning_result) then
           let learning_result :=
             set_metadata learning_result (Some "Real-time") (Some 1%Q)
               (Some (strftime (now_verified w))) in
           let! _ := _store_in_cache (now_store w) store_url learning_result false None in
           ret learning_result
         else if success learning_result
                 && negb (nonempty (products learning_result)) then
           let learning_result :=
             set_metadata learning_result (Some "Real-time") (Some (9 # 10))
               (Some (strftime (now_verified w))) in
           let! _ := _store_in_cache (now_store w) store_url learning_result false None in
           ret learning_result
         else extraction_step2 w store_url max_products
     end)
    (fun e =>
       let error_result :=
         {| products := []; total_found := 0;
            extraction_method := "Extraction failed";
            platform_detected := None; success := false;
            error_message := Some e; data_freshness := Some "Error";
            confidence_score := Some 0%Q;
            last_verified := Some (strftime (now_verified w)) |} in
       let! _ := _store_in_cache (now_store w) store_url error_result true (Some e) in
       ret error_result).

Definition extract_products_from_store
  : World -> string -> Z -> M ProductExtractionResult :=
  extract_products_from_store_with discover_and_learn_products.

(** [generate_comprehensive_product_database]; the six extraction methods of
    its [try] block, with deduplication and enhancement, are the world's
    [comprehensive_final_products]. *)
Definition generate_comprehensive_product_database (w : World)
    (store_url : string) (max_products : Z) : M ProductExtractionResult :=
  try_except
    (let! '(final_products, extraction_methods_used, platform) :=
       request "generate_comprehensive_product_database"
               (comprehensive_final_products w store_url max_products) in
     if nonempty final_products then
       ret {| products := final_products; total_found := length final_products;
              extraction_method :=
                "Comprehensive Database - " +:+
                String.concat ", " extraction_methods_used;
              platform_detected := platform; success := true;
              error_message := None; data_freshness := None;
              confidence_score := None; last_verified := None |}
     else
       ret {| products := []; total_found := 0;
              extraction_method := "Comprehensive Database - No products found";
              platform_detected := None; success := false;
              error_message := Some "Could not extract products using any method";
              data_freshness := None; confidence_score := None;
              last_verified := None |})
    (fun e =>
       ret {| products := []; total_found := 0;
              extraction_method := "Comprehensive Database - Failed";
              platform_detected := None; success := false;
              error_message := Some e;
              data_freshness := None; confidence_score := None;
              last_verified := None |}).

(** *** A client of the extractor *)

(** The calls a client can make on an instance. *)
Inductive call :=
  | Call_extract_products_from_store (w : World) (store_url : string) (max_products : Z)
  | Call_discover_and_learn_products (w : World) (store_url : string) (max_products : Z)
  | Call_generate_comprehensive_product_database
      (w : World) (store_url : string) (max_products : Z)
  | Call_try_simplified_search (w : World) (store_url : string) (max_products : Z)
  | Call_extract_via_static_knowledge_base (store_url : string) (max_products : Z).

(** What a call hands back: a result, nothing ([None]) or an exception. *)
Definition perform (c : call) : M (option ProductExtractionResult) :=
  match c with
  | Call_extract_products_from_store w u n =>
      let! r := extract_products_from_store w u n in ret (Some r)
  | Call_discover_and_learn_products w u n =>
      let! r := discover_and_learn_products w u n in ret (Some r)
  | Call_generate_comprehensive_product_database w u n =>
      let! r := generate_comprehensive_product_database w u n in ret (Some r)
  | Call_try_simplified_search w u n => _try_simplified_search w u n
  | Call_extract_via_static_knowledge_base u n =>
      ret (_extract_via_static_knowledge_base u n)
  end.

(** The instance after [__init__]: an empty cache and the knowledge base read
    from the file. *)
Definition init (loaded : gmap string KnowledgeEntry) : ProductExtractor :=
  {| cache := ∅; dynamic_knowledge_base := loaded; requests := [] |}.

(** A sequence of calls on one instance, with what each handed back. *)
Fixpoint run (self : ProductExtractor) (calls : list call)
  : list (outcome (option ProductExtractionResult)) * ProductExtractor :=
  match calls with
  | [] => ([], self)
  | c :: rest =>
      let '(o, self') := perform c self in
      let '(os, self'') := run self' rest in
      (o :: os, self'')
  end.

End WithLibraries.

(** *** Vocabulary of the properties *)

(** The time to live of an entry, in microseconds. *)
Definition ttl_microseconds (entry : CacheEntry) : Z :=
  (if is_failure entry then 2 * 3600 * 1000000 else 24 * 3600 * 1000000)%Z.

(** Invariants through the monad.

    [triple I m Q]: started in a state that satisfies [I], the computation [m]
    ends in a state that satisfies [I], and what it returns satisfies [Q]. *)
Definition triple {A} (I : ProductExtractor -> Prop) (m : M A) (Q : A -> Prop)
  : Prop :=
  forall self, I self ->
    I (snd (m self))
    /\ match fst (m self) with Returns a => Q a | Raises _ => True end.

(** Invariants that only read the cache. *)
Definition on_cache (P : gmap string CacheEntry -> Prop) : ProductExtractor -> Prop :=
  fun self => P (cache self).

(** [success=false] implies an empty [products]. *)
Definition result_ok (r : ProductExtractionResult) : Prop :=
  success r = false -> products r = [].

Definition cache_ok (c : gmap string CacheEntry) : Prop :=
  forall key entry, c !! key = Some entry -> result_ok (result entry).

(** What a call hands back is well formed. *)
Definition outcome_ok (o : outcome (option ProductExtractionResult)) : Prop :=
  match o with
  | Returns (Some r) => result_ok r
  | _ => True
  end.

End Extractor.

(** ** A sample store *)

Module Sample.
Import Extractor.

Definition md5_hexdigest (url : string) : string := url.
Definition netloc (url : string) : string := "www.Shop.example".
Definition strftime (t : Z) : string := "2024-01-01 00:00:00".
Definition isoformat (t : Z) : string := "2024-01-01T00:00:00".
Definition static_knowledge_base (store_url : string)
  : list (string * (list Product * string)) := [].

Definition store_url : string := "https://www.Shop.example/".

Definition sweater : Product :=
  {| name := "Blue Wool Sweater"; url := "https://www.Shop.example/products/sweater";
     price := None; image_url := None; description := None; sku := None;
     category := None; availability := None |}.
Definition boots : Product :=
  {| name := "Red Leather Boots"; url := "https://www.Shop.example/products/boots";
     price := None; image_url := None; description := None; sku := None;
     category := None; availability := None |}.

(** A world in which the detection of the platform does what [detect] says
    and every other strategy finds nothing. *)
Definition world (detect : outcome (option string)) : World :=
  {| now_cache_check := 0; now_knowledge_update := 0; now_verified := 0;
     now_store := 5;
     _detect_platform := fun _ => detect;
     _extract_from_pages := fun _ _ _ => Returns [];
     _extract_from_sitemap := fun _ _ => Returns [];
     _validate_product_urls := fun _ => Returns [];
     _discover_products_via_enhanced_link_analysis := fun _ _ => Returns [];
     _universal_collection_discovery := fun _ _ => Returns [];
     simplified_found_products := fun _ _ => [];
     comprehensive_final_products := fun _ _ => Returns ([], [], None) |}.

(** A world in which the store is a Shopify store whose pages show the
    sweater and the boots. *)
Definition stocked : World :=
  {| now_cache_check := 0; now_knowledge_update := 0; now_verified := 0;
     now_store := 5;
     _detect_platform := fun _ => Returns (Some "shopify");
     _extract_from_pages := fun _ _ _ => Returns [sweater; boots];
     _extract_from_sitemap := fun _ _ => Returns [];
     _validate_product_urls := fun _ => Returns [];
     _discover_products_via_enhanced_link_analysis := fun _ _ => Returns [];
     _universal_collection_discovery := fun _ _ => Returns [];
     simplified_found_products := fun _ _ => [];
     comprehensive_final_products := fun _ _ => Returns ([], [], None) |}.

Definition learned : KnowledgeEntry :=
  {| kb_products := [sweater; boots]; kb_platform := "shopify";
     kb_last_updated := None; kb_extraction_method := None |}.

Definition fresh : ProductExtractor := init ∅.
Definition taught : ProductExtractor := init {[ "shop.example" := learned ]}.

End Sample.


(** ** [ExpansionStoreEvaluator]: the criteria on goods, services and products *)

Module Criteria.
Import PyStr Evaluator Extractor.

(** [_check_goods_services_identity], on [expansion_info.goods_services or []]
    and [criteria.main_brand_goods_services or []]. *)
Definition _check_goods_services_identity (expansion_goods main_goods : list string)
  : bool :=
  if negb (nonempty expansion_goods) && negb (nonempty main_goods) then true
  else if negb (nonempty expansion_goods) || negb (nonempty main_goods) then false
  else
    let expansion_goods_set : gset string := list_to_set expansion_goods in
    let main_goods_set : gset string := list_to_set main_goods in
    bool_decide (expansion_goods_set = main_goods_set).

(** [_check_goods_services_types]; the quotient is the exact one, which
    compares with 0.6 as the float does for fewer than 10^15 types. *)
Definition _check_goods_services_types (expansion_goods main_goods : list string)
  : bool :=
  if negb (nonempty expansion_goods) || negb (nonempty main_goods) then false
  else
    let expansion_goods_set : gset string := list_to_set expansion_goods in
    let main_goods_set : gset string := list_to_set main_goods in
    let overlap := size (expansion_goods_set ∩ main_goods_set) in
    let total_types := size main_goods_set in
    if decide (0 < total_types)%nat
    then Qle_bool (6 # 10) (Z.of_nat overlap # Pos.of_nat total_types)
    else false.

(** The number of matches [_check_product_identity] asks for; [is_b2b] is
    [business_type == B2B and self._check_b2b_qualification(expansion_info)]. *)
Definition required_matches (is_b2b : bool) (target_product_names : list string)
  : nat :=
  if is_b2b then Nat.max 2 (Nat.min (length target_product_names) 2)
  else Nat.max 3 (Nat.min (length target_product_names) 3).

(** [_check_product_identity], given the lists of the criteria
    ([main_brand_products or []], [main_brand_goods_services or []]), the
    expansion store's [goods_services or []] and the list that
    [_extract_products] returns for the expansion store. *)
Definition _check_product_identity (is_b2b : bool)
    (main_products main_services expansion_services : list string)
    (expansion_products : list string) : bool :=
  if negb (nonempty main_products) && negb (nonempty main_services) then false
  else if negb (nonempty main_products) then false
  else
    let target_products := slice_to 25 main_products in
    let target_product_names := map clean_name target_products in
    let found_products :=
      fst (_search_for_specific_products_on_expansion_store
             expansion_products target_product_names) in
    let required_matches := required_matches is_b2b target_product_names in
    let success := (required_matches <=? length found_products)%nat in
    if negb success && nonempty main_services then
      if nonempty expansion_services then
        let services_match :=
          (0 <? size ((list_to_set main_services : gset string)
                      ∩ list_to_set expansion_services))%nat in
        if services_match then true else success
      else success
    else success.

(** The entries that [_extract_products] builds from the products of a
    result: ["name - url"], or the name alone when the url is empty. *)
Definition product_entry (product : Product) : list string :=
  match name product, url product with
  | EmptyString, _ => []
  | _, EmptyString => [name product]
  | _, _ => [name product +:+ " - " +:+ url product]
  end.

Definition product_names_with_urls (products : list Product) : list string :=
  flat_map product_entry products.

(** A product whose entry gives its name back: the name is not empty and
    does not hold [" - http"], and the url is empty or starts with [http]. *)
Definition plain_product (product : Product) : bool :=
  nonempty (chars_of (name product))
  && negb (contains_str (name product) " - http")
  && (negb (nonempty (chars_of (url product)))
      || startswith (chars_of (url product)) (chars_of "http")).

(** Two lists of goods and services have an element in common. *)
Definition share_a_service (main_services expansion_services : list string)
  : Prop :=
  exists service, service ∈ main_services /\ service ∈ expansion_services.

Section WithLibraries.
Variable md5_hexdigest : string -> string.
Variable netloc : string -> string.
Variable strftime : Z -> string.
Variable isoformat : Z -> string.
Variable static_knowledge_base :
  string -> list (string * (list Product * string)).

(** [_extract_products]; [available] is
    [self.use_real_product_extraction and self.product_extractor]. *)
Definition _extract_products (available : bool) (w : World) (url : string)
  : M (list string) :=
  if available then
    try_except
      (let! result :=
         extract_products_from_store md5_hexdigest netloc strftime isoformat
           static_knowledge_base w url 20 in
       if success result && nonempty (products result)
       then ret (slice_to 25 (product_names_with_urls (products result)))
       else ret [])
      (fun e => ret [])
  else ret [].

End WithLibraries.
End Criteria.

(** ** [product_extractor.py]: links *)

Module Links.
Import PyStr Re Extractor.

(** [href.split('?')[1]], used when ['?' in href]. *)
Fixpoint after_first (sep : ascii) (s : chars) : chars :=
  match s with
  | [] => []
  | c :: s' => if ascii_dec c sep then s' else after_first sep s'
  end.

Definition enhanced_skip_patterns : list string :=
  ["javascript:"; "mailto:"; "tel:"; "#"; "//"; "http://facebook"; "http://twitter";
   "http://instagram"; "http://linkedin"; "/account"; "/login"; "/register"; "/cart";
   "/checkout"; "/search"; "/contact"; "/about"; "/help"; "/support"; "/privacy";
   "/terms"; "/shipping"; "/returns"; "/faq"; "/blog"; "/news"].

(** [positive_patterns]: the last two are written as raw strings holding a
    regular expression, but they are strings, so [isinstance(pattern, str)]
    holds for them too and they are looked for as they stand. *)
Definition enhanced_positive_patterns : list string :=
  ["/product/"; "/products/"; "/item/"; "/items/"; "/p/"; "/pd/"; "/pdp/";
   "/product-detail/"; "/product-details/"; "/shop/"; "/store/"; "/catalog/";
   "/collection/"; "/collections/"; "/category/"; "/buy/"; "/view/";
   "/\w+/\w{6,}"; "/[a-zA-Z0-9-_]{8,}"].

Definition query_params : list string :=
  ["id="; "product="; "item="; "sku="; "variant="].

(** [_is_enhanced_product_url] *)
Definition _is_enhanced_product_url (href : string) : bool :=
  if (String.length href <? 5)%nat then false
  else
    let href_lower := lower_str href in
    if existsb (fun pattern => contains_str href_lower pattern) enhanced_skip_patterns
    then false
    else if existsb (fun pattern => contains_str href_lower pattern)
                    enhanced_positive_patterns
    then true
    else if contains_str href "?" then
      let query_part :=
        str_of (before_first ["?"%char] (after_first "?" (chars_of href))) in
      existsb (fun param => contains_str (lower_str query_part) param) query_params
    else false.

Definition likely_skip_patterns : list string :=
  ["/cart"; "/checkout"; "/login"; "/register"; "/account"; "/search";
   "/about"; "/contact"; "/help"; "/support"; "/blog"; "/news";
   "/terms"; "/privacy"; "/shipping"; "/returns"; "/faq";
   ".pdf"; ".jpg"; ".png"; ".gif"; ".css"; ".js"].

Definition likely_product_patterns : list string :=
  ["/product"; "/products"; "/item"; "/p/"; "/pd/"; "/pdp/";
   "/product-detail"; "/product-details"; "/shop/"; "/buy/";
   "/catalog"; "/collection"; "/collections"].

(** r'/\d{4,}' *)
Definition pat_product_id : pattern :=
  Pattern [One (lit "/"); One is_digit; One is_digit; One is_digit; One is_digit;
           Many0 is_digit] false.

(** [_is_likely_product_url] *)
Definition _is_likely_product_url (href : string) : bool :=
  match href with
  | EmptyString => false
  | _ =>
      let href_lower := lower_str href in
      if existsb (fun pattern => contains_str href_lower pattern) likely_skip_patterns
      then false
      else if existsb (fun pattern => contains_str href_lower pattern)
                      likely_product_patterns
      then true
      else search pat_product_id (chars_of href)
  end.

(** What [r'/\d{4,}'] looks for: a slash followed by four digits. *)
Definition has_product_id (s : chars) : Prop :=
  exists before d1 d2 d3 d4 after,
    s = before ++ "/"%char :: d1 :: d2 :: d3 :: d4 :: after
    /\ is_digit d1 = true /\ is_digit d2 = true
    /\ is_digit d3 = true /\ is_digit d4 = true.

End Links.

(** ** [BackgroundExtractor] *)

Module Background.
Import PyStr Extractor.

Record BackgroundJob := {
  store_url : string;
  domain : string;
  timestamp : Q;                       (* time.time() *)
  max_products : Z;                    (* default 10 *)
  priority : string;                   (* default "normal" *)
  context : list (string * string) }.  (* default None *)

(** The queue holds the jobs put and not yet taken, oldest first. *)
Record BackgroundExtractor := {
  extraction_queue : list BackgroundJob;
  processed_domains : gset string }.

(** After [__init__]. *)
Definition new_extractor : BackgroundExtractor :=
  {| extraction_queue := []; processed_domains := ∅ |}.

(** [queue_extraction]; [netloc] is [urlparse(store_url).netloc] and [now]
    what [time.time()] reads. *)
Definition queue_extraction (netloc : string -> string) (now : Q)
    (store_url : string) (max_products : Z) (priority : string)
    (context : option (list (string * string)))
    (self : BackgroundExtractor) : BackgroundExtractor :=
  let domain := lower_str (netloc store_url) in
  if decide (domain ∈ processed_domains self) then self
  else
    let job := {| store_url := store_url; domain := domain; timestamp := now;
                  max_products := max_products; priority := priority;
                  context := default [] context |} in
    {| extraction_queue := extraction_queue self ++ [job];
       processed_domains := {[ domain ]} ∪ processed_domains self |}.

(** [self.extraction_queue.get] in [_worker]: the oldest job, if any. *)
Definition take (self : BackgroundExtractor)
  : option BackgroundJob * BackgroundExtractor :=
  match extraction_queue self with
  | [] => (None, self)
  | job :: rest =>
      (Some job, {| extraction_queue := rest;
                    processed_domains := processed_domains self |})
  end.

(** What happens to an instance: a call of [queue_extraction], or the worker
    taking a job. *)
Inductive event :=
  | Queue (now : Q) (store_url : string) (max_products : Z) (priority : string)
          (context : option (list (string * string)))
  | Take.

(** The instance after the events, with the jobs the worker has taken. *)
Fixpoint play (netloc : string -> string) (events : list event)
    (taken : list BackgroundJob) (self : BackgroundExtractor)
  : list BackgroundJob * BackgroundExtractor :=
  match events with
  | [] => (taken, self)
  | Queue now store_url max_products priority context :: rest =>
      play netloc rest taken
           (queue_extraction netloc now store_url max_products priority context self)
  | Take :: rest =>
      match take self with
      | (Some job, self') => play netloc rest (taken ++ [job]) self'
      | (None, self') => play netloc rest taken self'
      end
  end.

(** Every job queued so far, taken or not, is for the lower-cased host of its
    url, no two of them are for the same domain, and their domains are the
    processed domains. *)
Definition once_per_domain (netloc : string -> string)
    (taken : list BackgroundJob) (self : BackgroundExtractor) : Prop :=
  let jobs := taken ++ extraction_queue self in
  NoDup (map domain jobs)
  /\ (forall d, d ∈ processed_domains self <-> d ∈ map domain jobs)
  /\ Forall (fun job => domain job = lower_str (netloc (store_url job))) jobs.

Definition domain_delays : list (string * Z) :=
  [("shopify", 45); ("bigcommerce", 60); ("woocommerce", 90); ("magento", 120)]%Z.

(** [_calculate_intelligent_delay], in seconds. *)
Definition _calculate_intelligent_delay (domain priority : string) : Z :=
  let base_delay := if decide (priority = "high") then 30%Z else 60%Z in
  match List.find (fun '(platform, _) => contains_str (lower_str domain) platform)
                  domain_delays with
  | Some (_, delay) => Z.max base_delay delay
  | None =>
      if existsb (fun tld => contains_str domain tld) [".cn"; ".ru"; ".kr"; ".jp"]
      then (base_delay + 30)%Z
      else if existsb (fun indicator => contains_str (lower_str domain) indicator)
                      ["cloudflare"; "security"; "bot-protection"]
      then (base_delay + 60)%Z
      else base_delay
  end.

End Background.

(** ** Vocabulary of the further properties of the extractor *)

Module ExtractorSpec.
Import PyStr Extractor.

(** [hoare P m Q E]: started in a state that satisfies [P], the computation
    [m] ends with a value and a state that satisfy [Q], or raises an
    exception with a state that satisfy [E]. *)
Definition hoare {A} (P : ProductExtractor -> Prop) (m : M A)
    (Q : A -> ProductExtractor -> Prop) (E : string -> ProductExtractor -> Prop)
  : Prop :=
  forall self, P self ->
    match m self with
    | (Returns a, self') => Q a self'
    | (Raises e, self') => E e self'
    end.

(** No exception. *)
Definition never : string -> ProductExtractor -> Prop := fun _ _ => False.

(** The key by which [_deduplicate_products] tells products apart. *)
Definition dedup_key (product : Product) : string * string :=
  (lower_str (name product), url product).

(** A result counts its products. *)
Definition well_counted (r : ProductExtractionResult) : Prop :=
  total_found r = length (products r).

(** What every cache entry of a running extractor satisfies: its result
    counts its products, says [success=false] only without products, and is
    flagged as a failure exactly when it is not a success. *)
Definition entry_ok (entry : CacheEntry) : Prop :=
  well_counted (result entry)
  /\ (success (result entry) = false -> products (result entry) = [])
  /\ is_failure entry = negb (success (result entry)).

Definition entries_ok (self : ProductExtractor) : Prop :=
  forall key entry, cache self !! key = Some entry -> entry_ok entry.

(** A property of the knowledge base kept when products are learned. *)
Definition keeps_knowledge (K : gmap string KnowledgeEntry -> Prop) : Prop :=
  forall kb domain entry,
    K kb -> kb_products entry <> [] -> K (<[domain := entry]> kb).

Definition nonempty_knowledge (kb : gmap string KnowledgeEntry) : Prop :=
  forall domain kb_data, kb !! domain = Some kb_data -> kb_products kb_data <> [].

(** The invariant of a running extractor, for such a property [K], and what
    it makes of a result. *)
Definition inv (K : gmap string KnowledgeEntry -> Prop) (self : ProductExtractor)
  : Prop :=
  entries_ok self /\ K (dynamic_knowledge_base self).

Definition result_sound (r : ProductExtractionResult) : Prop :=
  well_counted r /\ (success r = false -> products r = []).

(** A property of the state that does not read [requests]. *)
Definition blind (P : ProductExtractor -> Prop) : Prop :=
  forall c kb rs rs',
    P {| cache := c; dynamic_knowledge_base := kb; requests := rs |} ->
    P {| cache := c; dynamic_knowledge_base := kb; requests := rs' |}.

(** A property of the state kept by the requests and by the learning of
    products. *)
Definition learnable (P : ProductExtractor -> Prop) : Prop :=
  blind P
  /\ forall c kb rs d entry,
       P {| cache := c; dynamic_knowledge_base := kb; requests := rs |} ->
       kb_products entry <> [] ->
       P {| cache := c; dynamic_knowledge_base := <[d := entry]> kb;
            requests := rs |}.

(** What the [try] block of [discover_and_learn_products] returns; [domain]
    is the domain of the store. *)
Definition discovered (max_products : Z) (domain : string)
    (r : ProductExtractionResult) (self : ProductExtractor) : Prop :=
  success r = true /\ well_counted r
  /\ ((0 <= max_products)%Z -> (Z.of_nat (length (products r)) <= max_products)%Z)
  /\ (products r <> [] ->
      exists entry,
        dynamic_knowledge_base self !! domain = Some entry
        /\ kb_products entry = products r).

(** What [discover_and_learn_products] returns. *)
Definition discovery_result (max_products : Z) (r : ProductExtractionResult)
  : Prop :=
  success r = true /\ well_counted r
  /\ ((0 <= max_products)%Z -> (Z.of_nat (length (products r)) <= max_products)%Z).

(** The url has no valid entry in the cache when the clock reads [now];
    [cache_key] is [_get_cache_key]. *)
Definition misses (cache_key : string -> string)
    (is_valid : Z -> CacheEntry -> bool) (now : Z) (url : string)
    (self : ProductExtractor) : Prop :=
  match cache self !! cache_key url with
  | Some entry => is_valid now entry = false
  | None => True
  end.

(** The result of a call served from the cache entry [entry]; [stamp] is the
    formatted timestamp of the entry. *)
Definition served_from (entry : CacheEntry) (stamp : string)
  : ProductExtractionResult :=
  if is_failure entry
  then set_metadata (result entry) (Some ("Cached failure from " +:+ stamp))
         (Some (3 # 10)) (last_verified (result entry))
  else set_metadata (result entry) (Some ("Cached from " +:+ stamp))
         (Some (8 # 10)) (Some stamp).

(** What a call that finds no valid entry returns: a success graded 1.0
    with products and 0.9 without, or the error result. *)
Definition fresh_result (max_products : Z) (r : ProductExtractionResult)
  : Prop :=
  (success r = true
   /\ data_freshness r = Some "Real-time"
   /\ confidence_score r = Some (if nonempty (products r) then 1%Q else 9 # 10)
   /\ ((0 <= max_products)%Z ->
       (Z.of_nat (length (products r)) <= max_products)%Z))
  \/ (success r = false /\ products r = []
      /\ extraction_method r = "Extraction failed"
      /\ confidence_score r = Some 0%Q).

(** The host is the known domain or one of its subdomains. *)
Definition host_matches (host known_domain : string) : Prop :=
  host = known_domain \/ exists sub, host = sub +:+ "." +:+ known_domain.

(** What a call hands back counts its products. *)
Definition outcome_counted (o : outcome (option ProductExtractionResult)) : Prop :=
  match o with
  | Returns (Some r) => well_counted r
  | _ => True
  end.

(** What a call hands back is sound. *)
Definition outcome_sound (o : outcome (option ProductExtractionResult)) : Prop :=
  match o with
  | Returns (Some r) => result_sound r
  | _ => True
  end.

End ExtractorSpec.

(** * Properties *)

(** ** The name normaliser on the specification's examples *)

Module NormalizerExamples.
Import Evaluator.

(** C3, first example, and what the second example gives: after ["the "]
    the loop over [prefixes_to_remove] goes on and also removes
    ["classic "]. *)
Theorem normalize_examples :
  _normalize_name "Premium T-Shirt - Min. 2 (SKU-123)" = "premium t shirt"
  /\ _normalize_name "The Classic Blue Jeans (New)" = "blue jeans".
Proof. split; vm_compute; reflexivity. Qed.

(** C3 as stated fails on its second example. *)
Lemma normalize_classic_blue_jeans_counterexample :
  ~ (_normalize_name "Premium T-Shirt - Min. 2 (SKU-123)" = "premium t shirt"
     /\ _normalize_name "The Classic Blue Jeans (New)" = "classic blue jeans").
Proof. intros [_ H]. vm_compute in H. discriminate H. Qed.

(** C4 as stated fails: a second pass removes a prefix that the first pass
    uncovered. *)
Lemma normalize_not_idempotent_counterexample :
  _normalize_name "The The Shirt" = "the shirt"
  /\ _normalize_name (_normalize_name "The The Shirt") = "shirt"
  /\ ~ (forall x, _normalize_name (_normalize_name x) = _normalize_name x).
Proof.
  split; [vm_compute; reflexivity|].
  split; [vm_compute; reflexivity|].
  intros H. specialize (H "The The Shirt"). vm_compute in H. discriminate H.
Qed.

End NormalizerExamples.

(** ** A second pass of the normaliser *)

Module NormalizerProps.
Import PyStr Re Evaluator NameShape.

Ltac all_chars c :=
  destruct c as [[] [] [] [] [] [] [] []]; vm_compute; try reflexivity;
  try discriminate; try tauto.

Lemma lower_char_lowered c : lowered (lower_char c).
Proof. unfold lowered. all_chars c. Qed.

Lemma space_lowered : lowered " ".
Proof. reflexivity. Qed.

Lemma name_char_space c : is_name_char c = true -> is_space c = true -> c = " "%char.
Proof. all_chars c. Qed.

Lemma word_or_space_name_char c :
  is_word c || is_space c = true -> is_space c = false -> is_name_char c = true.
Proof. all_chars c. Qed.

Lemma name_char_not_special c :
  is_name_char c = true -> negb (is_word c || is_space c) = false.
Proof. all_chars c. Qed.

Lemma name_char_not_dollar c : is_name_char c = true -> lit "$" c = false.
Proof. all_chars c. Qed.

(** *** [strip] *)

Lemma lstrip_suffix s : exists t, s = t ++ lstrip s.
Proof.
  induction s as [|c s [t IH]]; simpl; [by exists []|].
  destruct (is_space c); [|by exists []].
  exists (c :: t). simpl. by rewrite <- IH.
Qed.

Lemma lstrip_head s : head_not_space (lstrip s).
Proof.
  induction s as [|c s IH]; simpl; [done|].
  destruct (is_space c) eqn:E; [exact IH|exact E].
Qed.

Lemma lstrip_id s : head_not_space s -> lstrip s = s.
Proof. destruct s as [|c s]; simpl; [done|]. by intros ->. Qed.

Lemma rstrip_prefix s : exists t, s = rstrip s ++ t.
Proof.
  unfold rstrip. destruct (lstrip_suffix (rev s)) as [t Ht].
  exists (rev t). rewrite <- rev_app_distr, <- Ht. by rewrite rev_involutive.
Qed.

Lemma strip_id s : lstrip s = s -> lstrip (rev s) = rev s -> strip s = s.
Proof.
  intros H1 H2. unfold strip, rstrip. rewrite H1, H2. apply rev_involutive.
Qed.

Lemma strip_trimmed s :
  lstrip (strip s) = strip s /\ lstrip (rev (strip s)) = rev (strip s).
Proof.
  split.
  - apply lstrip_id. unfold strip.
    destruct (rstrip_prefix (lstrip s)) as [t Ht].
    pose proof (lstrip_head s) as Hh. rewrite Ht in Hh.
    destruct (rstrip (lstrip s)); [done|exact Hh].
  - unfold strip, rstrip. rewrite rev_involutive.
    apply lstrip_id, lstrip_head.
Qed.

Lemma Forall_lstrip (P : ascii -> Prop) s : Forall P s -> Forall P (lstrip s).
Proof.
  intros H. destruct (lstrip_suffix s) as [t Ht]. rewrite Ht in H.
  by apply Forall_app in H as [_ H].
Qed.

Lemma Forall_strip (P : ascii -> Prop) s : Forall P s -> Forall P (strip s).
Proof.
  intros H. unfold strip.
  destruct (rstrip_prefix (lstrip s)) as [t Ht].
  apply Forall_lstrip in H. rewrite Ht in H.
  by apply Forall_app in H as [H _].
Qed.

Lemma single_spaced_app_l a b : single_spaced (a ++ b) -> single_spaced a.
Proof.
  induction a as [|c a IH]; simpl; [done|].
  intros [H1 H2]. split; [|by apply IH].
  destruct a as [|c2 a]; [done|exact H1].
Qed.

Lemma single_spaced_app_r a b : single_spaced (a ++ b) -> single_spaced b.
Proof.
  induction a as [|c a IH]; simpl; [done|]. intros [_ H]. by apply IH.
Qed.

Lemma single_spaced_strip s : single_spaced s -> single_spaced (strip s).
Proof.
  intros H. unfold strip.
  destruct (lstrip_suffix s) as [t Ht]. rewrite Ht in H.
  apply single_spaced_app_r in H.
  destruct (rstrip_prefix (lstrip s)) as [t' Ht']. rewrite Ht' in H.
  by apply single_spaced_app_l in H.
Qed.

(** *** [re.sub] *)

Lemma Forall_sub_from (P : ascii -> Prop) pat repl :
  Forall P repl ->
  forall s k, Forall P s -> Forall P (sub_from pat repl k s).
Proof.
  intros Hrepl. induction s as [|c s IH]; intros k Hs; simpl; [constructor|].
  apply Forall_cons in Hs as [Hc Hs].
  destruct k as [|k]; [|by apply IH].
  destruct (match_at pat (c :: s)) as [[|n]|].
  - constructor; [exact Hc|by apply IH].
  - apply Forall_app. split; [exact Hrepl|by apply IH].
  - constructor; [exact Hc|by apply IH].
Qed.

Lemma Forall_sub (P : ascii -> Prop) pat repl s :
  Forall P repl -> Forall P s -> Forall P (sub pat repl s).
Proof. intros Hr Hs. by apply Forall_sub_from. Qed.

(** Where the pattern is not found, [re.sub] changes nothing. *)
Lemma sub_not_found pat repl s : search pat s = false -> sub pat repl s = s.
Proof.
  unfold sub. induction s as [|c s IH]; simpl; [done|].
  destruct (match_at pat (c :: s)); [discriminate|].
  intros H. by rewrite IH.
Qed.

(** A pattern that starts with a character set is not found in a text that
    has no character of the set. *)
Lemma search_first_set p its eol s :
  Forall (fun c => p c = false) s ->
  search (Pattern (One p :: its) eol) s = false.
Proof.
  induction s as [|c s IH]; intros H; [reflexivity|].
  apply Forall_cons in H as [Hc Hs].
  cbn -[match_items]. unfold match_at. cbn. rewrite Hc. by apply IH.
Qed.

(** The pattern [[^\w\s]], replaced by a space, leaves word characters and
    white space only. *)
Lemma sub_special_chars s :
  Forall (fun c => is_word c || is_space c = true)
         (sub pat_special [" "%char] s).
Proof.
  unfold sub. induction s as [|c s IH]; simpl; [constructor|].
  unfold match_at. cbn.
  destruct (is_word c || is_space c) eqn:E; cbn.
  - constructor; [exact E|exact IH].
  - constructor; [reflexivity|exact IH].
Qed.

Lemma greedy_spaces s :
  greedy is_space (fun _ => Some 0%nat) s = Some (space_run s).
Proof.
  induction s as [|c s IH]; simpl; [reflexivity|].
  destruct (is_space c); [by rewrite IH|reflexivity].
Qed.

Lemma match_at_spaces c s :
  match_at pat_spaces (c :: s)
  = if is_space c then Some (S (space_run s)) else None.
Proof.
  unfold match_at. cbn -[greedy].
  destruct (is_space c); [|reflexivity]. by rewrite greedy_spaces.
Qed.

(** [\s+] replaced by one space: the text that comes out has word
    characters and single spaces only. *)
Lemma sub_spaces_collapse s :
  Forall (fun c => is_word c || is_space c = true) s ->
  (Forall (fun c => is_name_char c = true) (sub_from pat_spaces [" "%char] 0 s)
   /\ single_spaced (sub_from pat_spaces [" "%char] 0 s))
  /\ (Forall (fun c => is_name_char c = true)
             (sub_from pat_spaces [" "%char] (space_run s) s)
      /\ single_spaced (sub_from pat_spaces [" "%char] (space_run s) s)
      /\ head_not_space (sub_from pat_spaces [" "%char] (space_run s) s)).
Proof.
  induction s as [|c s IH]; intros H; [by repeat split|].
  apply Forall_cons in H as [Hc Hs].
  destruct (IH Hs) as [[HA1 HA2] (HB1 & HB2 & HB3)]. clear IH.
  assert (Hmain : is_space c = false ->
    Forall (fun c => is_name_char c = true)
           (c :: sub_from pat_spaces [" "%char] 0 s)
    /\ single_spaced (c :: sub_from pat_spaces [" "%char] 0 s)).
  { intros Hsp. split.
    - constructor; [by apply word_or_space_name_char|exact HA1].
    - split; [|exact HA2].
      destruct (sub_from pat_spaces [" "%char] 0 s); [done|by left]. }
  cbn [space_run]. destruct (is_space c) eqn:Hsp.
  - cbn [sub_from]. rewrite match_at_spaces, Hsp.
    split; [|by repeat split].
    cbn [app]. split.
    + constructor; [reflexivity|exact HB1].
    + split; [|exact HB2].
      destruct (sub_from pat_spaces [" "%char] (space_run s) s); [done|].
      right. exact HB3.
  - cbn [sub_from]. rewrite match_at_spaces, Hsp.
    destruct (Hmain eq_refl) as [H1 H2].
    split; [by split|]. split; [exact H1|]. split; [exact H2|exact Hsp].
Qed.

(** On such a text, [\s+] replaced by one space changes nothing. *)
Lemma sub_spaces_id s :
  Forall (fun c => is_name_char c = true) s -> single_spaced s ->
  sub pat_spaces [" "%char] s = s.
Proof.
  unfold sub. induction s as [|c s IH]; intros Hc Hs; [reflexivity|].
  apply Forall_cons in Hc as [Hc Hcs]. destruct Hs as [Hadj Hs].
  cbn [sub_from]. rewrite match_at_spaces.
  destruct (is_space c) eqn:Hsp; [|by rewrite IH].
  rewrite (name_char_space c Hc Hsp) in *.
  assert (space_run s = 0%nat) as ->.
  { destruct s as [|c2 s]; [reflexivity|]. simpl.
    destruct Hadj as [Hadj|Hadj]; [discriminate Hadj|by rewrite Hadj]. }
  cbn [app]. by rewrite IH.
Qed.

(** *** The shape of a normalised name *)

Lemma Forall_fold_sub (P : ascii -> Prop) pats s :
  Forall P s -> Forall P (fold_left (fun acc pat => sub pat [] acc) pats s).
Proof.
  revert s. induction pats as [|pat pats IH]; intros s H; simpl; [exact H|].
  apply IH. apply Forall_sub; [constructor|exact H].
Qed.

Lemma Forall_fold_prefix (P : ascii -> Prop) prefixes s :
  Forall P s -> Forall P (fold_left remove_prefix prefixes s).
Proof.
  revert s. induction prefixes as [|p ps IH]; intros s H; simpl; [exact H|].
  apply IH. unfold remove_prefix, drop_prefix.
  destruct (startswith _ _); [by apply Forall_drop|exact H].
Qed.

Lemma Forall_fold_suffix (P : ascii -> Prop) suffixes s :
  Forall P s -> Forall P (fold_left remove_suffix suffixes s).
Proof.
  revert s. induction suffixes as [|p ps IH]; intros s H; simpl; [exact H|].
  apply IH. unfold remove_suffix, drop_suffix.
  destruct (endswith _ _); [by apply Forall_take|exact H].
Qed.

(** What [_normalize_name] returns is made of lower-case word characters
    and single spaces, with no space at either end. *)
Lemma normalize_chars_shape x :
  Forall (fun c => is_name_char c = true) (normalize_chars x)
  /\ Forall lowered (normalize_chars x)
  /\ single_spaced (normalize_chars x)
  /\ lstrip (normalize_chars x) = normalize_chars x
  /\ lstrip (rev (normalize_chars x)) = rev (normalize_chars x).
Proof.
  unfold normalize_chars.
  set (z := fold_left remove_suffix _ _).
  assert (Hz : Forall lowered z).
  { subst z. apply Forall_fold_suffix, Forall_fold_prefix, Forall_fold_sub.
    do 2 (apply Forall_sub; [constructor|]). apply Forall_strip.
    unfold lower. apply Forall_map, Forall_forall. intros c _.
    apply lower_char_lowered. }
  clearbody z. cbv zeta.
  pose proof (sub_special_chars z) as Hw1.
  destruct (sub_spaces_collapse _ Hw1) as [[Hn Hs] _].
  fold (sub pat_spaces [" "%char] (sub pat_special [" "%char] z)) in Hn, Hs.
  split; [by apply Forall_strip|].
  split.
  { apply Forall_strip.
    do 2 (apply Forall_sub; [by repeat constructor|]). exact Hz. }
  split; [by apply single_spaced_strip|].
  apply strip_trimmed.
Qed.

(** *** A second pass *)

Lemma existsb_false {A} (f : A -> bool) l :
  existsb f l = false -> Forall (fun a => f a = false) l.
Proof.
  induction l as [|a l IH]; simpl; [constructor|].
  intros H. apply orb_false_iff in H as [Ha Hl]. constructor; [exact Ha|by apply IH].
Qed.

Lemma fold_sub_not_found pats s :
  Forall (fun pat => search pat s = false) pats ->
  fold_left (fun acc pat => sub pat [] acc) pats s = s.
Proof.
  induction pats as [|pat pats IH]; intros H; simpl; [reflexivity|].
  apply Forall_cons in H as [Hp Hps]. rewrite sub_not_found by exact Hp.
  by apply IH.
Qed.

Lemma fold_prefix_none prefixes s :
  Forall (fun prefix => startswith s (chars_of prefix) = false) prefixes ->
  fold_left remove_prefix prefixes s = s.
Proof.
  induction prefixes as [|p ps IH]; intros H; simpl; [reflexivity|].
  apply Forall_cons in H as [Hp Hps]. unfold remove_prefix at 2.
  rewrite Hp. by apply IH.
Qed.

Lemma startswith_Forall (P : ascii -> Prop) s p :
  startswith s p = true -> Forall P s -> Forall P p.
Proof.
  revert s. induction p as [|c p IH]; intros s H Hs; [constructor|].
  destruct s as [|d s]; [discriminate H|]. simpl in H.
  destruct (ascii_dec d c) as [->|]; [|discriminate H].
  apply Forall_cons in Hs as [Hd Hs]. constructor; [exact Hd|by eapply IH].
Qed.

Lemma Forall_forallb (f : ascii -> bool) l :
  Forall (fun c => f c = true) l -> forallb f l = true.
Proof.
  induction 1 as [|c l Hc _ IH]; simpl; [reflexivity|]. by rewrite Hc, IH.
Qed.

Lemma remove_suffix_id s suffix :
  Forall (fun c => is_name_char c = true) s ->
  forallb is_name_char (chars_of suffix) = false ->
  remove_suffix s suffix = s.
Proof.
  intros Hs Hsuf. unfold remove_suffix.
  destruct (endswith s (chars_of suffix)) eqn:E; [|reflexivity].
  exfalso. unfold endswith in E.
  apply (startswith_Forall (fun c => is_name_char c = true)) in E;
    [|by apply Forall_rev].
  apply Forall_rev in E. rewrite rev_involutive in E.
  apply Forall_forallb in E. congruence.
Qed.

Lemma normalize_chars_settled y :
  Forall (fun c => is_name_char c = true) y -> Forall lowered y ->
  single_spaced y -> lstrip y = y -> lstrip (rev y) = rev y ->
  Forall (fun prefix => startswith y (chars_of prefix) = false)
         prefixes_to_remove ->
  Forall (fun pat => search pat y = false) wholesale_patterns ->
  normalize_chars y = y.
Proof.
  intros Hname Hlow Hsingle Hl Hr Hprefix Hwhole. unfold normalize_chars.
  assert (lower y = y) as ->.
  { unfold lower. clear -Hlow. induction Hlow as [|c l Hc _ IH]; simpl;
      [reflexivity|]. by rewrite Hc, IH. }
  rewrite (strip_id y Hl Hr).
  rewrite (sub_not_found pat_price_decimal).
  2:{ apply search_first_set. eapply Forall_impl; [exact Hname|].
      intros c Hc. by apply name_char_not_dollar. }
  rewrite (sub_not_found pat_price_integer).
  2:{ apply search_first_set. eapply Forall_impl; [exact Hname|].
      intros c Hc. by apply name_char_not_dollar. }
  rewrite (fold_sub_not_found _ _ Hwhole).
  rewrite (fold_prefix_none _ _ Hprefix).
  assert (fold_left remove_suffix suffixes_to_remove y = y) as ->.
  { unfold suffixes_to_remove. cbn [fold_left].
    repeat rewrite (remove_suffix_id y) by (exact Hname || reflexivity).
    reflexivity. }
  rewrite (sub_not_found pat_special).
  2:{ apply search_first_set. eapply Forall_impl; [exact Hname|].
      intros c Hc. by apply name_char_not_special. }
  rewrite (sub_spaces_id y Hname Hsingle).
  apply strip_id; assumption.
Qed.

Lemma chars_of_str_of s : chars_of (str_of s) = s.
Proof. apply list_ascii_of_string_of_list_ascii. Qed.

Lemma normalize_name_nonempty name :
  name <> "" ->
  _normalize_name name = str_of (normalize_chars (chars_of name)).
Proof. destruct name; [done|reflexivity]. Qed.

(** C4, for the names on which a second pass has nothing left to remove:
    when the normalised name does not start with one of
    [prefixes_to_remove] and contains no match of one of
    [wholesale_patterns], normalising it again gives it back. *)
Theorem normalize_idempotent_when_settled :
  forall x,
    starts_with_removable_prefix (_normalize_name x) = false ->
    matches_wholesale_pattern (_normalize_name x) = false ->
    _normalize_name (_normalize_name x) = _normalize_name x.
Proof.
  intros x Hprefix Hwhole.
  destruct (string_dec x "") as [->|Hx]; [reflexivity|].
  rewrite (normalize_name_nonempty x Hx) in *.
  destruct (normalize_chars_shape (chars_of x))
    as (Hname & Hlow & Hsingle & Hl & Hr).
  revert Hprefix Hwhole Hname Hlow Hsingle Hl Hr.
  generalize (normalize_chars (chars_of x)). clear x Hx.
  intros y Hprefix Hwhole Hname Hlow Hsingle Hl Hr.
  unfold starts_with_removable_prefix in Hprefix.
  unfold matches_wholesale_pattern in Hwhole.
  rewrite chars_of_str_of in Hprefix, Hwhole.
  apply existsb_false in Hprefix. apply existsb_false in Hwhole.
  destruct (string_dec (str_of y) "") as [E|E]; [by rewrite E|].
  rewrite (normalize_name_nonempty _ E), chars_of_str_of.
  by rewrite (normalize_chars_settled y Hname Hlow Hsingle Hl Hr Hprefix Hwhole).
Qed.

Lemma normalize_idempotent_when_settled_witness :
  _normalize_name (_normalize_name "Premium T-Shirt - Min. 2 (SKU-123)")
  = _normalize_name "Premium T-Shirt - Min. 2 (SKU-123)".
Proof.
  apply normalize_idempotent_when_settled; vm_compute; reflexivity.
Defined.

End NormalizerProps.

(** ** Similarity and matching *)

Module Matching.
Import Evaluator.

Lemma Qlt_bool_iff x y : Qlt_bool x y = true <-> (x < y)%Q.
Proof.
  unfold Qlt_bool. rewrite negb_true_iff. split.
  - intros H. apply Qnot_le_lt. intros Hle.
    apply Qle_bool_iff in Hle. congruence.
  - intros H. destruct (Qle_bool y x) eqn:E; [|reflexivity].
    apply Qle_bool_iff in E. exfalso. exact (Qlt_not_le _ _ H E).
Qed.

(** Membership in the result of [_find_fuzzy_product_matches]. *)
Lemma elem_of_find_fuzzy (expansion_names main_names : gset string) e m :
  (e, m) ∈ _find_fuzzy_product_matches expansion_names main_names
  <-> e ∈ expansion_names /\ m ∈ main_names /\ e <> m
      /\ (8 # 10 <= _calculate_name_similarity e m)%Q.
Proof.
  unfold _find_fuzzy_product_matches.
  set (inner := fun exp_name : string => _).
  assert (Hinner : forall exp_name acc,
    (e, m) ∈ inner exp_name acc
    <-> (e, m) ∈ acc
        \/ (e = exp_name /\ m ∈ main_names /\ e <> m
            /\ (8 # 10 <= _calculate_name_similarity e m)%Q)).
  { intros exp_name acc. subst inner. cbv beta.
    apply (set_fold_ind_L
      (fun r (X : gset string) =>
         (e, m) ∈ r <-> (e, m) ∈ acc
           \/ (e = exp_name /\ m ∈ X /\ e <> m
               /\ (8 # 10 <= _calculate_name_similarity e m)%Q))).
    - set_solver.
    - intros x X r Hx IH.
      destruct (decide (exp_name = x)) as [->|Hne].
      + rewrite IH. set_solver.
      + destruct (Qle_bool (8 # 10) (_calculate_name_similarity exp_name x)) eqn:E.
        * apply Qle_bool_iff in E. rewrite elem_of_union, IH, elem_of_singleton.
          split.
          -- intros [Heq|[?|(?&?&?&?)]]; [|by left|right; set_solver].
             inversion Heq; subst. right. set_solver.
          -- intros [?|(->&Hm&?&?)]; [by right; left|].
             apply elem_of_union in Hm as [Hm|Hm].
             ++ apply elem_of_singleton in Hm as ->. by left.
             ++ right; right. done.
        * rewrite IH. split; [set_solver|].
          intros [?|(->&Hm&?&Hs)]; [by left|].
          apply elem_of_union in Hm as [Hm|Hm]; [|right; done].
          apply elem_of_singleton in Hm as ->.
          apply Qle_bool_iff in Hs. congruence. }
  apply (set_fold_ind_L
    (fun r (X : gset string) =>
       (e, m) ∈ r <-> e ∈ X /\ m ∈ main_names /\ e <> m
         /\ (8 # 10 <= _calculate_name_similarity e m)%Q)).
  - set_solver.
  - intros x X r Hx IH. rewrite Hinner, IH. set_solver.
Qed.

(** C5, with the threshold the function uses: a pair is reported as a fuzzy
    match exactly when the two names are taken from the two sets, differ, and
    have a word-overlap Jaccard similarity of at least 0.80. *)
Theorem fuzzy_matches_threshold :
  forall (expansion_names main_names : gset string) (e m : string),
    (e, m) ∈ _find_fuzzy_product_matches expansion_names main_names
    <-> e ∈ expansion_names /\ m ∈ main_names /\ e <> m
        /\ (8 # 10 <= _calculate_name_similarity e m)%Q.
Proof. intros. apply elem_of_find_fuzzy. Qed.

(** C5 as stated fails: a pair at 0.80 is reported, and counted. *)
Lemma fuzzy_matches_below_090_counterexample :
  let e := "blue wool winter sweater" in
  let m := "blue wool winter sweater large" in
  (e, m) ∈ _find_fuzzy_product_matches
             (_normalize_product_names ["Blue Wool Winter Sweater"])
             (_normalize_product_names ["Blue Wool Winter Sweater Large"])
  /\ _count_matching_products ["Blue Wool Winter Sweater Large"]
                              ["Blue Wool Winter Sweater"] = 1%nat
  /\ (_calculate_name_similarity e m == 8 # 10)%Q
  /\ ~ (9 # 10 <= _calculate_name_similarity e m)%Q.
Proof.
  cbv zeta. split; [|split; [|split]].
  - apply elem_of_find_fuzzy. split; [|split; [|split]].
    + vm_compute. set_solver.
    + vm_compute. set_solver.
    + discriminate.
    + vm_compute. discriminate.
  - vm_compute. reflexivity.
  - vm_compute. reflexivity.
  - vm_compute. intros H. apply H. reflexivity.
Qed.

(** *** The qualification search *)

Lemma similarity_empty_r name : _calculate_name_similarity name "" = 0%Q.
Proof. destruct name; reflexivity. Qed.

Lemma find_exact_Some t names e :
  find_exact t names = Some e -> e ∈ names /\ t = _normalize_name e.
Proof.
  induction names as [|x names IH]; simpl; [discriminate|].
  destruct (decide (t = _normalize_name x)) as [Heq|Hne].
  - intros [= <-]. split; [left|exact Heq].
  - intros H. destruct (IH H) as [Hin Heq]. split; [by right|exact Heq].
Qed.

Lemma find_exact_None t names :
  find_exact t names = None -> forall e, e ∈ names -> t <> _normalize_name e.
Proof.
  induction names as [|x names IH]; simpl; intros H e He.
  - inversion He.
  - destruct (decide (t = _normalize_name x)) as [Heq|Hne]; [discriminate|].
    inversion He; subst; [exact Hne|by apply IH].
Qed.

Section BestMatch.
Variable t : string.
Let sim (e : string) : Q := _calculate_name_similarity t (_normalize_name e).

Lemma best_step_inv seen best x :
  best_inv t seen best -> best_inv t (seen ++ [x]) (best_step t best x).
Proof.
  intros [Hb Hall]. unfold best_step. fold (sim x).
  destruct (Qlt_bool (snd best) (sim x) && Qle_bool (9 # 10) (sim x)) eqn:E.
  - apply andb_true_iff in E as [Hlt Hge].
    apply Qlt_bool_iff in Hlt. apply Qle_bool_iff in Hge.
    split; simpl.
    + split; [apply elem_of_app; right; left|split; [reflexivity|exact Hge]].
    + intros e He. apply elem_of_app in He as [He|He].
      * destruct (Hall e He) as [H|H]; [left|by right].
        apply Qle_trans with (snd best); [exact H|by apply Qlt_le_weak].
      * apply list_elem_of_singleton in He as ->. left. apply Qle_refl.
  - split.
    + destruct (fst best) as [b|]; [|exact Hb].
      destruct Hb as (Hin & Hs & Hge). split; [|split; assumption].
      apply elem_of_app; by left.
    + intros e He. apply elem_of_app in He as [He|He]; [by apply Hall|].
      apply list_elem_of_singleton in He as ->.
      apply andb_false_iff in E as [E|E].
      * left. apply Qnot_lt_le. intros H. apply Qlt_bool_iff in H.
        unfold sim in *. congruence.
      * right. apply Qnot_le_lt. intros H. apply Qle_bool_iff in H.
        unfold sim in *. congruence.
Qed.

Lemma fold_best_inv names seen best :
  best_inv t seen best ->
  best_inv t (seen ++ names) (fold_left (best_step t) names best).
Proof.
  revert seen best. induction names as [|x names IH]; intros seen best H; simpl.
  - by rewrite app_nil_r.
  - replace (seen ++ x :: names) with ((seen ++ [x]) ++ names)
      by (by rewrite <- app_assoc).
    apply IH. by apply best_step_inv.
Qed.

Lemma find_best_inv names : best_inv t names (find_best t names).
Proof.
  apply (fold_best_inv names [] (None, 0%Q)).
  split; simpl; [reflexivity|]. intros e He. inversion He.
Qed.

End BestMatch.


(** C2.  For every list of candidates and every target, with [sim] the
    word-overlap Jaccard score of the normalised target and a normalised
    candidate: the search reports an exact match only on a candidate whose
    normalised name equals the normalised target, and it does so as soon as
    one exists; it reports a fuzzy match only when none is equal, on a
    best-scoring candidate whose score is at least 0.90; it reports no match
    only when no candidate is equal and every score is below 0.90.  The
    targets found are those with a match.  A score of exactly 0.90 (9 of 10
    words) matches; a score of 0.89 (89 of 100 words) does not. *)
Theorem qualification_search_policy :
  (forall (expansion_product_names : list string) (target_name : string),
     let normalized_target := _normalize_name target_name in
     let sim e :=
       _calculate_name_similarity normalized_target (_normalize_name e) in
     match search_target expansion_product_names target_name with
     | ExactMatch e =>
         e ∈ expansion_product_names /\ normalized_target = _normalize_name e
     | HighSimilarityMatch s b =>
         (forall e, e ∈ expansion_product_names ->
                    normalized_target <> _normalize_name e)
         /\ b ∈ expansion_product_names /\ s = sim b /\ (9 # 10 <= s)%Q
         /\ forall e, e ∈ expansion_product_names -> (sim e <= s)%Q
     | NoMatchFound =>
         forall e, e ∈ expansion_product_names ->
                   normalized_target <> _normalize_name e /\ (sim e < 9 # 10)%Q
     end)
  /\ (forall (expansion_products target_product_names : list string),
        fst (_search_for_specific_products_on_expansion_store
               expansion_products target_product_names)
        = List.filter
            (fun t => is_found (search_target (map clean_name expansion_products) t))
            target_product_names)
  /\ (exists s,
        search_target ["p1 p2 p3 p4 p5 p6 p7 p8 p9 p10"] "p1 p2 p3 p4 p5 p6 p7 p8 p9"
        = HighSimilarityMatch s "p1 p2 p3 p4 p5 p6 p7 p8 p9 p10"
        /\ (s == 9 # 10)%Q)
  /\ (_calculate_name_similarity (_normalize_name names_89)
                                 (_normalize_name names_100) == 89 # 100)%Q
  /\ search_target [names_100] names_89 = NoMatchFound.
Proof.
  split; [|split; [|split; [|split]]].
  - intros names target nt sim. unfold search_target. fold nt.
    destruct (find_exact nt names) as [e|] eqn:Hex.
    + by apply find_exact_Some.
    + pose proof (find_exact_None _ _ Hex) as Hne.
      pose proof (find_best_inv nt names) as [Hb Hall].
      destruct (find_best nt names) as [[b|] s]; simpl in *.
      * destruct Hb as (Hin & Hs & Hge).
        assert (Hmax : forall e, e ∈ names -> (sim e <= s)%Q).
        { intros e He. destruct (Hall e He) as [H|H]; [exact H|].
          apply Qlt_le_weak. by apply Qlt_le_trans with (9 # 10)%Q. }
        destruct b as [|c b]; simpl.
        -- exfalso. subst s. unfold _normalize_name in Hge.
           rewrite similarity_empty_r in Hge. vm_compute in Hge. by apply Hge.
        -- split; [exact Hne|]. split; [exact Hin|]. split; [exact Hs|].
           split; [exact Hge|exact Hmax].
      * intros e He. split; [by apply Hne|].
        destruct (Hall e He) as [H|H]; [|exact H]. subst s.
        apply Qle_lt_trans with 0%Q; [exact H|reflexivity].
  - intros expansion_products targets.
    unfold _search_for_specific_products_on_expansion_store.
    set (names := map clean_name expansion_products).
    assert (Hfold : forall ts found log,
      fst (fold_left
             (fun '(found_products, log) target_name =>
                let v := search_target names target_name in
                (if is_found v then found_products ++ [target_name]
                 else found_products, log ++ [(target_name, v)]))
             ts (found, log))
      = found ++ List.filter (fun t => is_found (search_target names t)) ts).
    { induction ts as [|x ts IH]; intros found log; simpl.
      - by rewrite app_nil_r.
      - rewrite IH. destruct (is_found (search_target names x)) eqn:E.
        + by rewrite <- app_assoc.
        + done. }
    specialize (Hfold targets [] []). subst names.
    destruct expansion_products as [|p ps]; [|exact Hfold].
    clear Hfold. cbn [fst map].
    induction targets as [|x ts IH]; [reflexivity|]. exact IH.
  - eexists. split; [vm_compute; reflexivity|reflexivity].
  - vm_compute. reflexivity.
  - vm_compute. reflexivity.
Qed.

End Matching.

(** ** The result cache, the knowledge base and the extraction pipeline *)

Module ExtractorProps.
Import Extractor.

Ltac run_monad :=
  unfold bind, ret, raise, try_except, get_self, set_cache, set_knowledge,
    request, no_attribute in *; cbn beta iota in *.

Section WithLibraries.

Variable md5_hexdigest : string -> string.
Variable netloc : string -> string.
Variable strftime : Z -> string.
Variable isoformat : Z -> string.
Variable static_knowledge_base :
  string -> list (string * (list Product * string)).

Notation _get_from_cache := (_get_from_cache md5_hexdigest).
Notation _store_in_cache := (_store_in_cache md5_hexdigest).
Notation _get_cache_key := (_get_cache_key md5_hexdigest).
Notation domain_of := (domain_of netloc).
Notation _extract_via_static_knowledge_base :=
  (_extract_via_static_knowledge_base netloc static_knowledge_base).
Notation discovery_body := (discovery_body netloc isoformat).
Notation discover_and_learn_products :=
  (discover_and_learn_products netloc isoformat static_knowledge_base).
Notation extract_products_from_store_with :=
  (extract_products_from_store_with md5_hexdigest netloc strftime
     static_knowledge_base).
Notation extract_products_from_store :=
  (extract_products_from_store md5_hexdigest netloc strftime isoformat
     static_knowledge_base).
Notation _handle_blocked_site_learning :=
  (_handle_blocked_site_learning netloc isoformat static_knowledge_base).

Lemma is_cache_valid_iff now entry :
  _is_cache_valid now entry = true
  <-> (now - timestamp entry < ttl_microseconds entry)%Z.
Proof.
  unfold _is_cache_valid, ttl_microseconds, total_seconds,
    failure_cache_ttl_hours, cache_ttl_hours.
  destruct (is_failure entry); rewrite Matching.Qlt_bool_iff;
    unfold Qlt; simpl; lia.
Qed.

Lemma get_from_cache_miss self now url :
  cache self !! _get_cache_key url = None ->
  _get_from_cache now url self = (Returns None, self).
Proof.
  intros H. unfold Extractor._get_from_cache. run_monad. by rewrite H.
Qed.

(** C7.  An entry is valid exactly while its age is strictly below its time to
    live: under 2 hours for a failure, under 24 hours for a success, the
    bound itself excluded.  Looking up a url whose entry is no longer valid
    deletes the entry and answers as for a miss, and so does every later
    lookup; a valid entry is returned and the cache is left as it is. *)
Theorem cache_validity_ttl :
  (forall now entry,
     _is_cache_valid now entry = true
     <-> (now - timestamp entry
          < (if is_failure entry then 2 else 24) * 3600 * 1000000)%Z)
  /\ (forall self now url entry,
        cache self !! _get_cache_key url = Some entry ->
        _is_cache_valid now entry = false ->
        exists self',
          _get_from_cache now url self = (Returns None, self')
          /\ cache self' = delete (_get_cache_key url) (cache self)
          /\ cache self' !! _get_cache_key url = None
          /\ forall later, _get_from_cache later url self' = (Returns None, self'))
  /\ (forall self now url entry,
        cache self !! _get_cache_key url = Some entry ->
        _is_cache_valid now entry = true ->
        _get_from_cache now url self = (Returns (Some entry), self)).
Proof.
  split; [|split].
  - intros now entry. rewrite is_cache_valid_iff. unfold ttl_microseconds.
    destruct (is_failure entry); lia.
  - intros self now url entry Hlook Hinv.
    unfold Extractor._get_from_cache at 1. run_monad. rewrite Hlook, Hinv.
    eexists. split; [reflexivity|]. simpl.
    split; [reflexivity|]. split; [apply lookup_delete_eq|].
    intros later. apply get_from_cache_miss. simpl. apply lookup_delete_eq.
  - intros self now url entry Hlook Hval.
    unfold Extractor._get_from_cache. run_monad. by rewrite Hlook, Hval.
Qed.

(** C6.  When the domain has an entry in the dynamic knowledge base,
    [discover_and_learn_products] returns at once: a successful result whose
    products are the stored list cut to [max_products], whatever the clock
    reads and whatever the strategies would answer, and the extractor is left
    as it was, with no request made. *)
Theorem dynamic_knowledge_short_circuit :
  forall self w store_url max_products kb_data,
    dynamic_knowledge_base self !! domain_of store_url = Some kb_data ->
    exists r,
      discover_and_learn_products w store_url max_products self = (Returns r, self)
      /\ success r = true
      /\ products r = slice_to max_products (kb_products kb_data)
      /\ ((0 <= max_products)%Z ->
          products r = firstn (Z.to_nat max_products) (kb_products kb_data))
      /\ total_found r = length (products r)
      /\ forall w',
           discover_and_learn_products w' store_url max_products self
           = (Returns r, self).
Proof.
  intros self w store_url max_products kb_data Hkb.
  unfold Extractor.discover_and_learn_products. run_monad. rewrite Hkb.
  eexists. split; [reflexivity|]. simpl.
  split; [reflexivity|]. split; [reflexivity|].
  split; [|split; [reflexivity|reflexivity]].
  intros Hmax. unfold slice_to.
  destruct (0 <=? max_products)%Z eqn:E; [reflexivity|]. lia.
Qed.

(** Whatever the [try] block of [discover_and_learn_products] raises, the
    method raises [AttributeError] from its handler. *)
Lemma discover_raises self w store_url max_products e self1 :
  dynamic_knowledge_base self !! domain_of store_url = None ->
  discovery_body w store_url max_products self = (Raises e, self1) ->
  discover_and_learn_products w store_url max_products self
  = (Raises "'ProductExtractor' object has no attribute '_is_blocking_error'",
     self1).
Proof.
  intros Hkb Hbody. unfold Extractor.discover_and_learn_products.
  run_monad. rewrite Hkb, Hbody. reflexivity.
Qed.

Lemma triple_ret {A} I (a : A) (Q : A -> Prop) : Q a -> triple I (ret a) Q.
Proof. intros H self HI. by split. Qed.

Lemma triple_raise {A} I e (Q : A -> Prop) : triple I (raise e) Q.
Proof. intros self HI. by split. Qed.

Lemma triple_bind {A B} I (m : M A) (f : A -> M B) QA (QB : B -> Prop) :
  triple I m QA -> (forall a, QA a -> triple I (f a) QB) ->
  triple I (bind m f) QB.
Proof.
  intros Hm Hf self HI. unfold bind. destruct (Hm self HI) as [HI' Ha].
  destruct (m self) as [[a|e] self']; simpl in *; [|by split].
  by apply Hf.
Qed.

Lemma triple_try_except {A} I (body : M A) handler (Q : A -> Prop) :
  triple I body Q -> (forall e, triple I (handler e) Q) ->
  triple I (try_except body handler) Q.
Proof.
  intros Hb Hh self HI. unfold try_except. destruct (Hb self HI) as [HI' Ha].
  destruct (body self) as [[a|e] self']; simpl in *; [by split|].
  by apply Hh.
Qed.

Lemma triple_weaken {A} I (m : M A) (Q Q' : A -> Prop) :
  triple I m Q -> (forall a, Q a -> Q' a) -> triple I m Q'.
Proof.
  intros Hm Himp self HI. destruct (Hm self HI) as [HI' Ha]. split; [done|].
  destruct (fst (m self)); [by apply Himp|done].
Qed.

Lemma triple_get_self I : triple I get_self I.
Proof. intros self HI. by split. Qed.

Lemma triple_request {A} P what (o : outcome A) :
  triple (on_cache P) (request what o) (fun _ => True).
Proof. intros self HI. split; [exact HI|]. simpl. by destruct o. Qed.

Lemma triple_set_knowledge P kb :
  triple (on_cache P) (set_knowledge kb) (fun _ => True).
Proof. intros self HI. by split. Qed.

Lemma triple_set_cache P c :
  P c -> triple (on_cache P) (set_cache c) (fun _ => True).
Proof. intros Hc self HI. by split. Qed.

Ltac triple_step :=
  lazymatch goal with
  | |- triple _ (ret _) _ => apply triple_ret
  | |- triple _ (raise _) _ => apply triple_raise
  | |- triple _ (request _ _) _ => apply triple_request
  | |- triple _ (set_knowledge _) _ => apply triple_set_knowledge
  | |- triple _ get_self _ => apply triple_get_self
  | |- triple _ (bind (request _ _) _) _ =>
      eapply triple_bind; [apply triple_request | intros ? _]
  | |- triple _ (bind (set_knowledge _) _) _ =>
      eapply triple_bind; [apply triple_set_knowledge | intros ? _]
  | |- triple _ (bind get_self _) _ =>
      eapply triple_bind; [apply triple_get_self | intros ? ?]
  | |- triple _ (match ?x with _ => _ end) _ => destruct x eqn:?
  end.

Lemma triple_add_to_knowledge P now store_url products platform method :
  triple (on_cache P)
    (_add_to_dynamic_knowledge_base netloc isoformat now store_url products
       platform method)
    (fun _ => True).
Proof.
  unfold _add_to_dynamic_knowledge_base. repeat triple_step; done.
Qed.

Lemma triple_discovery_method P max_products acc label strategy :
  triple (on_cache P) (strategy (max_products - Z.of_nat (length (fst acc)))%Z)
         (fun _ => True) ->
  triple (on_cache P) (discovery_method max_products acc label strategy)
         (fun _ => True).
Proof.
  intros Hs. unfold discovery_method. destruct acc as [d ms]. simpl in Hs.
  destruct (_ <? _)%Z; [|by apply triple_ret].
  eapply triple_bind; [exact Hs|]. intros found _.
  destruct (nonempty found); by apply triple_ret.
Qed.

(** Every result of the [try] block is a success. *)
Lemma triple_discovery_body P w store_url max_products :
  triple (on_cache P) (discovery_body w store_url max_products)
         (fun r => success r = true).
Proof.
  unfold Extractor.discovery_body.
  eapply triple_bind; [apply triple_request|]. intros platform _.
  eapply triple_bind with (QA := fun _ => True).
  { repeat triple_step; done. }
  intros acc1 _.
  eapply triple_bind; [apply triple_discovery_method|].
  { repeat triple_step; done. }
  intros acc2 _.
  eapply triple_bind; [apply triple_discovery_method; apply triple_request|].
  intros acc3 _.
  eapply triple_bind; [apply triple_discovery_method; apply triple_request|].
  intros [discovered methods] _.
  destruct (nonempty _); [|by apply triple_ret].
  eapply triple_bind; [apply triple_add_to_knowledge|]. intros _ _.
  by apply triple_ret.
Qed.

(** Every result that [discover_and_learn_products] returns is a success:
    its handler, which holds the only other results, never returns. *)
Lemma triple_discover P w store_url max_products :
  triple (on_cache P) (discover_and_learn_products w store_url max_products)
         (fun r => success r = true).
Proof.
  unfold Extractor.discover_and_learn_products.
  eapply triple_bind; [apply triple_get_self|]. intros self _.
  destruct (_ !! _); [by apply triple_ret|].
  apply triple_try_except; [apply triple_discovery_body|].
  intros e. unfold no_attribute.
  eapply triple_bind with (QA := fun _ => False); [apply triple_raise|].
  intros blocking [].
Qed.

(** *** The invariant of the result type *)

Lemma result_ok_set_metadata r f c v :
  result_ok r -> result_ok (set_metadata r f c v).
Proof. intros H. exact H. Qed.

Lemma cache_ok_insert c key entry :
  cache_ok c -> result_ok (result entry) -> cache_ok (<[key := entry]> c).
Proof.
  intros Hc He k e. rewrite lookup_insert.
  case_decide; [intros [= <-]; exact He|apply Hc].
Qed.

Lemma cache_ok_delete c key : cache_ok c -> cache_ok (delete key c).
Proof.
  intros Hc k e. rewrite lookup_delete.
  case_decide; [discriminate|apply Hc].
Qed.

Lemma triple_store_in_cache now url r f reason :
  result_ok r ->
  triple (on_cache cache_ok) (_store_in_cache now url r f reason) (fun _ => True).
Proof.
  intros Hr. unfold Extractor._store_in_cache.
  eapply triple_bind; [apply triple_get_self|]. intros self Hself.
  apply triple_set_cache. by apply cache_ok_insert.
Qed.

Lemma triple_get_from_cache now url :
  triple (on_cache cache_ok) (_get_from_cache now url)
         (fun o => forall entry, o = Some entry -> result_ok (result entry)).
Proof.
  unfold Extractor._get_from_cache.
  eapply triple_bind; [apply triple_get_self|]. intros self Hself.
  destruct (cache self !! _) as [entry|] eqn:Hlook.
  - destruct (_is_cache_valid now entry).
    + apply triple_ret. intros e [= <-]. exact (Hself _ _ Hlook).
    + eapply triple_bind; [apply triple_set_cache; by apply cache_ok_delete|].
      intros _ _. apply triple_ret. discriminate.
  - apply triple_ret. discriminate.
Qed.

Lemma triple_update_cached_result url entry r :
  result_ok r ->
  triple (on_cache cache_ok)
         (update_cached_result md5_hexdigest url entry r) (fun _ => True).
Proof.
  intros Hr. unfold update_cached_result.
  eapply triple_bind; [apply triple_get_self|]. intros self Hself.
  apply triple_set_cache. by apply cache_ok_insert.
Qed.

Lemma static_result_success store_url max_products r :
  _extract_via_static_knowledge_base store_url max_products = Some r ->
  success r = true.
Proof.
  unfold Extractor._extract_via_static_knowledge_base.
  destruct (List.find _ _) as [[known [ps platform]]|]; [|discriminate].
  by intros [= <-].
Qed.

Lemma triple_step4 w store_url :
  triple (on_cache cache_ok)
         (extraction_step4 md5_hexdigest strftime w store_url)
         (fun r => success r = true /\ products r = []).
Proof.
  unfold extraction_step4.
  eapply triple_bind; [apply triple_store_in_cache; by intros _|].
  intros _ _. by apply triple_ret.
Qed.

Lemma triple_step3 w store_url max_products :
  triple (on_cache cache_ok)
         (extraction_step3 md5_hexdigest netloc strftime static_knowledge_base
            w store_url max_products)
         (fun r => success r = true).
Proof.
  unfold extraction_step3.
  destruct (_extract_via_static_knowledge_base _ _) as [r|] eqn:Hs.
  - pose proof (static_result_success _ _ _ Hs) as Hok. rewrite Hok.
    eapply triple_bind;
      [apply triple_store_in_cache; intros H; simpl in H; congruence|].
    intros _ _. by apply triple_ret.
  - eapply triple_weaken; [apply triple_step4|]. by intros r [? _].
Qed.

Lemma triple_step2 w store_url max_products :
  triple (on_cache cache_ok)
         (extraction_step2 md5_hexdigest netloc strftime static_knowledge_base
            w store_url max_products)
         (fun r => success r = true).
Proof.
  unfold extraction_step2, Extractor._try_simplified_search.
  eapply triple_bind with (QA := fun o => forall r, o = Some r -> success r = true).
  { eapply triple_bind; [apply triple_request|]. intros found _.
    destruct (nonempty found); apply triple_ret; [|discriminate].
    by intros r [= <-]. }
  intros [r|] Hr; [|apply triple_step3].
  specialize (Hr r eq_refl). rewrite Hr. simpl.
  destruct (nonempty (products r)); [|apply triple_step3].
  eapply triple_bind;
    [apply triple_store_in_cache; intros H; simpl in H; congruence|].
  intros _ _. by apply triple_ret.
Qed.

(** Whatever method [discover_and_learn_products] resolves to,
    [extract_products_from_store] keeps the cache well formed and returns a
    well-formed result. *)
Lemma triple_extract_with discover w store_url max_products :
  (forall w u n, triple (on_cache cache_ok) (discover w u n) (fun _ => True)) ->
  triple (on_cache cache_ok)
         (extract_products_from_store_with discover w store_url max_products)
         result_ok.
Proof.
  intros Hd. unfold Extractor.extract_products_from_store_with.
  apply triple_try_except.
  - eapply triple_bind; [apply triple_get_from_cache|].
    intros [entry|] Hentry.
    + specialize (Hentry entry eq_refl).
      destruct (is_failure entry);
        (eapply triple_bind;
           [apply triple_update_cached_result; by apply result_ok_set_metadata|]);
        intros _ _; apply triple_ret; by apply result_ok_set_metadata.
    + eapply triple_bind; [apply Hd|]. intros r _.
      destruct (success r) eqn:Hs; simpl.
      * destruct (nonempty (products r)); simpl;
          (eapply triple_bind;
             [apply triple_store_in_cache; intros H; simpl in H; congruence|]);
          intros _ _; apply triple_ret; intros H; simpl in H; congruence.
      * eapply triple_weaken; [apply triple_step2|].
        intros r' Hr' H. congruence.
  - intros e.
    eapply triple_bind; [apply triple_store_in_cache; by intros _|].
    intros _ _. apply triple_ret. by intros _.
Qed.

(** C1.  When the lookup in the cache misses, the domain is not in the
    dynamic knowledge base and the discovery raises an exception that is not a
    blocking error, [extract_products_from_store] returns (it does not raise)
    the error result: [success=false], no products, method
    ["Extraction failed"]; the result is cached as a failure and differs from
    every successful result, the one of a service site included. *)
Theorem nonblocking_exception_is_hard_failure :
  forall self w store_url max_products self0 e self1,
    _get_from_cache (now_cache_check w) store_url self = (Returns None, self0) ->
    dynamic_knowledge_base self0 !! domain_of store_url = None ->
    discovery_body w store_url max_products self0 = (Raises e, self1) ->
    _is_blocking_error e = false ->
    exists r self',
      extract_products_from_store w store_url max_products self = (Returns r, self')
      /\ success r = false /\ products r = []
      /\ extraction_method r = "Extraction failed"
      /\ (exists entry,
            cache self' !! _get_cache_key store_url = Some entry
            /\ result entry = r /\ is_failure entry = true)
      /\ forall service, success service = true -> r <> service.
Proof.
  intros self w store_url max_products self0 e self1 Hmiss Hkb Hbody _.
  pose proof (discover_raises _ _ _ _ _ _ Hkb Hbody) as Hd.
  unfold Extractor.extract_products_from_store,
    Extractor.extract_products_from_store_with.
  unfold try_except at 1. unfold bind at 1. rewrite Hmiss.
  unfold bind at 1. rewrite Hd.
  unfold Extractor._store_in_cache. run_monad. simpl.
  eexists _, _. split; [reflexivity|]. simpl.
  split; [reflexivity|]. split; [reflexivity|]. split; [reflexivity|].
  split.
  - eexists. split; [apply lookup_insert_eq|]. by split.
  - intros service Hs Heq. subst service. discriminate Hs.
Qed.

(** C10.  When the lookup in the cache misses and the discovery completes
    without an exception but finds no product, [extract_products_from_store]
    returns the result of the discovery, a success without products graded
    0.9, and makes no further request: the simplified search, the static
    knowledge base and step 4 are not run.  The entry stored for the url
    says [is_failure=false] with no failure reason, so it is valid for
    strictly less than 24 hours. *)
Theorem no_products_cached_for_a_day :
  forall self w store_url max_products self0 learning_result self1,
    _get_from_cache (now_cache_check w) store_url self = (Returns None, self0) ->
    discover_and_learn_products w store_url max_products self0
    = (Returns learning_result, self1) ->
    products learning_result = [] ->
    exists r self' entry,
      extract_products_from_store w store_url max_products self
      = (Returns r, self')
      /\ success r = true /\ products r = []
      /\ extraction_method r = extraction_method learning_result
      /\ data_freshness r = Some "Real-time"
      /\ confidence_score r = Some (9 # 10)
      /\ requests self' = requests self1
      /\ cache self' !! _get_cache_key store_url = Some entry
      /\ result entry = r
      /\ is_failure entry = false
      /\ failure_reason entry = None
      /\ timestamp entry = now_store w
      /\ forall now,
           _is_cache_valid now entry = true
           <-> (now - now_store w < 24 * 3600 * 1000000)%Z.
Proof.
  intros self w store_url max_products self0 lr self1 Hmiss Hd Hnone.
  assert (Hs : success lr = true).
  { pose proof (triple_discover (fun _ => True) w store_url max_products self0 I)
      as [_ H]. by rewrite Hd in H. }
  unfold Extractor.extract_products_from_store,
    Extractor.extract_products_from_store_with.
  unfold try_except at 1. unfold bind at 1. rewrite Hmiss.
  unfold bind at 1. rewrite Hd. rewrite Hs, Hnone. cbn [andb nonempty negb].
  unfold Extractor._store_in_cache. run_monad. simpl.
  eexists _, _, _. split; [reflexivity|]. simpl.
  split; [exact Hs|]. split; [exact Hnone|].
  split; [reflexivity|]. split; [reflexivity|]. split; [reflexivity|].
  split; [reflexivity|].
  split; [apply lookup_insert_eq|]. simpl.
  split; [reflexivity|]. split; [reflexivity|]. split; [reflexivity|].
  split; [reflexivity|].
  intros now. rewrite is_cache_valid_iff. unfold ttl_microseconds. simpl. lia.
Qed.

(** With the class's own [discover_and_learn_products], step 1 always
    stores and returns: steps 2 to 4 are not reached. *)
Lemma extract_after_discovery self w store_url max_products self0 r self1 :
  _get_from_cache (now_cache_check w) store_url self = (Returns None, self0) ->
  discover_and_learn_products w store_url max_products self0 = (Returns r, self1) ->
  exists self',
    extract_products_from_store w store_url max_products self
    = (Returns (set_metadata r (Some "Real-time")
                  (Some (if nonempty (products r) then 1%Q else (9 # 10)%Q))
                  (Some (strftime (now_verified w)))), self')
    /\ exists entry, cache self' !! _get_cache_key store_url = Some entry
                     /\ is_failure entry = false.
Proof.
  intros Hmiss Hd.
  assert (Hs : success r = true).
  { pose proof (triple_discover (fun _ => True) w store_url max_products self0 I)
      as [_ H]. by rewrite Hd in H. }
  unfold Extractor.extract_products_from_store,
    Extractor.extract_products_from_store_with.
  unfold try_except at 1. unfold bind at 1. rewrite Hmiss.
  unfold bind at 1. rewrite Hd. rewrite Hs. cbn [andb].
  unfold Extractor._store_in_cache. run_monad.
  destruct (nonempty (products r)); simpl.
  - eexists. split; [reflexivity|]. eexists. split; [apply lookup_insert_eq|done].
  - eexists. split; [reflexivity|]. eexists. split; [apply lookup_insert_eq|done].
Qed.

(** *** Every result handed back *)

Notation perform :=
  (perform md5_hexdigest netloc strftime isoformat static_knowledge_base).
Notation run :=
  (run md5_hexdigest netloc strftime isoformat static_knowledge_base).

Lemma triple_generate w store_url max_products :
  triple (on_cache cache_ok)
         (generate_comprehensive_product_database w store_url max_products)
         result_ok.
Proof.
  unfold generate_comprehensive_product_database.
  apply triple_try_except.
  - eapply triple_bind; [apply triple_request|]. intros [[final ms] platform] _.
    destruct (nonempty final); apply triple_ret; [|by intros _].
    intros H. discriminate H.
  - intros e. apply triple_ret. by intros _.
Qed.

Lemma triple_perform c :
  triple (on_cache cache_ok) (perform c)
         (fun o => match o with Some r => result_ok r | None => True end).
Proof.
  destruct c as [w u n|w u n|w u n|w u n|u n]; unfold Extractor.perform.
  - eapply triple_bind; [|intros r Hr; apply triple_ret; exact Hr].
    apply triple_extract_with. intros w' u' n'.
    eapply triple_weaken; [apply triple_discover|done].
  - eapply triple_bind; [apply triple_discover|].
    intros r Hr. apply triple_ret. intros H. congruence.
  - eapply triple_bind; [apply triple_generate|].
    intros r Hr. by apply triple_ret.
  - unfold Extractor._try_simplified_search.
    eapply triple_bind; [apply triple_request|]. intros found _.
    destruct (nonempty found); apply triple_ret; [|done].
    intros H. discriminate H.
  - apply triple_ret.
    destruct (_extract_via_static_knowledge_base u n) as [r|] eqn:E; [|done].
    intros H. pose proof (static_result_success _ _ _ E). congruence.
Qed.

Lemma run_ok calls : forall self,
  cache_ok (cache self) -> Forall outcome_ok (fst (run self calls)).
Proof.
  induction calls as [|c calls IH]; intros self Hself; simpl; [constructor|].
  destruct (triple_perform c self Hself) as [Hcache Hres].
  destruct (perform c self) as [o self1]. simpl in *.
  specialize (IH self1 Hcache).
  destruct (run self1 calls) as [os self2]. simpl in *.
  constructor; [|exact IH].
  destruct o as [[r|]|e]; simpl; done.
Qed.

(** The blocked-site handler too hands back a well-formed result. *)
Lemma triple_handle_blocked w store_url max_products :
  triple (on_cache cache_ok)
         (_handle_blocked_site_learning w store_url max_products) result_ok.
Proof.
  assert (Hinf : forall domain,
    triple (on_cache cache_ok)
      (blocked_site_inference netloc isoformat w store_url domain) result_ok).
  { intros domain. unfold blocked_site_inference, no_attribute.
    eapply triple_bind with (QA := fun _ => False); [apply triple_raise|].
    intros inferred_products []. }
  unfold Extractor._handle_blocked_site_learning.
  destruct (_extract_via_static_knowledge_base _ _) as [r|] eqn:E; [|apply Hinf].
  destruct (nonempty (products r)); [|apply Hinf].
  apply triple_ret. intros H.
  pose proof (static_result_success _ _ _ E). congruence.
Qed.

(** C8.  On an instance fresh from [__init__], whatever calls a client makes
    and whatever the world answers, every result handed back by
    [extract_products_from_store], [discover_and_learn_products],
    [generate_comprehensive_product_database], [_try_simplified_search] and
    [_extract_via_static_knowledge_base] with [success=false] has no
    products; so has every result of the blocked-site handler.  A result with
    [success=false] is never equal to one with [success=true]. *)
Theorem failure_has_no_products :
  (forall loaded calls,
     Forall outcome_ok (fst (run (init loaded) calls)))
  /\ (forall self w store_url max_products,
        cache_ok (cache self) ->
        match fst (_handle_blocked_site_learning w store_url max_products self) with
        | Returns r => result_ok r
        | Raises _ => True
        end)
  /\ (forall hard service : ProductExtractionResult,
        success hard = false -> success service = true -> hard <> service).
Proof.
  split; [|split].
  - intros loaded calls. apply run_ok. intros key entry H.
    simpl in H. by rewrite lookup_empty in H.
  - intros self w store_url max_products Hself.
    by destruct (triple_handle_blocked w store_url max_products self Hself).
  - intros hard service Hh Hs ->. congruence.
Qed.

(** *** The blocked-site handler *)




End WithLibraries.
(** *** The theorems at work on the sample store *)

Lemma dynamic_knowledge_short_circuit_witness :
  exists r,
    discover_and_learn_products Sample.netloc Sample.isoformat
      Sample.static_knowledge_base (Sample.world (Raises "connection reset"))
      Sample.store_url 1 Sample.taught
    = (Returns r, Sample.taught)
    /\ products r = [Sample.sweater].
Proof.
  destruct (dynamic_knowledge_short_circuit Sample.netloc Sample.isoformat
              Sample.static_knowledge_base Sample.taught
              (Sample.world (Raises "connection reset")) Sample.store_url 1
              Sample.learned)
    as (r & Hrun & _ & Hprod & _).
  - vm_compute. reflexivity.
  - exists r. split; [exact Hrun|]. rewrite Hprod. reflexivity.
Defined.

Lemma nonblocking_exception_is_hard_failure_witness :
  exists r self',
    extract_products_from_store Sample.md5_hexdigest Sample.netloc
      Sample.strftime Sample.isoformat Sample.static_knowledge_base
      (Sample.world (Raises "connection reset")) Sample.store_url 20 Sample.fresh
    = (Returns r, self')
    /\ success r = false /\ products r = [].
Proof.
  destruct (nonblocking_exception_is_hard_failure Sample.md5_hexdigest
              Sample.netloc Sample.strftime Sample.isoformat
              Sample.static_knowledge_base Sample.fresh
              (Sample.world (Raises "connection reset")) Sample.store_url 20
              Sample.fresh "connection reset"
              {| cache := ∅; dynamic_knowledge_base := ∅;
                 requests := ["_detect_platform"] |})
    as (r & self' & Hrun & Hs & Hp & _).
  - vm_compute. reflexivity.
  - vm_compute. reflexivity.
  - vm_compute. reflexivity.
  - vm_compute. reflexivity.
  - exists r, self'. split; [exact Hrun|]. split; [exact Hs|exact Hp].
Defined.

Lemma no_products_cached_for_a_day_witness :
  exists r self' entry,
    extract_products_from_store Sample.md5_hexdigest Sample.netloc
      Sample.strftime Sample.isoformat Sample.static_knowledge_base
      (Sample.world (Returns None)) Sample.store_url 20 Sample.fresh
    = (Returns r, self')
    /\ success r = true /\ products r = []
    /\ cache self' !! Sample.store_url = Some entry
    /\ is_failure entry = false
    /\ _is_cache_valid (5 + 24 * 3600 * 1000000 - 1) entry = true
    /\ _is_cache_valid (5 + 24 * 3600 * 1000000) entry = false.
Proof.
  assert (exists learning_result self1,
    discover_and_learn_products Sample.netloc Sample.isoformat
      Sample.static_knowledge_base (Sample.world (Returns None))
      Sample.store_url 20 Sample.fresh
    = (Returns learning_result, self1)
    /\ products learning_result = []) as (lr & self1 & Hd & Hnone).
  { eexists _, _. split; [vm_compute; reflexivity|reflexivity]. }
  destruct (no_products_cached_for_a_day Sample.md5_hexdigest Sample.netloc
              Sample.strftime Sample.isoformat Sample.static_knowledge_base
              Sample.fresh (Sample.world (Returns None)) Sample.store_url 20
              Sample.fresh lr self1)
    as (r & self' & entry & Hrun & Hs & Hp & _ & _ & _ & _ & Hc & _ & Hf & _ & _
        & Hv).
  - vm_compute. reflexivity.
  - exact Hd.
  - exact Hnone.
  - exists r, self', entry. split; [exact Hrun|].
    split; [exact Hs|]. split; [exact Hp|]. split; [exact Hc|].
    split; [exact Hf|]. split.
    + apply Hv. simpl. lia.
    + destruct (_is_cache_valid _ entry) eqn:E; [|reflexivity].
      apply Hv in E. simpl in E. lia.
Defined.

(** C10 as stated fails: on a store where every strategy answers without an
    exception and finds nothing, where the simplified search and the static
    knowledge base would find nothing either, the result is a success without
    products, but its entry is not flagged as a failure, has no failure
    reason, and is still valid 2 hours after it was stored. *)
Lemma no_products_cached_as_failure_counterexample :
  simplified_found_products (Sample.world (Returns None)) Sample.store_url 20 = []
  /\ _extract_via_static_knowledge_base Sample.netloc
       Sample.static_knowledge_base Sample.store_url 20 = None
  /\ (exists r self' entry,
        extract_products_from_store Sample.md5_hexdigest Sample.netloc
          Sample.strftime Sample.isoformat Sample.static_knowledge_base
          (Sample.world (Returns None)) Sample.store_url 20 Sample.fresh
        = (Returns r, self')
        /\ success r = true /\ products r = []
        /\ cache self' !! Sample.store_url = Some entry
        /\ is_failure entry = false
        /\ failure_reason entry = None
        /\ _is_cache_valid (5 + 2 * 3600 * 1000000) entry = true)
  /\ ~ (forall self w store_url max_products r self',
          cache self !! store_url = None ->
          simplified_found_products w store_url max_products = [] ->
          _extract_via_static_knowledge_base Sample.netloc
            Sample.static_knowledge_base store_url max_products = None ->
          extract_products_from_store Sample.md5_hexdigest Sample.netloc
            Sample.strftime Sample.isoformat Sample.static_knowledge_base
            w store_url max_products self
          = (Returns r, self') ->
          success r = true -> products r = [] ->
          exists entry,
            cache self' !! store_url = Some entry
            /\ is_failure entry = true
            /\ failure_reason entry = Some "No products found").
Proof.
  split; [reflexivity|]. split; [reflexivity|]. split.
  - eexists _, _, _. split; [vm_compute; reflexivity|]. by repeat split.
  - intros H.
    destruct (H Sample.fresh (Sample.world (Returns None)) Sample.store_url 20%Z
                _ _ eq_refl eq_refl eq_refl eq_refl eq_refl eq_refl)
      as (entry & Hl & Hf & _).
    vm_compute in Hl. injection Hl as <-. discriminate Hf.
Qed.


End ExtractorProps.

(** * Further properties *)

(** ** Strings *)

Module StringFacts.
Import PyStr.

Lemma chars_of_app (s1 s2 : string) :
  chars_of (s1 +:+ s2) = chars_of s1 ++ chars_of s2.
Proof.
  unfold chars_of. induction s1 as [|c s1 IH]; simpl; [reflexivity|].
  by rewrite IH.
Qed.

Lemma startswith_nil (s : chars) : startswith s [] = true.
Proof. by destruct s. Qed.

Lemma str_of_chars_of s : str_of (chars_of s) = s.
Proof. apply string_of_list_ascii_of_string. Qed.

Lemma startswith_lower s : forall p,
  startswith s p = true -> startswith (lower s) (lower p) = true.
Proof.
  induction s as [|c s IH]; intros [|d p]; simpl; try done.
  destruct (ascii_dec c d) as [->|]; [|done].
  intros H. destruct (ascii_dec (lower_char d) (lower_char d)); [|done].
  by apply IH.
Qed.

Lemma contains_lower s p :
  contains s p = true -> contains (lower s) (lower p) = true.
Proof.
  induction s as [|c s IH]; cbn [contains]; intros H.
  - apply orb_true_iff in H as [H|H]; [|done].
    apply startswith_lower in H. change (lower []) with (@nil ascii) in *.
    cbn [contains]. by rewrite H.
  - apply orb_true_iff in H as [H|H].
    + apply startswith_lower in H.
      change (lower (c :: s)) with (lower_char c :: lower s) in *.
      cbn [contains]. by rewrite H.
    + change (lower (c :: s)) with (lower_char c :: lower s).
      cbn [contains]. rewrite (IH H). apply orb_true_r.
Qed.

Lemma contains_app_r s1 s2 p :
  contains s2 p = true -> contains (s1 ++ s2) p = true.
Proof.
  intros H. induction s1 as [|c s1 IH]; [exact H|].
  cbn [app contains]. rewrite IH. apply orb_true_r.
Qed.

Lemma startswith_iff s : forall p,
  startswith s p = true <-> exists rest, s = p ++ rest.
Proof.
  induction s as [|c s IH]; intros [|d p]; simpl.
  - split; [by exists []|done].
  - split; [done|]. by intros [rest H].
  - split; [by exists (c :: s)|done].
  - destruct (ascii_dec c d) as [->|Hne].
    + rewrite IH. split; intros [rest H]; exists rest; congruence.
    + split; [done|]. intros [rest H]. congruence.
Qed.

Lemma endswith_iff s suffix :
  endswith s suffix = true <-> exists before, s = before ++ suffix.
Proof.
  unfold endswith. rewrite startswith_iff. split.
  - intros [rest H]. exists (rev rest).
    rewrite <- (rev_involutive s), H, rev_app_distr. by rewrite rev_involutive.
  - intros [before ->]. exists (rev before). apply rev_app_distr.
Qed.

Lemma chars_of_inj s1 s2 : chars_of s1 = chars_of s2 -> s1 = s2.
Proof.
  intros H. rewrite <- (str_of_chars_of s1), <- (str_of_chars_of s2).
  by rewrite H.
Qed.

End StringFacts.

(** ** The similarity of two names *)

Module SimilarityProps.
Import PyStr Evaluator.

Lemma Zpos_of_nat (n : nat) : (0 < n)%nat -> Z.pos (Pos.of_nat n) = Z.of_nat n.
Proof.
  destruct n as [|n]; [lia|]. intros _.
  rewrite <- Pos.of_nat_succ, Zpos_P_of_succ_nat. lia.
Qed.

(** The two branches of [_calculate_name_similarity]: 0, or the quotient of
    the sizes when both names are non-empty and have words. *)
Lemma similarity_cases name1 name2 :
  (_calculate_name_similarity name1 name2 = 0%Q
   /\ (name1 = "" \/ name2 = "" \/ words name1 = ∅ \/ words name2 = ∅))
  \/ (name1 <> "" /\ name2 <> "" /\ words name1 <> ∅ /\ words name2 <> ∅
      /\ (0 < size (words name1 ∪ words name2))%nat
      /\ _calculate_name_similarity name1 name2
         = (Z.of_nat (size (words name1 ∩ words name2))
            # Pos.of_nat (size (words name1 ∪ words name2)))).
Proof.
  destruct name1 as [|a1 n1]; [left; split; [reflexivity|by left]|].
  destruct name2 as [|a2 n2]; [left; split; [reflexivity|by right; left]|].
  set (x := String a1 n1). set (y := String a2 n2).
  change (_calculate_name_similarity x y)
    with (if decide (words x = ∅ \/ words y = ∅) then 0%Q
          else if decide (0 < size (words x ∪ words y))%nat
               then Z.of_nat (size (words x ∩ words y))
                    # Pos.of_nat (size (words x ∪ words y))
               else 0%Q).
  destruct (decide (words x = ∅ \/ words y = ∅)) as [H|H].
  - left. split; [reflexivity|]. right; right. exact H.
  - assert (Hpos : (0 < size (words x ∪ words y))%nat).
    { destruct (size (words x ∪ words y)) eqn:E; [|lia].
      apply size_empty_iff in E. exfalso. apply H. left.
      apply leibniz_equiv. set_solver. }
    right. rewrite decide_True by exact Hpos.
    split; [discriminate|]. split; [discriminate|].
    split; [intros E; apply H; by left|].
    split; [intros E; apply H; by right|]. by split.
Qed.

(** X1.  The similarity of two names lies between 0 and 1. *)
Theorem similarity_bounds :
  forall name1 name2,
    (0 <= _calculate_name_similarity name1 name2)%Q
    /\ (_calculate_name_similarity name1 name2 <= 1)%Q.
Proof.
  intros name1 name2.
  destruct (similarity_cases name1 name2)
    as [[-> _]|(_ & _ & _ & _ & Hpos & ->)]; [by split|].
  assert (size (words name1 ∩ words name2) <= size (words name1 ∪ words name2))%nat
    by (apply subseteq_size; set_solver).
  unfold Qle. simpl. rewrite Zpos_of_nat by exact Hpos. lia.
Qed.

Lemma similarity_comm name1 name2 :
  _calculate_name_similarity name1 name2
  = _calculate_name_similarity name2 name1.
Proof.
  destruct (similarity_cases name1 name2)
    as [[-> H]|(H1 & H2 & H3 & H4 & Hpos & ->)];
  destruct (similarity_cases name2 name1)
    as [[-> H']|(H1' & H2' & H3' & H4' & Hpos' & ->)]; try reflexivity.
  - exfalso. destruct H as [H|[H|[H|H]]]; congruence.
  - exfalso. destruct H' as [H|[H|[H|H]]]; congruence.
  - by rewrite (comm_L (∩) (words name1)), (comm_L (∪) (words name1)).
Qed.

(** X2.  The similarity does not depend on the order of the two names. *)
Theorem similarity_symmetric :
  forall name1 name2,
    _calculate_name_similarity name1 name2
    = _calculate_name_similarity name2 name1.
Proof. intros. apply similarity_comm. Qed.

(** X3.  The similarity is 1 exactly when the two names are non-empty and have
    the same, non-empty, set of words; so a name with a word is at
    similarity 1 from itself. *)
Theorem similarity_one_iff :
  forall name1 name2,
    (_calculate_name_similarity name1 name2 == 1)%Q
    <-> name1 <> "" /\ name2 <> "" /\ words name1 <> ∅
        /\ words name1 = words name2.
Proof.
  intros name1 name2.
  destruct (similarity_cases name1 name2)
    as [[-> H]|(H1 & H2 & H3 & H4 & Hpos & ->)].
  - split; [intros E; vm_compute in E; discriminate E|].
    intros (? & ? & ? & Heq). destruct H as [H|[H|[H|H]]]; congruence.
  - unfold Qeq. simpl. rewrite Zpos_of_nat by exact Hpos. split.
    + intros E. repeat split; try done.
      assert (Hsub : words name1 ∩ words name2 = words name1 ∪ words name2).
      { apply set_subseteq_size_eq; [set_solver|lia]. }
      apply leibniz_equiv. set_solver.
    + intros (_ & _ & _ & Heq). rewrite <- Heq.
      replace (words name1 ∩ words name1) with (words name1)
        by (apply leibniz_equiv; set_solver).
      replace (words name1 ∪ words name1) with (words name1)
        by (apply leibniz_equiv; set_solver).
      lia.
Qed.

End SimilarityProps.

(** ** Normalised names *)

Module NormalizedNames.
Import PyStr Evaluator NameShape Extractor.

Lemma lower_lowered s : Forall lowered s -> lower s = s.
Proof.
  unfold lower. induction 1 as [|c s Hc _ IH]; simpl; [reflexivity|].
  by rewrite Hc, IH.
Qed.

Lemma no_double_space s :
  Forall (fun c => is_name_char c = true) s -> single_spaced s ->
  contains s [" "%char; " "%char] = false.
Proof.
  induction s as [|c s IH]; intros Hc Hs; [reflexivity|].
  apply Forall_cons in Hc as [_ Hc]. destruct Hs as [Hadj Hs].
  cbn [contains]. rewrite (IH Hc Hs), orb_false_r.
  cbn [startswith]. destruct (ascii_dec c " ") as [->|]; [|reflexivity].
  destruct s as [|c2 s]; [reflexivity|]. cbn [startswith].
  destruct (ascii_dec c2 " ") as [->|]; [|reflexivity].
  destruct Hadj as [H|H]; discriminate H.
Qed.

(** X4.  Whatever the name, its normalised form is made of word characters
    and spaces only, is left unchanged by [lower()] and by [strip()], and has
    no two spaces in a row. *)
Theorem normalized_name_shape :
  forall name,
    Forall (fun c => is_word c = true \/ c = " "%char)
           (chars_of (_normalize_name name))
    /\ lower_str (_normalize_name name) = _normalize_name name
    /\ str_of (strip (chars_of (_normalize_name name))) = _normalize_name name
    /\ contains_str (_normalize_name name) "  " = false.
Proof.
  intros name. destruct (string_dec name "") as [->|Hname].
  { repeat split; constructor. }
  rewrite (NormalizerProps.normalize_name_nonempty name Hname).
  destruct (NormalizerProps.normalize_chars_shape (chars_of name))
    as (Hchars & Hlow & Hsingle & Hl & Hr).
  unfold lower_str, contains_str.
  rewrite NormalizerProps.chars_of_str_of.
  generalize dependent (normalize_chars (chars_of name)). intros y **.
  split; [|split; [|split]].
  - eapply Forall_impl; [exact Hchars|]. intros c Hc. unfold is_name_char in Hc.
    apply orb_true_iff in Hc as [Hc|Hc]; [by left|].
    right. by destruct (ascii_dec c " ").
  - by rewrite lower_lowered.
  - by rewrite NormalizerProps.strip_id.
  - by apply no_double_space.
Qed.

Lemma elem_of_normalize_fold products : forall (acc : gset string) x,
  x ∈ fold_left
        (fun normalized product =>
           match _normalize_name (clean_name product) with
           | EmptyString => normalized
           | _ => {[ _normalize_name (clean_name product) ]} ∪ normalized
           end)
        products acc
  <-> x ∈ acc
      \/ (x <> "" /\ exists product,
            product ∈ products /\ x = _normalize_name (clean_name product)).
Proof.
  induction products as [|p products IH]; intros acc x; simpl.
  - split; [by left|]. intros [H|(_ & q & Hq & _)]; [exact H|inversion Hq].
  - rewrite IH. clear IH.
    destruct (_normalize_name (clean_name p)) as [|a n] eqn:E.
    + split.
      * intros [H|(Hx & q & Hq & Heq)]; [by left|].
        right. split; [exact Hx|]. exists q. split; [by right|exact Heq].
      * intros [H|(Hx & q & Hq & Heq)]; [by left|].
        apply elem_of_cons in Hq as [->|Hq]; [congruence|].
        right. split; [exact Hx|]. by exists q.
    + rewrite elem_of_union, elem_of_singleton. split.
      * intros [[->|H]|(Hx & q & Hq & Heq)].
        -- right. split; [discriminate|]. exists p. split; [left|]. by rewrite E.
        -- by left.
        -- right. split; [exact Hx|]. exists q. split; [by right|exact Heq].
      * intros [H|(Hx & q & Hq & Heq)]; [left; by right|].
        apply elem_of_cons in Hq as [->|Hq]; [left; left; congruence|].
        right. split; [exact Hx|]. by exists q.
Qed.

(** X5.  [_normalize_product_names] holds exactly the non-empty normalised
    names of the entries, each taken before its [" - http"]; the empty name is
    never a member. *)
Theorem normalize_product_names_spec :
  forall products x,
    x ∈ _normalize_product_names products
    <-> x <> "" /\ exists product,
          product ∈ products /\ x = _normalize_name (clean_name product).
Proof.
  intros products x. unfold _normalize_product_names.
  rewrite elem_of_normalize_fold. split; [|by right].
  intros [H|H]; [|exact H]. by apply not_elem_of_empty in H.
Qed.

End NormalizedNames.

(** ** Counting matches *)

Module CountingProps.
Import PyStr Evaluator.

Lemma size_list_to_set_le (l : list (string * string)) :
  (size (list_to_set l : gset (string * string)) <= length l)%nat.
Proof.
  induction l as [|x l IH].
  { rewrite list_to_set_nil, size_empty. reflexivity. }
  rewrite list_to_set_cons, size_union_alt, size_singleton. simpl length.
  assert (size (list_to_set l ∖ ({[x]} : gset (string * string)))
          <= size (list_to_set l : gset (string * string)))%nat
    by (apply subseteq_size; set_solver).
  lia.
Qed.

Lemma size_le_of_swap (X Y : gset (string * string)) :
  (forall p, p ∈ X -> swap p ∈ Y) -> (size X <= size Y)%nat.
Proof.
  intros H.
  assert (Hsub : X ⊆ list_to_set (swap <$> elements Y)).
  { intros [a b] Hp. apply elem_of_list_to_set, list_elem_of_fmap.
    exists (b, a). split; [reflexivity|]. apply elem_of_elements.
    exact (H (a, b) Hp). }
  apply subseteq_size in Hsub.
  pose proof (size_list_to_set_le (swap <$> elements Y)) as Hle.
  rewrite length_fmap in Hle. change (size Y) with (length (elements Y)). lia.
Qed.

(** X6.  Fuzzy matching is symmetric: a pair is reported for two sets of
    names exactly when the swapped pair is reported for the swapped sets, and
    [_count_matching_products] gives the same count when the two stores are
    exchanged. *)
Theorem count_matching_symmetric :
  (forall (expansion_names main_names : gset string) e m,
     (e, m) ∈ _find_fuzzy_product_matches expansion_names main_names
     <-> (m, e) ∈ _find_fuzzy_product_matches main_names expansion_names)
  /\ (forall main_products expansion_products,
        _count_matching_products main_products expansion_products
        = _count_matching_products expansion_products main_products).
Proof.
  assert (Hsym : forall (E M : gset string) e m,
    (e, m) ∈ _find_fuzzy_product_matches E M
    -> (m, e) ∈ _find_fuzzy_product_matches M E).
  { intros E M e m H. apply Matching.elem_of_find_fuzzy in H as (He & Hm & Hne & Hs).
    apply Matching.elem_of_find_fuzzy.
    rewrite SimilarityProps.similarity_comm. by repeat split. }
  split.
  - intros E M e m. split; apply Hsym.
  - intros main_products expansion_products.
    unfold _count_matching_products.
    destruct main_products as [|p ps], expansion_products as [|q qs];
      try reflexivity.
    set (E := _normalize_product_names (q :: qs)).
    set (M := _normalize_product_names (p :: ps)).
    rewrite (comm_L (∩) E M). f_equal.
    apply Nat.le_antisymm; apply size_le_of_swap; intros [a b] H;
      by apply Hsym.
Qed.

End CountingProps.

(** ** More on the extractor *)

Module ExtractorMore.
Import PyStr Extractor ExtractorSpec StringFacts.

(** *** [_deduplicate_products] *)

Lemma dedup_from_spec products : forall seen,
  NoDup (map dedup_key (dedup_from seen products))
  /\ (forall k, k ∈ map dedup_key (dedup_from seen products) -> k ∉ seen)
  /\ sublist (dedup_from seen products) products
  /\ (forall p, p ∈ products ->
        dedup_key p ∈ seen \/ dedup_key p ∈ map dedup_key (dedup_from seen products)).
Proof.
  induction products as [|p products IH]; intros seen; simpl.
  - repeat split; [constructor|intros k H; inversion H|constructor|].
    intros p H. inversion H.
  - fold (dedup_key p). destruct (decide (dedup_key p ∈ seen)) as [Hin|Hnot].
    + destruct (IH seen) as (Hnd & Hfresh & Hsub & Hcov).
      split; [exact Hnd|]. split; [exact Hfresh|].
      split; [by apply sublist_cons|].
      intros q Hq. apply elem_of_cons in Hq as [->|Hq]; [by left|by apply Hcov].
    + destruct (IH (dedup_key p :: seen)) as (Hnd & Hfresh & Hsub & Hcov).
      split; [|split; [|split]].
      * simpl. constructor; [|exact Hnd].
        intros H. apply Hfresh in H. apply H. left.
      * intros k Hk. simpl in Hk. apply elem_of_cons in Hk as [->|Hk]; [exact Hnot|].
        intros Hs. apply (Hfresh k Hk). by right.
      * by apply sublist_skip.
      * intros q Hq. simpl.
        apply elem_of_cons in Hq as [->|Hq]; [right; left|].
        destruct (Hcov q Hq) as [H|H]; [|right; by right].
        apply elem_of_cons in H as [->|H]; [right; left|by left].
Qed.

Lemma dedup_from_fixed products : forall seen,
  NoDup (map dedup_key products) ->
  (forall k, k ∈ map dedup_key products -> k ∉ seen) ->
  dedup_from seen products = products.
Proof.
  induction products as [|p products IH]; intros seen Hnd Hfresh; [reflexivity|].
  simpl in *. fold (dedup_key p). apply NoDup_cons in Hnd as [Hp Hnd].
  rewrite decide_False by (apply Hfresh; left).
  f_equal. apply IH; [exact Hnd|].
  intros k Hk Hs. apply elem_of_cons in Hs as [->|Hs]; [by apply Hp|].
  apply (Hfresh k); [by right|exact Hs].
Qed.

(** X7.  [_deduplicate_products] keeps the products in their order, the first
    of each (lower-cased name, url) pair and only that one: the keys of the
    result are distinct, every product given has its key in the result, and
    deduplicating again changes nothing. *)
Theorem deduplicate_products_spec :
  forall products,
    NoDup (map dedup_key (_deduplicate_products products))
    /\ sublist (_deduplicate_products products) products
    /\ (forall p, p ∈ products ->
          dedup_key p ∈ map dedup_key (_deduplicate_products products))
    /\ (forall p rest, products = p :: rest ->
          exists rest', _deduplicate_products products = p :: rest')
    /\ _deduplicate_products (_deduplicate_products products)
       = _deduplicate_products products.
Proof.
  intros products. unfold _deduplicate_products.
  destruct (dedup_from_spec products []) as (Hnd & Hfresh & Hsub & Hcov).
  split; [exact Hnd|]. split; [exact Hsub|]. split; [|split].
  - intros p Hp. destruct (Hcov p Hp) as [H|H]; [inversion H|exact H].
  - intros p rest ->. cbn [dedup_from].
    destruct (decide _) as [H|_]; [inversion H|]. by eexists.
  - apply dedup_from_fixed; [exact Hnd|]. intros k _ H. inversion H.
Qed.

(** *** Rules of [hoare] *)

Lemma hoare_ret {A} P (a : A) Q E :
  (forall self, P self -> Q a self) -> hoare P (ret a) Q E.
Proof. intros H self HP. by apply H. Qed.

Lemma hoare_raise {A} P e (Q : A -> ProductExtractor -> Prop) E :
  (forall self, P self -> E e self) -> hoare P (raise e) Q E.
Proof. intros H self HP. by apply H. Qed.

Lemma hoare_bind {A B} P (m : M A) (f : A -> M B) R Q E :
  hoare P m R E -> (forall a, hoare (R a) (f a) Q E) -> hoare P (bind m f) Q E.
Proof.
  intros Hm Hf self HP. unfold bind. specialize (Hm self HP).
  destruct (m self) as [[a|e] self']; [by apply Hf|exact Hm].
Qed.

Lemma hoare_try_except {A} P (body : M A) handler Q E' E :
  hoare P body Q E' -> (forall e, hoare (E' e) (handler e) Q E) ->
  hoare P (try_except body handler) Q E.
Proof.
  intros Hb Hh self HP. unfold try_except. specialize (Hb self HP).
  destruct (body self) as [[a|e] self']; [exact Hb|by apply Hh].
Qed.

Lemma hoare_consequence {A} (P P' : ProductExtractor -> Prop) (m : M A)
    (Q Q' : A -> ProductExtractor -> Prop) (E E' : string -> ProductExtractor -> Prop) :
  hoare P' m Q' E' ->
  (forall self, P self -> P' self) ->
  (forall a self, Q' a self -> Q a self) ->
  (forall e self, E' e self -> E e self) ->
  hoare P m Q E.
Proof.
  intros Hm HP HQ HE self Hself. specialize (Hm self (HP self Hself)).
  destruct (m self) as [[a|e] self']; [by apply HQ|by apply HE].
Qed.

Lemma hoare_weaken_pre {A} (P P' : ProductExtractor -> Prop) (m : M A) Q E :
  hoare P' m Q E -> (forall self, P self -> P' self) -> hoare P m Q E.
Proof. intros Hm HP self Hself. exact (Hm self (HP self Hself)). Qed.

(** A fact that the precondition implies can be used to run the computation. *)
Lemma hoare_pre {A} (P : ProductExtractor -> Prop) (fact : Prop) (m : M A) Q E :
  (forall self, P self -> fact) -> (fact -> hoare P m Q E) -> hoare P m Q E.
Proof. intros Hf Hm self HP. exact (Hm (Hf self HP) self HP). Qed.

Lemma hoare_get_self P E :
  hoare P get_self (fun a self => a = self /\ P self) E.
Proof. intros self HP. by split. Qed.

Lemma hoare_set_cache P c Q E :
  (forall self, P self ->
     Q tt {| cache := c; dynamic_knowledge_base := dynamic_knowledge_base self;
             requests := requests self |}) ->
  hoare P (set_cache c) Q E.
Proof. intros H self HP. by apply H. Qed.

Lemma hoare_set_knowledge P kb Q E :
  (forall self, P self ->
     Q tt {| cache := cache self; dynamic_knowledge_base := kb;
             requests := requests self |}) ->
  hoare P (set_knowledge kb) Q E.
Proof. intros H self HP. by apply H. Qed.

(** A request keeps a property that does not read [requests], whatever it
    answers. *)
Lemma hoare_request {A} P what (o : outcome A) :
  blind P -> hoare P (request what o) (fun _ => P) (fun _ => P).
Proof.
  intros Hb [c kb rs] HP. unfold request. simpl.
  destruct o; by apply (Hb c kb rs).
Qed.

Lemma slice_to_length {A} (n : Z) (l : list A) :
  (0 <= n)%Z -> (Z.of_nat (length (slice_to n l)) <= n)%Z.
Proof.
  intros Hn. unfold slice_to. destruct (0 <=? n)%Z eqn:E; [|lia].
  rewrite length_firstn. lia.
Qed.

(** *** The methods of the extractor *)

Section WithLibraries.
Variable md5_hexdigest : string -> string.
Variable netloc : string -> string.
Variable strftime : Z -> string.
Variable isoformat : Z -> string.
Variable static_knowledge_base :
  string -> list (string * (list Product * string)).

Notation key := (_get_cache_key md5_hexdigest).
Notation discover :=
  (discover_and_learn_products netloc isoformat static_knowledge_base).
Notation extract :=
  (extract_products_from_store md5_hexdigest netloc strftime isoformat
     static_knowledge_base).
Notation perform :=
  (perform md5_hexdigest netloc strftime isoformat static_knowledge_base).
Notation run :=
  (run md5_hexdigest netloc strftime isoformat static_knowledge_base).

(** [_add_to_dynamic_knowledge_base] never raises; it leaves the knowledge
    base alone when given no product, and otherwise files the products under
    the domain. *)
Lemma hoare_add_to_knowledge P now store_url products platform method E :
  learnable P ->
  hoare P
    (_add_to_dynamic_knowledge_base netloc isoformat now store_url products
       platform method)
    (fun _ self =>
       P self
       /\ (products <> [] ->
           exists entry,
             dynamic_knowledge_base self !! domain_of netloc store_url = Some entry
             /\ kb_products entry = products))
    E.
Proof.
  intros [Hblind Hins]. unfold _add_to_dynamic_knowledge_base.
  destruct products as [|p ps]; cbn [nonempty].
  { apply hoare_ret. intros self HP. by split. }
  eapply hoare_bind; [apply hoare_get_self|]. intros self0.
  eapply hoare_bind.
  - apply hoare_set_knowledge with
      (Q := fun _ self =>
              P self
              /\ exists entry,
                   dynamic_knowledge_base self !! domain_of netloc store_url
                   = Some entry /\ kb_products entry = p :: ps).
    intros [c kb rs] [-> HP]. simpl. split.
    + apply Hins; [exact HP|discriminate].
    + eexists. split; [apply lookup_insert_eq|reflexivity].
  - intros ? [c kb rs] [HP Hkb]. unfold request. simpl. split.
    + by apply (Hblind c kb rs).
    + intros _. exact Hkb.
Qed.

Lemma hoare_discovery_method P max_products acc label strategy :
  (forall remaining, hoare P (strategy remaining) (fun _ => P) (fun _ => P)) ->
  hoare P (discovery_method max_products acc label strategy)
        (fun _ => P) (fun _ => P).
Proof.
  intros Hs. unfold discovery_method. destruct acc as [d ms].
  destruct (_ <? _)%Z; [|by apply hoare_ret].
  eapply hoare_bind; [apply Hs|]. intros found.
  destruct (nonempty found); by apply hoare_ret.
Qed.

Lemma hoare_discovery_body P w store_url max_products :
  learnable P ->
  hoare P (discovery_body netloc isoformat w store_url max_products)
    (fun r self =>
       P self /\ discovered max_products (domain_of netloc store_url) r self)
    (fun _ => P).
Proof.
  intros HP. pose proof HP as [Hblind Hins]. unfold discovery_body.
  eapply hoare_bind; [by apply hoare_request|]. intros platform.
  eapply hoare_bind with (R := fun _ => P).
  { destruct platform as [pf|]; [|by apply hoare_ret].
    destruct (truthy_str (Some pf)); [|by apply hoare_ret].
    eapply hoare_bind; [by apply hoare_request|]. intros pps.
    destruct (nonempty pps); by apply hoare_ret. }
  intros acc1.
  eapply hoare_bind; [apply hoare_discovery_method|].
  { intros remaining.
    eapply hoare_bind; [by apply hoare_request|]. intros sps.
    destruct (nonempty sps); [by apply hoare_request|by apply hoare_ret]. }
  intros acc2.
  eapply hoare_bind;
    [apply hoare_discovery_method; intros; by apply hoare_request|].
  intros acc3.
  eapply hoare_bind;
    [apply hoare_discovery_method; intros; by apply hoare_request|].
  intros [discovered_products methods].
  set (final := slice_to max_products (_deduplicate_products discovered_products)).
  destruct (nonempty final) eqn:Hne.
  - eapply hoare_bind; [by apply hoare_add_to_knowledge|].
    intros ?. apply hoare_ret. intros self [Hself Hkb]. split; [exact Hself|].
    split; [reflexivity|]. split; [reflexivity|]. split.
    + intros Hn. simpl. by apply slice_to_length.
    + intros _. simpl. apply Hkb. by destruct final.
  - apply hoare_ret. intros self Hself. split; [exact Hself|].
    split; [reflexivity|]. split; [reflexivity|]. split.
    + intros Hn. simpl. lia.
    + intros H. by destruct H.
Qed.

Lemma hoare_discover P w store_url max_products :
  learnable P ->
  hoare P (discover w store_url max_products)
    (fun r self => P self /\ discovery_result max_products r)
    (fun _ => P).
Proof.
  intros HP. unfold discover_and_learn_products.
  eapply hoare_bind; [apply hoare_get_self|]. intros self0.
  destruct (dynamic_knowledge_base self0 !! _) as [kb_data|].
  - apply hoare_ret. intros self [_ Hself]. split; [exact Hself|].
    split; [reflexivity|]. split; [reflexivity|].
    intros Hn. simpl. by apply slice_to_length.
  - apply hoare_try_except with (E' := fun _ => P).
    + eapply hoare_consequence; [by apply hoare_discovery_body| | |].
      * by intros self [_ H].
      * intros r self [H (Hs & Hc & Hb & _)]. by repeat split.
      * by intros.
    + intros e. unfold no_attribute.
      eapply hoare_bind with (R := fun _ _ => False).
      * by apply hoare_raise.
      * intros blocking self [].
Qed.

Lemma learnable_True : learnable (fun _ => True).
Proof. by split. Qed.

Section WithKnowledge.
Variable K : gmap string KnowledgeEntry -> Prop.
Hypothesis K_kept : keeps_knowledge K.

Lemma blind_inv : blind (inv K).
Proof. intros c kb rs rs' H. exact H. Qed.

Lemma learnable_inv : learnable (inv K).
Proof.
  split; [apply blind_inv|]. intros c kb rs d entry [Hc Hk] He.
  split; [exact Hc|]. by apply K_kept.
Qed.

Lemma inv_insert self k entry :
  inv K self -> entry_ok entry ->
  inv K {| cache := <[k := entry]> (cache self);
           dynamic_knowledge_base := dynamic_knowledge_base self;
           requests := requests self |}.
Proof.
  intros [Hc Hk] He. split; [|exact Hk].
  intros k' e. simpl. rewrite lookup_insert.
  case_decide; [intros [= <-]; exact He|apply Hc].
Qed.

Lemma inv_delete self k :
  inv K self ->
  inv K {| cache := delete k (cache self);
           dynamic_knowledge_base := dynamic_knowledge_base self;
           requests := requests self |}.
Proof.
  intros [Hc Hk]. split; [|exact Hk].
  intros k' e. simpl. rewrite lookup_delete.
  case_decide; [discriminate|apply Hc].
Qed.

Lemma hoare_store_in_cache now url r f reason E :
  result_sound r -> f = negb (success r) ->
  hoare (inv K) (_store_in_cache md5_hexdigest now url r f reason)
    (fun _ self =>
       inv K self
       /\ cache self !! key url
          = Some {| cache_url := url; result := r; timestamp := now;
                    is_failure := f; failure_reason := reason |})
    E.
Proof.
  intros [Hcount Hfail] Hf. unfold _store_in_cache.
  eapply hoare_bind; [apply hoare_get_self|]. intros self0.
  apply hoare_set_cache. intros self [-> Hinv]. split.
  - apply inv_insert; [exact Hinv|]. by repeat split.
  - simpl. apply lookup_insert_eq.
Qed.

Lemma hoare_get_from_cache now url E :
  hoare (inv K) (_get_from_cache md5_hexdigest now url)
    (fun o self =>
       inv K self
       /\ match o with
          | Some entry => entry_ok entry /\ cache self !! key url = Some entry
          | None => True
          end)
    E.
Proof.
  unfold _get_from_cache.
  eapply hoare_bind; [apply hoare_get_self|]. intros self0.
  destruct (cache self0 !! key url) as [entry|] eqn:Hlook.
  - destruct (_is_cache_valid now entry).
    + apply hoare_ret. intros self [-> Hinv]. split; [exact Hinv|].
      split; [|exact Hlook]. destruct Hinv as [Hc _]. exact (Hc _ _ Hlook).
    + eapply hoare_bind with (R := fun _ => inv K).
      * apply hoare_set_cache. intros self [-> Hinv]. by apply inv_delete.
      * intros ?. apply hoare_ret. by intros self Hinv.
  - apply hoare_ret. by intros self [-> Hinv].
Qed.

Lemma hoare_update_cached_result url entry r E :
  result_sound r -> is_failure entry = negb (success r) ->
  hoare (inv K) (update_cached_result md5_hexdigest url entry r)
    (fun _ self =>
       inv K self
       /\ cache self !! key url
          = Some {| cache_url := cache_url entry; result := r;
                    timestamp := timestamp entry;
                    is_failure := is_failure entry;
                    failure_reason := failure_reason entry |})
    E.
Proof.
  intros [Hcount Hfail] Hf. unfold update_cached_result.
  eapply hoare_bind; [apply hoare_get_self|]. intros self0.
  apply hoare_set_cache. intros self [-> Hinv]. split.
  - apply inv_insert; [exact Hinv|]. by repeat split.
  - simpl. apply lookup_insert_eq.
Qed.

Lemma result_sound_set_metadata r f c v :
  result_sound r -> result_sound (set_metadata r f c v).
Proof. intros H. exact H. Qed.

(** [extract_products_from_store] never raises, keeps the invariant, and
    returns a sound result, which is the one it leaves in the cache. *)
Lemma hoare_extract w store_url max_products :
  hoare (inv K) (extract w store_url max_products)
    (fun r self =>
       inv K self /\ result_sound r
       /\ exists entry,
            cache self !! key store_url = Some entry /\ result entry = r)
    never.
Proof.
  unfold extract_products_from_store, extract_products_from_store_with.
  apply hoare_try_except with (E' := fun _ => inv K).
  - eapply hoare_bind; [apply hoare_get_from_cache|]. intros [entry|].
    + apply (hoare_pre _ (entry_ok entry)); [by intros self (_ & H & _)|].
      intros (Hcount & Hfail & Hflag).
      eapply hoare_weaken_pre; [|by intros self [H _]].
      destruct (is_failure entry) eqn:Hf;
        (eapply hoare_bind;
           [apply hoare_update_cached_result;
              [by apply result_sound_set_metadata|by rewrite Hf]|]);
        intros ?; apply hoare_ret; intros s [Hs Hl];
        (split; [exact Hs|]); (split; [by split|]); eexists; by split.
    + eapply hoare_bind.
      * eapply hoare_consequence;
          [apply (hoare_discover (inv K)), learnable_inv| | |];
          [by intros ? []|..]; intros; eassumption.
      * intros r.
        apply (hoare_pre _ (discovery_result max_products r)); [by intros self [_ H]|].
        intros (Hs & Hc & _). rewrite Hs. cbn [andb].
        eapply hoare_weaken_pre; [|by intros self [H _]].
        assert (forall f c v, result_sound (set_metadata r f c v)) as Hsound.
        { intros. split; [exact Hc|]. simpl. congruence. }
        destruct (nonempty (products r)); cbn [negb];
          (eapply hoare_bind;
             [apply hoare_store_in_cache; [apply Hsound|simpl; by rewrite Hs]|]);
          intros ?; apply hoare_ret; intros s [Hi Hl];
          (split; [exact Hi|]); (split; [apply Hsound|]); eexists; by split.
  - intros e.
    eapply hoare_bind.
    + apply hoare_store_in_cache; [|reflexivity]. by split.
    + intros ?. apply hoare_ret. intros s [Hi Hl].
      split; [exact Hi|]. split; [by split|]. eexists. by split.
Qed.

(** *** Every call *)

Lemma hoare_generate P w store_url max_products :
  blind P ->
  hoare P (generate_comprehensive_product_database w store_url max_products)
    (fun r self => P self /\ result_sound r) never.
Proof.
  intros HP. unfold generate_comprehensive_product_database.
  apply hoare_try_except with (E' := fun _ => P).
  - eapply hoare_bind; [by apply hoare_request|]. intros [[final ms] platform].
    destruct (nonempty final); apply hoare_ret; intros self Hs;
      (split; [exact Hs|]); by split.
  - intros e. apply hoare_ret. intros self Hs. split; [exact Hs|]. by split.
Qed.

Lemma static_result_sound store_url max_products r :
  _extract_via_static_knowledge_base netloc static_knowledge_base store_url
    max_products = Some r ->
  result_sound r.
Proof.
  unfold _extract_via_static_knowledge_base.
  destruct (List.find _ _) as [[known [kb_products platform]]|]; [|discriminate].
  intros [= <-]. by split.
Qed.

Lemma hoare_perform c :
  hoare (inv K) (perform c)
    (fun o self => inv K self /\ outcome_sound (Returns o))
    (fun _ => inv K).
Proof.
  destruct c as [w u n|w u n|w u n|w u n|u n]; unfold Extractor.perform.
  - eapply hoare_bind.
    + eapply hoare_consequence; [apply hoare_extract|done| |by intros ? ? []].
      intros r self H. exact H.
    + intros r. apply hoare_ret. intros self (Hi & Hs & _). by split.
  - eapply hoare_bind; [apply (hoare_discover (inv K)), learnable_inv|].
    intros r. apply hoare_ret. intros self [Hi (Hs & Hc & _)].
    split; [exact Hi|]. split; [exact Hc|]. congruence.
  - eapply hoare_bind.
    + eapply hoare_consequence;
        [apply (hoare_generate (inv K)), blind_inv|done| |by intros ? ? []].
      intros r self H. exact H.
    + intros r. apply hoare_ret. by intros self [Hi Hs].
  - unfold _try_simplified_search.
    eapply hoare_bind; [apply hoare_request, blind_inv|]. intros found.
    destruct (nonempty found); apply hoare_ret; intros self Hs;
      (split; [exact Hs|]); by split.
  - apply hoare_ret. intros self Hs. split; [exact Hs|]. simpl.
    destruct (_extract_via_static_knowledge_base _ _ u n) as [r|] eqn:E; [|done].
    by apply static_result_sound in E.
Qed.

Lemma run_inv calls : forall self,
  inv K self ->
  Forall outcome_sound (fst (run self calls)) /\ inv K (snd (run self calls)).
Proof.
  induction calls as [|c calls IH]; intros self Hself; simpl.
  { split; [constructor|exact Hself]. }
  pose proof (hoare_perform c self Hself) as Hc.
  destruct (perform c self) as [o self1].
  assert (inv K self1 /\ outcome_sound o) as [Hi Ho].
  { destruct o as [a|e]; [exact Hc|]. by split. }
  destruct (IH self1 Hi) as [Hos Hfinal].
  destruct (run self1 calls) as [os self2]. simpl in *.
  split; [by constructor|exact Hfinal].
Qed.

Lemma inv_init loaded : K loaded -> inv K (init loaded).
Proof.
  intros H. split; [|exact H]. intros k e Hl. simpl in Hl.
  by rewrite lookup_empty in Hl.
Qed.

End WithKnowledge.

Lemma keeps_True : keeps_knowledge (fun _ => True).
Proof. by intros kb d entry _ _. Qed.

Lemma keeps_nonempty : keeps_knowledge nonempty_knowledge.
Proof.
  intros kb d entry Hkb He d' kb_data. rewrite lookup_insert.
  case_decide; [by intros [= <-]|apply Hkb].
Qed.

Lemma keeps_domain (kb0 : gmap string KnowledgeEntry) :
  keeps_knowledge (fun kb => forall d, is_Some (kb0 !! d) -> is_Some (kb !! d)).
Proof.
  intros kb d entry Hkb _ d' Hd'. rewrite lookup_insert.
  case_decide; [by eexists|by apply Hkb].
Qed.

(** X8.  On an extractor fresh from [__init__], whatever calls are made on
    it and whatever the world answers, every result handed back has
    [total_found] equal to the number of its products, and so has every
    result kept in the cache. *)
Theorem results_count_their_products :
  forall loaded calls,
    Forall outcome_counted (fst (run (init loaded) calls))
    /\ forall k entry,
         cache (snd (run (init loaded) calls)) !! k = Some entry ->
         total_found (result entry) = length (products (result entry)).
Proof.
  intros loaded calls.
  destruct (run_inv _ keeps_True calls (init loaded)) as [Hos [Hc _]].
  { by apply inv_init. }
  split.
  - eapply Forall_impl; [exact Hos|]. intros [[r|]|e]; try done. by intros [H _].
  - intros k entry Hl. by destruct (Hc k entry Hl) as [H _].
Qed.

(** X9.  In the cache of an extractor fresh from [__init__], whatever calls
    were made on it, an entry is flagged as a failure exactly when its result
    has [success=false]: the entries that live 2 hours are those of the calls
    that ended in an exception, and a store on which no product was found is
    kept for 24 hours like one with products. *)
Theorem cache_flags_exactly_the_failures :
  forall loaded calls k entry,
    cache (snd (run (init loaded) calls)) !! k = Some entry ->
    is_failure entry = negb (success (result entry))
    /\ forall now,
         _is_cache_valid now entry = true
         <-> (now - timestamp entry
              < (if success (result entry) then 24 else 2) * 3600 * 1000000)%Z.
Proof.
  intros loaded calls k entry Hl.
  destruct (run_inv _ keeps_True calls (init loaded)) as [_ [Hc _]].
  { by apply inv_init. }
  destruct (Hc k entry Hl) as (_ & _ & Hflag). split; [exact Hflag|].
  intros now. rewrite ExtractorProps.is_cache_valid_iff.
  unfold ttl_microseconds. rewrite Hflag.
  destruct (success (result entry)); simpl; lia.
Qed.

(** X10.  The dynamic knowledge base only grows: whatever calls are made, a
    domain known at the start is still known at the end, and when no entry
    loaded from the file has an empty list of products, no entry ever has
    one. *)
Theorem knowledge_base_only_grows :
  forall loaded calls,
    (forall domain,
       is_Some (loaded !! domain) ->
       is_Some (dynamic_knowledge_base (snd (run (init loaded) calls)) !! domain))
    /\ (nonempty_knowledge loaded ->
        nonempty_knowledge (dynamic_knowledge_base (snd (run (init loaded) calls)))).
Proof.
  intros loaded calls. split.
  - destruct (run_inv _ (keeps_domain loaded) calls (init loaded)) as [_ [_ H]].
    + by apply inv_init.
    + exact H.
  - intros Hl.
    destruct (run_inv _ keeps_nonempty calls (init loaded)) as [_ [_ H]].
    + by apply inv_init.
    + exact H.
Qed.

(** *** [extract_products_from_store]: hits and misses *)

Notation misses := (misses key _is_cache_valid).

Lemma blind_misses now url : learnable (misses now url).
Proof. split; [by intros c kb rs rs' H|by intros c kb rs d entry H _]. Qed.

Lemma hoare_store_entry P now url r f reason E :
  hoare P (_store_in_cache md5_hexdigest now url r f reason)
    (fun _ self =>
       cache self !! key url
       = Some {| cache_url := url; result := r; timestamp := now;
                 is_failure := f; failure_reason := reason |})
    E.
Proof.
  intros self _. unfold _store_in_cache. ExtractorProps.run_monad. simpl.
  apply lookup_insert_eq.
Qed.

(** A call that finds no valid entry returns a result and leaves it in the
    cache, stamped with the time of the call and flagged as a failure when it
    is not a success. *)
Lemma hoare_extract_miss w store_url max_products :
  hoare (misses (now_cache_check w) store_url)
    (extract w store_url max_products)
    (fun r self =>
       (exists entry,
          cache self !! key store_url = Some entry
          /\ result entry = r /\ timestamp entry = now_store w
          /\ is_failure entry = negb (success r))
       /\ fresh_result max_products r)
    never.
Proof.
  unfold extract_products_from_store, extract_products_from_store_with.
  apply hoare_try_except with (E' := fun _ _ => True).
  - eapply hoare_bind with (R := fun o _ => o = None).
    { intros self Hmiss. unfold misses in Hmiss. unfold _get_from_cache.
      ExtractorProps.run_monad.
      destruct (cache self !! key store_url) as [entry|]; [|reflexivity].
      by rewrite Hmiss. }
    intros o. apply (hoare_pre _ (o = None)); [done|]. intros ->.
    apply hoare_weaken_pre with (P' := fun _ => True); [|done].
    eapply hoare_bind;
      [apply (hoare_discover (fun _ => True)), learnable_True|].
    intros r.
    apply (hoare_pre _ (discovery_result max_products r)); [by intros self [_ H]|].
    intros (Hs & _ & Hb). rewrite Hs. cbn [andb].
    destruct (nonempty (products r)) eqn:Hne; cbn [negb];
      (eapply hoare_bind; [apply hoare_store_entry|]);
      intros ?; apply hoare_ret; intros s Hl;
      (split; [eexists; (split; [exact Hl|]); simpl; by rewrite Hs|]);
      left; simpl; rewrite Hne; by repeat split.
  - intros e. eapply hoare_bind; [apply hoare_store_entry|].
    intros ?. apply hoare_ret. intros s Hl.
    split; [eexists; by split|]. right. by repeat split.
Qed.

(** A call that finds a valid entry answers from it. *)
Lemma extract_hit w store_url max_products self entry :
  cache self !! key store_url = Some entry ->
  _is_cache_valid (now_cache_check w) entry = true ->
  extract w store_url max_products self
  = (Returns (served_from entry (strftime (timestamp entry))),
     {| cache :=
          <[key store_url :=
              {| cache_url := cache_url entry;
                 result := served_from entry (strftime (timestamp entry));
                 timestamp := timestamp entry;
                 is_failure := is_failure entry;
                 failure_reason := failure_reason entry |}]> (cache self);
        dynamic_knowledge_base := dynamic_knowledge_base self;
        requests := requests self |}).
Proof.
  intros Hl Hv.
  unfold extract_products_from_store, extract_products_from_store_with,
    _get_from_cache, update_cached_result, served_from.
  ExtractorProps.run_monad. rewrite Hl, Hv.
  by destruct (is_failure entry).
Qed.

Lemma extract_returns w store_url max_products self :
  exists r self',
    extract w store_url max_products self = (Returns r, self')
    /\ exists entry,
         cache self' !! key store_url = Some entry /\ result entry = r.
Proof.
  destruct (cache self !! key store_url) as [entry|] eqn:Hl.
  - destruct (_is_cache_valid (now_cache_check w) entry) eqn:Hv.
    + rewrite (extract_hit _ _ _ _ _ Hl Hv). eexists _, _.
      split; [reflexivity|]. eexists. split; [apply lookup_insert_eq|reflexivity].
    + pose proof (hoare_extract_miss w store_url max_products self) as H.
      unfold ExtractorSpec.misses in H. rewrite Hl in H. specialize (H Hv).
      destruct (extract w store_url max_products self) as [[r|e] self']; [|done].
      destruct H as [(entry' & He & Hr & _) _].
    eexists _, _. split; [reflexivity|]. by exists entry'.
  - pose proof (hoare_extract_miss w store_url max_products self) as H.
    unfold ExtractorSpec.misses in H. rewrite Hl in H. specialize (H I).
    destruct (extract w store_url max_products self) as [[r|e] self']; [|done].
    destruct H as [(entry' & He & Hr & _) _].
    eexists _, _. split; [reflexivity|]. by exists entry'.
Qed.

(** X11.  [extract_products_from_store] never raises: from any state and
    whatever the world answers it returns a result, and it leaves in the
    cache, under the key of the url, an entry that holds the result it
    returned. *)
Theorem extract_never_raises :
  forall w store_url max_products self,
    exists r self',
      extract w store_url max_products self = (Returns r, self')
      /\ exists entry,
           cache self' !! key store_url = Some entry /\ result entry = r.
Proof. intros. apply extract_returns. Qed.

(** X12.  A call for a url whose cache entry is still valid is answered from
    the entry alone: the products, their count, the success flag and the
    method are the cached ones whatever [max_products] asks for, the
    confidence is 0.3 for a cached failure and 0.8 otherwise, no request is
    made, nothing is learned, and the entry keeps its timestamp, so that
    being served does not prolong its life. *)
Theorem cache_hit_is_served_from_the_entry :
  forall w store_url max_products self entry,
    cache self !! key store_url = Some entry ->
    (now_cache_check w - timestamp entry
     < (if is_failure entry then 2 else 24) * 3600 * 1000000)%Z ->
    exists r self',
      extract w store_url max_products self = (Returns r, self')
      /\ products r = products (result entry)
      /\ total_found r = total_found (result entry)
      /\ success r = success (result entry)
      /\ extraction_method r = extraction_method (result entry)
      /\ confidence_score r = Some (if is_failure entry then 3 # 10 else 8 # 10)
      /\ requests self' = requests self
      /\ dynamic_knowledge_base self' = dynamic_knowledge_base self
      /\ exists entry',
           cache self' !! key store_url = Some entry'
           /\ result entry' = r
           /\ timestamp entry' = timestamp entry
           /\ is_failure entry' = is_failure entry.
Proof.
  intros w store_url max_products self entry Hl Hage.
  assert (_is_cache_valid (now_cache_check w) entry = true) as Hv.
  { apply ExtractorProps.is_cache_valid_iff. unfold ttl_microseconds.
    destruct (is_failure entry); lia. }
  rewrite (extract_hit _ _ _ _ _ Hl Hv). eexists _, _. split; [reflexivity|].
  unfold served_from. simpl.
  repeat (split; [by destruct (is_failure entry)|]).
  eexists. split; [apply lookup_insert_eq|]. by split.
Qed.

(** X13.  Results are memoised for their time to live: when a call finds no
    valid entry for the url and returns [r1], a later call for the same url
    whose clock reads less than 24 hours after the first stored its result (2
    hours when [r1] has [success=false]) returns the products, the count and
    the success flag of [r1] without a request. *)
Theorem second_call_is_served_from_cache :
  forall w1 w2 store_url max1 max2 self r1 self1,
    misses (now_cache_check w1) store_url self ->
    extract w1 store_url max1 self = (Returns r1, self1) ->
    (now_cache_check w2 - now_store w1
     < (if success r1 then 24 else 2) * 3600 * 1000000)%Z ->
    exists r2 self2,
      extract w2 store_url max2 self1 = (Returns r2, self2)
      /\ products r2 = products r1
      /\ total_found r2 = total_found r1
      /\ success r2 = success r1
      /\ requests self2 = requests self1
      /\ dynamic_knowledge_base self2 = dynamic_knowledge_base self1.
Proof.
  intros w1 w2 store_url max1 max2 self r1 self1 Hmiss Hrun Hage.
  pose proof (hoare_extract_miss w1 store_url max1 self Hmiss) as H.
  rewrite Hrun in H. destruct H as [(entry & Hl & Hr & Ht & Hf) _].
  assert (_is_cache_valid (now_cache_check w2) entry = true) as Hv.
  { apply ExtractorProps.is_cache_valid_iff. unfold ttl_microseconds.
    rewrite Hf, Ht. destruct (success r1); simpl; lia. }
  rewrite (extract_hit _ _ _ _ _ Hl Hv). eexists _, _. split; [reflexivity|].
  unfold served_from. rewrite Hr. simpl.
  repeat (split; [by destruct (is_failure entry)|]). reflexivity.
Qed.

(** X14.  A call that finds no valid entry for the url returns either a
    success, marked ["Real-time"], with confidence 1.0 when it has products
    and 0.9 when it has none, and with at most [max_products] products when
    [max_products] is not negative, or the error result, with confidence 0:
    the results of the simplified search, of the static knowledge base and of
    step 4 (confidence 0.7, 0.6 and 0.8) are never returned. *)
Theorem fresh_results_are_graded :
  forall w store_url max_products self r self',
    misses (now_cache_check w) store_url self ->
    extract w store_url max_products self = (Returns r, self') ->
    (success r = true
     /\ data_freshness r = Some "Real-time"
     /\ confidence_score r
        = Some (if nonempty (products r) then 1%Q else 9 # 10)
     /\ ((0 <= max_products)%Z ->
         (Z.of_nat (length (products r)) <= max_products)%Z))
    \/ (success r = false /\ products r = []
        /\ extraction_method r = "Extraction failed"
        /\ confidence_score r = Some 0%Q).
Proof.
  intros w store_url max_products self r self' Hmiss Hrun.
  pose proof (hoare_extract_miss w store_url max_products self Hmiss) as H.
  rewrite Hrun in H. by destruct H as [_ H].
Qed.

(** X15.  [generate_comprehensive_product_database] never raises; its result
    is a success exactly when it has products, counts its products, and
    carries an error message when it is not a success. *)
Theorem comprehensive_database_succeeds_iff_products :
  forall w store_url max_products self,
    exists r self',
      generate_comprehensive_product_database w store_url max_products self
      = (Returns r, self')
      /\ (success r = true <-> products r <> [])
      /\ total_found r = length (products r)
      /\ (success r = false -> exists message, error_message r = Some message).
Proof.
  intros w store_url max_products self.
  unfold generate_comprehensive_product_database.
  ExtractorProps.run_monad.
  destruct (comprehensive_final_products w store_url max_products)
    as [[[final methods] platform]|e].
  - destruct final as [|p final]; cbn [nonempty]; eexists _, _;
      (split; [reflexivity|]); simpl.
    + split; [done|]. split; [reflexivity|]. intros _. by eexists.
    + split; [done|]. split; [reflexivity|]. discriminate.
  - eexists _, _. split; [reflexivity|]. simpl.
    split; [done|]. split; [reflexivity|]. intros _. by eexists.
Qed.

Lemma find_first {A} (f : A -> bool) (l : list A) :
  match List.find f l with
  | Some x =>
      exists before after,
        l = before ++ x :: after /\ f x = true
        /\ Forall (fun y => f y = false) before
  | None => Forall (fun y => f y = false) l
  end.
Proof.
  induction l as [|a l IH]; simpl; [constructor|].
  destruct (f a) eqn:E.
  - exists [], l. by repeat split.
  - destruct (List.find f l) as [x|].
    + destruct IH as (before & after & -> & Hx & Hb).
      exists (a :: before), after. split; [reflexivity|]. split; [exact Hx|].
      by constructor.
    + by constructor.
Qed.

Lemma host_matches_iff host known_domain :
  bool_decide (host = known_domain)
  || endswith (chars_of host) (chars_of ("." +:+ known_domain)) = true
  <-> host_matches host known_domain.
Proof.
  unfold host_matches.
  rewrite orb_true_iff, bool_decide_eq_true, endswith_iff.
  split; (intros [H|[sub H]]; [by left|right]).
  - exists (str_of sub). apply chars_of_inj.
    by rewrite chars_of_app, NormalizerProps.chars_of_str_of.
  - exists (chars_of sub). by rewrite H, chars_of_app.
Qed.

(** X16.  [_extract_via_static_knowledge_base] answers for a host that is a
    known domain or, the dot included, one of its subdomains, and for no
    other; it answers from the first such domain of the table, with its
    products cut to [max_products]. *)
Theorem static_knowledge_base_answers_subdomains :
  forall store_url max_products,
    let host := lower_str (netloc store_url) in
    match
      _extract_via_static_knowledge_base netloc static_knowledge_base
        store_url max_products
    with
    | Some r =>
        exists before known_domain kb_products platform after,
          static_knowledge_base store_url
          = before ++ (known_domain, (kb_products, platform)) :: after
          /\ host_matches host known_domain
          /\ Forall (fun entry => ~ host_matches host (fst entry)) before
          /\ products r = slice_to max_products kb_products
          /\ total_found r = length (products r)
          /\ success r = true
          /\ extraction_method r = "Static Knowledge Base - " +:+ known_domain
          /\ platform_detected r = Some platform
    | None =>
        Forall (fun entry => ~ host_matches host (fst entry))
               (static_knowledge_base store_url)
    end.
Proof.
  intros store_url max_products host.
  unfold _extract_via_static_knowledge_base. fold host.
  pose proof
    (find_first
       (fun '(known_domain, _) =>
          bool_decide (host = known_domain)
          || endswith (chars_of host) (chars_of ("." +:+ known_domain)))
       (static_knowledge_base store_url)) as H.
  assert (forall before : list (string * (list Product * string)),
    Forall (fun y =>
              (let '(known_domain, _) := y in
               bool_decide (host = known_domain)
               || endswith (chars_of host) (chars_of ("." +:+ known_domain)))
              = false) before ->
    Forall (fun entry => ~ host_matches host (fst entry)) before) as Hnone.
  { intros before Hb. eapply Forall_impl; [exact Hb|].
    intros [known data] Hf Hm. simpl in Hm.
    apply host_matches_iff in Hm. congruence. }
  destruct (List.find _ _) as [[known_domain [kb_products platform]]|].
  - destruct H as (before & after & Hl & Hx & Hb).
    exists before, known_domain, kb_products, platform, after.
    split; [exact Hl|]. split; [by apply host_matches_iff|].
    split; [by apply Hnone|]. by repeat split.
  - by apply Hnone.
Qed.

(** X17.  When [discover_and_learn_products] returns, the result is a
    success that counts its products and, for a [max_products] that is not
    negative, has at most [max_products] of them; when it has products and
    the domain was not in the dynamic knowledge base, it is now, with these
    products, so that a later call for the url, whatever the world then
    answers, returns them cut to what it asks for and makes no request. *)
Theorem discovery_learns_what_it_returns :
  forall w store_url max_products self r self',
    discover w store_url max_products self = (Returns r, self') ->
    success r = true
    /\ total_found r = length (products r)
    /\ ((0 <= max_products)%Z ->
        (Z.of_nat (length (products r)) <= max_products)%Z)
    /\ (dynamic_knowledge_base self !! domain_of netloc store_url = None ->
        products r <> [] ->
        forall w' max_products',
          exists r',
            discover w' store_url max_products' self' = (Returns r', self')
            /\ success r' = true
            /\ products r' = slice_to max_products' (products r)).
Proof.
  intros w store_url max_products self r self' Hrun.
  pose proof (hoare_discover (fun _ => True) w store_url max_products
                learnable_True self I) as H.
  rewrite Hrun in H. destruct H as [_ (Hs & Hc & Hb)].
  split; [exact Hs|]. split; [exact Hc|]. split; [exact Hb|].
  intros Hkb Hne w' max_products'.
  unfold discover_and_learn_products in Hrun.
  unfold bind at 1, get_self in Hrun. rewrite Hkb in Hrun.
  unfold try_except in Hrun.
  pose proof (hoare_discovery_body (fun _ => True) w store_url max_products
                learnable_True self I) as Hbody.
  destruct (discovery_body netloc isoformat w store_url max_products self)
    as [[r0|e] s0].
  - injection Hrun as -> ->.
    destruct Hbody as [_ (_ & _ & _ & Hlearn)].
    destruct (Hlearn Hne) as (entry & Hentry & Hprod).
    unfold discover_and_learn_products. ExtractorProps.run_monad.
    rewrite Hentry. eexists. split; [reflexivity|]. simpl.
    split; [reflexivity|]. by rewrite Hprod.
  - unfold no_attribute in Hrun. ExtractorProps.run_monad. discriminate Hrun.
Qed.

End WithLibraries.

(** *** The theorems at work on the sample store *)

Lemma cache_flags_exactly_the_failures_witness :
  exists entry,
    cache (snd (run Sample.md5_hexdigest Sample.netloc Sample.strftime
                  Sample.isoformat Sample.static_knowledge_base (init ∅)
                  [Call_extract_products_from_store
                     (Sample.world (Raises "connection reset"))
                     Sample.store_url 20]))
      !! Sample.store_url = Some entry
    /\ is_failure entry = true
    /\ success (result entry) = false.
Proof.
  assert (exists entry,
    cache (snd (run Sample.md5_hexdigest Sample.netloc Sample.strftime
                  Sample.isoformat Sample.static_knowledge_base (init ∅)
                  [Call_extract_products_from_store
                     (Sample.world (Raises "connection reset"))
                     Sample.store_url 20]))
      !! Sample.store_url = Some entry
    /\ is_failure entry = true) as (entry & Hl & Hf).
  { eexists. split; [vm_compute; reflexivity|reflexivity]. }
  destruct (cache_flags_exactly_the_failures Sample.md5_hexdigest Sample.netloc
              Sample.strftime Sample.isoformat Sample.static_knowledge_base
              ∅ _ _ entry Hl) as [Hflag _].
  exists entry. split; [exact Hl|]. split; [exact Hf|].
  rewrite Hf in Hflag. by destruct (success (result entry)).
Defined.

Lemma cache_hit_is_served_from_the_entry_witness :
  exists r self',
    extract_products_from_store Sample.md5_hexdigest Sample.netloc
      Sample.strftime Sample.isoformat Sample.static_knowledge_base
      (Sample.world (Raises "connection reset")) Sample.store_url 1
      (snd (extract_products_from_store Sample.md5_hexdigest Sample.netloc
              Sample.strftime Sample.isoformat Sample.static_knowledge_base
              Sample.stocked Sample.store_url 5 Sample.fresh))
    = (Returns r, self')
    /\ products r = [Sample.sweater; Sample.boots]
    /\ confidence_score r = Some (8 # 10).
Proof.
  set (self1 := snd (extract_products_from_store Sample.md5_hexdigest
                       Sample.netloc Sample.strftime Sample.isoformat
                       Sample.static_knowledge_base Sample.stocked
                       Sample.store_url 5 Sample.fresh)).
  assert (exists entry,
    cache self1 !! Sample.store_url = Some entry
    /\ timestamp entry = 5%Z /\ is_failure entry = false
    /\ products (result entry) = [Sample.sweater; Sample.boots])
    as (entry & Hl & Ht & Hf & Hp).
  { eexists. split; [vm_compute; reflexivity|]. by repeat split. }
  destruct (cache_hit_is_served_from_the_entry Sample.md5_hexdigest
              Sample.netloc Sample.strftime Sample.isoformat
              Sample.static_knowledge_base
              (Sample.world (Raises "connection reset")) Sample.store_url 1
              self1 entry Hl)
    as (r & self' & Hrun & Hprod & _ & _ & _ & Hconf & _).
  { rewrite Ht, Hf. simpl. lia. }
  exists r, self'. split; [exact Hrun|]. split; [by rewrite Hprod|].
  by rewrite Hconf, Hf.
Defined.

Lemma second_call_is_served_from_cache_witness :
  exists r1 self1 r2 self2,
    extract_products_from_store Sample.md5_hexdigest Sample.netloc
      Sample.strftime Sample.isoformat Sample.static_knowledge_base
      Sample.stocked Sample.store_url 5 Sample.fresh
    = (Returns r1, self1)
    /\ extract_products_from_store Sample.md5_hexdigest Sample.netloc
         Sample.strftime Sample.isoformat Sample.static_knowledge_base
         (Sample.world (Raises "connection reset")) Sample.store_url 1 self1
       = (Returns r2, self2)
    /\ products r2 = [Sample.sweater; Sample.boots]
    /\ requests self2 = requests self1.
Proof.
  assert (exists r1 self1,
    extract_products_from_store Sample.md5_hexdigest Sample.netloc
      Sample.strftime Sample.isoformat Sample.static_knowledge_base
      Sample.stocked Sample.store_url 5 Sample.fresh
    = (Returns r1, self1)
    /\ products r1 = [Sample.sweater; Sample.boots] /\ success r1 = true)
    as (r1 & self1 & Hrun & Hp & Hs).
  { eexists _, _. split; [vm_compute; reflexivity|]. by split. }
  destruct (second_call_is_served_from_cache Sample.md5_hexdigest
              Sample.netloc Sample.strftime Sample.isoformat
              Sample.static_knowledge_base Sample.stocked
              (Sample.world (Raises "connection reset")) Sample.store_url 5 1
              Sample.fresh r1 self1)
    as (r2 & self2 & Hrun2 & Hprod & _ & _ & Hreq & _).
  { exact I. }
  { exact Hrun. }
  { rewrite Hs. simpl. lia. }
  exists r1, self1, r2, self2. split; [exact Hrun|]. split; [exact Hrun2|].
  split; [by rewrite Hprod|exact Hreq].
Defined.

Lemma fresh_results_are_graded_witness :
  exists r self',
    extract_products_from_store Sample.md5_hexdigest Sample.netloc
      Sample.strftime Sample.isoformat Sample.static_knowledge_base
      Sample.stocked Sample.store_url 5 Sample.fresh
    = (Returns r, self')
    /\ products r = [Sample.sweater; Sample.boots]
    /\ confidence_score r = Some 1%Q.
Proof.
  assert (exists r self',
    extract_products_from_store Sample.md5_hexdigest Sample.netloc
      Sample.strftime Sample.isoformat Sample.static_knowledge_base
      Sample.stocked Sample.store_url 5 Sample.fresh
    = (Returns r, self')
    /\ products r = [Sample.sweater; Sample.boots] /\ success r = true)
    as (r & self' & Hrun & Hp & Hs).
  { eexists _, _. split; [vm_compute; reflexivity|]. by split. }
  destruct (fresh_results_are_graded Sample.md5_hexdigest Sample.netloc
              Sample.strftime Sample.isoformat Sample.static_knowledge_base
              Sample.stocked Sample.store_url 5 Sample.fresh r self' I Hrun)
    as [(_ & _ & Hconf & _)|(Hfail & _)].
  - exists r, self'. split; [exact Hrun|]. split; [exact Hp|].
    by rewrite Hconf, Hp.
  - congruence.
Defined.

Lemma discovery_learns_what_it_returns_witness :
  exists r self' r',
    discover_and_learn_products Sample.netloc Sample.isoformat
      Sample.static_knowledge_base Sample.stocked Sample.store_url 5
      Sample.fresh
    = (Returns r, self')
    /\ products r = [Sample.sweater; Sample.boots]
    /\ discover_and_learn_products Sample.netloc Sample.isoformat
         Sample.static_knowledge_base
         (Sample.world (Raises "connection reset")) Sample.store_url 1 self'
       = (Returns r', self')
    /\ products r' = [Sample.sweater].
Proof.
  assert (exists r self',
    discover_and_learn_products Sample.netloc Sample.isoformat
      Sample.static_knowledge_base Sample.stocked Sample.store_url 5
      Sample.fresh
    = (Returns r, self')
    /\ products r = [Sample.sweater; Sample.boots])
    as (r & self' & Hrun & Hp).
  { eexists _, _. split; [vm_compute; reflexivity|reflexivity]. }
  destruct (discovery_learns_what_it_returns Sample.netloc Sample.isoformat
              Sample.static_knowledge_base Sample.stocked Sample.store_url 5
              Sample.fresh r self' Hrun)
    as (_ & _ & _ & Hlearn).
  destruct (Hlearn eq_refl) with
    (w' := Sample.world (Raises "connection reset")) (max_products' := 1%Z)
    as (r' & Hrun' & _ & Hp').
  { by rewrite Hp. }
  exists r, self', r'. split; [exact Hrun|]. split; [exact Hp|].
  split; [exact Hrun'|]. by rewrite Hp', Hp.
Defined.

End ExtractorMore.

(** ** The criteria on goods, services and products *)

Module CriteriaProps.
Import PyStr Evaluator Extractor Criteria StringFacts.

Lemma nonempty_true {A} (l : list A) : nonempty l = true <-> l <> [].
Proof. by destruct l. Qed.

Lemma same_elements (l1 l2 : list string) :
  (list_to_set l1 : gset string) = list_to_set l2
  <-> forall x, x ∈ l1 <-> x ∈ l2.
Proof.
  rewrite set_eq. by setoid_rewrite elem_of_list_to_set.
Qed.

(** X18.  [_check_goods_services_identity] holds exactly when the two lists
    have the same elements, whatever their order and repetitions (two empty
    lists included), and does not depend on which store is which; when it
    holds, [_check_goods_services_types] holds too unless the lists are
    empty, in which case the goods are judged identical but not of the same
    types. *)
Theorem goods_services_identity_spec :
  forall expansion_goods main_goods,
    (_check_goods_services_identity expansion_goods main_goods = true
     <-> forall x, x ∈ expansion_goods <-> x ∈ main_goods)
    /\ _check_goods_services_identity expansion_goods main_goods
       = _check_goods_services_identity main_goods expansion_goods
    /\ (_check_goods_services_identity expansion_goods main_goods = true ->
        _check_goods_services_types expansion_goods main_goods
        = nonempty main_goods).
Proof.
  intros expansion_goods main_goods.
  assert (_check_goods_services_identity expansion_goods main_goods = true
          <-> forall x, x ∈ expansion_goods <-> x ∈ main_goods) as Hiff.
  { unfold _check_goods_services_identity.
    destruct expansion_goods as [|e es], main_goods as [|m ms]; simpl.
    - done.
    - split; [done|]. intros H.
      assert (m ∈ @nil string) as Hx by (apply H; left). inversion Hx.
    - split; [done|]. intros H.
      assert (e ∈ @nil string) as Hx by (apply H; left). inversion Hx.
    - rewrite bool_decide_eq_true. apply (same_elements (e :: es) (m :: ms)). }
  split; [exact Hiff|]. split.
  - unfold _check_goods_services_identity.
    destruct expansion_goods as [|e es], main_goods as [|m ms]; simpl;
      try reflexivity.
    apply bool_decide_ext. split; congruence.
  - intros H. unfold _check_goods_services_identity in H.
    unfold _check_goods_services_types.
    destruct expansion_goods as [|e es], main_goods as [|m ms];
      try done. cbn [nonempty negb orb andb] in *.
    apply bool_decide_eq_true in H. rewrite H.
    replace (list_to_set (m :: ms) ∩ list_to_set (m :: ms))
      with (list_to_set (m :: ms) : gset string)
      by (apply leibniz_equiv; set_solver).
    assert (0 < size (list_to_set (m :: ms) : gset string))%nat as Hpos.
    { destruct (size (list_to_set (m :: ms) : gset string)) eqn:E; [|lia].
      apply size_empty_iff in E. set_solver. }
    rewrite decide_True by exact Hpos.
    apply Qle_bool_iff. unfold Qle. simpl.
    rewrite SimilarityProps.Zpos_of_nat by exact Hpos. lia.
Qed.

(** The targets found are the targets with a match, in their order. *)
Lemma found_products_filter expansion_products target_product_names :
  fst (_search_for_specific_products_on_expansion_store
         expansion_products target_product_names)
  = List.filter
      (fun t => nonempty expansion_products
                && is_found (search_target (map clean_name expansion_products) t))
      target_product_names.
Proof.
  unfold _search_for_specific_products_on_expansion_store.
  destruct expansion_products as [|p ps].
  { simpl. induction target_product_names as [|x ts IH]; [reflexivity|exact IH]. }
  cbn [nonempty andb]. set (names := map clean_name (p :: ps)).
  assert (forall ts found log,
    fst (fold_left
           (fun '(found_products, log) target_name =>
              let v := search_target names target_name in
              (if is_found v then found_products ++ [target_name]
               else found_products, log ++ [(target_name, v)]))
           ts (found, log))
    = found ++ List.filter (fun t => is_found (search_target names t)) ts)
    as Hfold.
  { induction ts as [|x ts IH]; intros found log; simpl.
    - by rewrite app_nil_r.
    - rewrite IH. destruct (is_found (search_target names x)).
      + by rewrite <- app_assoc.
      + done. }
  exact (Hfold target_product_names [] []).
Qed.

Lemma filter_length_le {A} (f : A -> bool) (l : list A) :
  (length (List.filter f l) <= length l)%nat.
Proof.
  induction l as [|x l IH]; simpl; [lia|]. destruct (f x); simpl; lia.
Qed.

Lemma shared_service (main_services expansion_services : list string) :
  (0 <? size ((list_to_set main_services : gset string)
              ∩ list_to_set expansion_services))%nat = true
  <-> share_a_service main_services expansion_services.
Proof.
  rewrite Nat.ltb_lt. unfold share_a_service.
  set (X := (list_to_set main_services : gset string)
            ∩ list_to_set expansion_services).
  split.
  - intros H. destruct (size_pos_elem_of X H) as [x Hx].
    exists x. set_solver.
  - intros (x & H1 & H2).
    assert (x ∈ X) as Hx by set_solver.
    destruct (size X) eqn:E; [|lia].
    apply size_empty_iff in E. set_solver.
Qed.

(** X19.  [_check_product_identity] holds exactly when the main store has
    products and either enough of its first 25 are found on the expansion
    store, or the two stores have a service in common.  Enough is 3, and 2 for
    a qualified B2B store, whatever the number of targets; the targets found
    are never more than the targets, so a main store with fewer products than
    that passes only by a common service. *)
Theorem product_identity_spec :
  forall (is_b2b : bool)
         (main_products main_services expansion_services expansion_products
          : list string),
    let targets := map clean_name (slice_to 25 main_products) in
    let found :=
      fst (_search_for_specific_products_on_expansion_store
             expansion_products targets) in
    let required := if is_b2b then 2%nat else 3%nat in
    required_matches is_b2b targets = required
    /\ (length found <= length targets)%nat
    /\ (length targets <= Nat.min 25 (length main_products))%nat
    /\ (_check_product_identity is_b2b main_products main_services
          expansion_services expansion_products = true
        <-> main_products <> []
            /\ ((required <= length found)%nat
                \/ share_a_service main_services expansion_services))
    /\ ((length main_products < required)%nat ->
        _check_product_identity is_b2b main_products main_services
          expansion_services expansion_products = true ->
        share_a_service main_services expansion_services).
Proof.
  intros is_b2b main_products main_services expansion_services
    expansion_products targets found required.
  assert (required_matches is_b2b targets = required) as Hreq.
  { unfold required_matches, required. destruct is_b2b; lia. }
  assert (length found <= length targets)%nat as Hfound.
  { unfold found. rewrite found_products_filter. apply filter_length_le. }
  assert (length targets <= Nat.min 25 (length main_products))%nat as Htargets.
  { unfold targets. rewrite length_map.
    change (slice_to 25 main_products) with (firstn 25 main_products).
    rewrite length_firstn. lia. }
  assert (_check_product_identity is_b2b main_products main_services
            expansion_services expansion_products = true
          <-> main_products <> []
              /\ ((required <= length found)%nat
                  \/ share_a_service main_services expansion_services))
    as Hiff.
  { unfold _check_product_identity. fold targets. fold found. rewrite Hreq.
    destruct main_products as [|mp mps].
    { destruct main_services; simpl; split; try done; by intros [? _]. }
    cbn [nonempty negb andb].
    destruct (required <=? length found)%nat eqn:E.
    - apply Nat.leb_le in E. cbn [negb andb]. split; [|done].
      intros _. split; [done|by left].
    - apply Nat.leb_gt in E. cbn [negb andb].
      destruct main_services as [|ms mss].
      { cbn [nonempty]. split; [done|]. intros [_ [H|(x & Hx & _)]]; [lia|].
        inversion Hx. }
      cbn [nonempty].
      destruct expansion_services as [|es ess].
      { cbn [nonempty]. split; [done|]. intros [_ [H|(x & _ & Hx)]]; [lia|].
        inversion Hx. }
      cbn [nonempty].
      destruct (0 <? size _)%nat eqn:Es.
      + split; [|done]. intros _. split; [done|]. right.
        by apply shared_service.
      + split; [done|]. intros [_ [H|H]]; [lia|].
        apply shared_service in H. congruence. }
  split; [exact Hreq|]. split; [exact Hfound|]. split; [exact Htargets|].
  split; [exact Hiff|].
  intros Hfew H. apply Hiff in H as [_ [H|H]]; [lia|exact H].
Qed.

(** *** Entries and their names *)

(** An occurrence of [" - http"] cannot start in a name that does not hold
    one and end in the [" - http"] that follows it. *)
Lemma separator_not_astride (n rest : chars) :
  startswith (n ++ chars_of " - http" ++ rest) (chars_of " - http") = true ->
  n = [] \/ startswith n (chars_of " - http") = true.
Proof.
  destruct n as [|c1 n]; [by left|]. intros H. right. revert H.
  cbn [chars_of list_ascii_of_string app startswith].
  repeat
    (match goal with
     | |- context [ascii_dec ?a ?b] =>
         destruct (ascii_dec a b); [subst|discriminate]
     | |- context [startswith (?l ++ _) _] =>
         is_var l; destruct l; cbn [app startswith]
     | |- _ -> _ => intros _
     end; try reflexivity; try discriminate).
Qed.

Lemma before_separator (n rest : chars) :
  contains n (chars_of " - http") = false ->
  before_first (chars_of " - http") (n ++ chars_of " - http" ++ rest) = n
  /\ contains (n ++ chars_of " - http" ++ rest) (chars_of " - http") = true.
Proof.
  induction n as [|c n IH]; intros Hn.
  { split; cbn; by rewrite startswith_nil. }
  cbn [contains] in Hn. apply orb_false_iff in Hn as [Hs Hn].
  destruct (IH Hn) as [IH1 IH2].
  assert (startswith ((c :: n) ++ chars_of " - http" ++ rest)
                     (chars_of " - http") = false) as Hno.
  { destruct (startswith ((c :: n) ++ chars_of " - http" ++ rest)
                         (chars_of " - http")) eqn:E; [|reflexivity].
    apply separator_not_astride in E as [E|E]; [discriminate|congruence]. }
  split.
  - change ((c :: n) ++ chars_of " - http" ++ rest)
      with (c :: (n ++ chars_of " - http" ++ rest)) in *.
    cbn [before_first]. rewrite Hno. by rewrite IH1.
  - change ((c :: n) ++ chars_of " - http" ++ rest)
      with (c :: (n ++ chars_of " - http" ++ rest)) in *.
    cbn [contains]. rewrite IH2. apply orb_true_r.
Qed.

Lemma starts_with_http (u : chars) :
  startswith u (chars_of "http") = true ->
  exists rest, u = chars_of "http" ++ rest.
Proof.
  cbn [chars_of list_ascii_of_string].
  destruct u as [|c1 [|c2 [|c3 [|c4 rest]]]]; cbn [startswith];
    repeat (destruct (ascii_dec _ _); [subst|]); try discriminate.
  intros _. by exists rest.
Qed.

Lemma clean_name_of_entry product :
  plain_product product = true ->
  map clean_name (product_entry product) = [name product].
Proof.
  unfold plain_product, product_entry, contains_str.
  destruct (name product) as [|a n] eqn:En; [done|].
  cbn [nonempty andb]. intros H.
  apply andb_true_iff in H as [Hn Hu]. apply negb_true_iff in Hn.
  destruct (url product) as [|b u] eqn:Eu.
  - simpl. unfold clean_name. by rewrite Hn.
  - cbn [nonempty negb orb] in Hu.
    apply starts_with_http in Hu as [rest Hu].
    cbn [map]. f_equal. unfold clean_name.
    rewrite !chars_of_app, Hu.
    change (chars_of " - " ++ chars_of "http" ++ rest)
      with (chars_of " - http" ++ rest).
    destruct (before_separator (chars_of (String a n)) rest Hn) as [-> ->].
    apply str_of_chars_of.
Qed.

(** X20.  The entries that [_extract_products] builds give the names back:
    for products with a name that does not hold [" - http"] and a url that is
    empty or starts with [http], the names that the search takes from the
    entries are the names of the products, in their order. *)
Theorem entries_give_the_names_back :
  forall products,
    Forall (fun product => plain_product product = true) products ->
    map clean_name (product_names_with_urls products) = map name products.
Proof.
  intros products H. unfold product_names_with_urls.
  induction H as [|product products Hp _ IH]; [reflexivity|].
  cbn [flat_map]. rewrite map_app, IH, (clean_name_of_entry _ Hp). reflexivity.
Qed.

Lemma entries_give_the_names_back_witness :
  map clean_name (product_names_with_urls [Sample.sweater; Sample.boots])
  = ["Blue Wool Sweater"; "Red Leather Boots"].
Proof.
  apply (entries_give_the_names_back [Sample.sweater; Sample.boots]).
  repeat constructor.
Defined.

Section WithLibraries.
Variable md5_hexdigest : string -> string.
Variable netloc : string -> string.
Variable strftime : Z -> string.
Variable isoformat : Z -> string.
Variable static_knowledge_base :
  string -> list (string * (list Product * string)).

Lemma product_names_length products :
  (length (product_names_with_urls products) <= length products)%nat.
Proof.
  unfold product_names_with_urls.
  induction products as [|p ps IH]; [reflexivity|].
  cbn [flat_map]. rewrite length_app. unfold product_entry at 1.
  destruct (name p), (url p); simpl; lia.
Qed.

(** X21.  [_extract_products] never raises and returns at most 25 entries,
    none when the extraction is not available or its result is not a
    success, and otherwise the entries of the products of the result of
    [extract_products_from_store] for 20 products, which is then in the
    cache. *)
Theorem extract_products_never_raises :
  forall available w url self,
    exists entries self',
      _extract_products md5_hexdigest netloc strftime isoformat
        static_knowledge_base available w url self
      = (Returns entries, self')
      /\ (length entries <= 25)%nat
      /\ (available = false -> entries = [] /\ self' = self)
      /\ (available = true ->
          exists r,
            extract_products_from_store md5_hexdigest netloc strftime
              isoformat static_knowledge_base w url 20 self
            = (Returns r, self')
            /\ entries
               = (if success r
                  then slice_to 25 (product_names_with_urls (products r))
                  else [])
            /\ (length entries <= length (products r))%nat
            /\ exists entry,
                 cache self' !! _get_cache_key md5_hexdigest url = Some entry
                 /\ result entry = r).
Proof.
  intros available w url self. unfold _extract_products.
  destruct available.
  - destruct (ExtractorMore.extract_returns md5_hexdigest netloc strftime
                isoformat static_knowledge_base w url 20 self)
      as (r & self' & Hrun & Hentry).
    unfold try_except, bind. rewrite Hrun.
    assert (forall l : list string, (length (slice_to 25 l) <= 25)%nat) as Hcut.
    { intros l. change (slice_to 25 l) with (firstn 25 l).
      rewrite length_firstn. lia. }
    assert (forall l : list string, (length (slice_to 25 l) <= length l)%nat)
      as Hcut'.
    { intros l. change (slice_to 25 l) with (firstn 25 l).
      rewrite length_firstn. lia. }
    destruct (success r) eqn:Hs; cbn [andb].
    + destruct (products r) as [|p ps] eqn:Hp; cbn [nonempty]; unfold ret.
      * exists [], self'. split; [reflexivity|]. split; [simpl; lia|].
        split; [done|]. intros _. exists r. rewrite Hs, Hp.
        split; [reflexivity|]. split; [reflexivity|]. split; [simpl; lia|].
        exact Hentry.
      * eexists _, self'. split; [reflexivity|]. split; [apply Hcut|].
        split; [done|]. intros _. exists r. rewrite Hs, Hp.
        split; [reflexivity|]. split; [reflexivity|]. split; [|exact Hentry].
        etransitivity; [apply Hcut'|apply product_names_length].
    + unfold ret. exists [], self'. split; [reflexivity|].
      split; [simpl; lia|]. split; [done|]. intros _. exists r. rewrite Hs.
      split; [reflexivity|]. split; [reflexivity|]. split; [simpl; lia|].
      exact Hentry.
  - exists [], self. split; [reflexivity|]. split; [simpl; lia|].
    split; [done|]. discriminate.
Qed.

End WithLibraries.

End CriteriaProps.

(** ** Links *)

Module LinksProps.
Import PyStr Re Extractor Links StringFacts.

Lemma not_skipped_not_in href pattern :
  lower (chars_of pattern) = chars_of pattern ->
  contains_str (lower_str href) pattern = false ->
  contains_str href pattern = false.
Proof.
  unfold contains_str, lower_str. rewrite NormalizerProps.chars_of_str_of. intros Hp Hc.
  destruct (contains (chars_of href) (chars_of pattern)) eqn:E; [|reflexivity].
  apply contains_lower in E. rewrite Hp in E. congruence.
Qed.

(** X22.  A link that [_is_enhanced_product_url] accepts has at least 5
    characters and holds neither [//] nor [#]: it is never an absolute url
    ([scheme://...]), whatever follows the scheme, nor a link to a fragment. *)
Theorem enhanced_product_url_is_relative :
  forall href,
    _is_enhanced_product_url href = true ->
    (5 <= String.length href)%nat
    /\ contains_str href "//" = false
    /\ contains_str href "#" = false
    /\ forall scheme rest, href <> scheme +:+ "://" +:+ rest.
Proof.
  intros href. unfold _is_enhanced_product_url.
  destruct (String.length href <? 5)%nat eqn:Hlen; [discriminate|].
  apply Nat.ltb_ge in Hlen.
  destruct (existsb _ enhanced_skip_patterns) eqn:Hskip; [discriminate|].
  intros _.
  assert (forall pattern, In pattern enhanced_skip_patterns ->
            contains_str (lower_str href) pattern = false) as Hno.
  { intros pattern Hp. destruct (contains_str _ pattern) eqn:E; [|reflexivity].
    assert (existsb (fun pattern => contains_str (lower_str href) pattern)
                    enhanced_skip_patterns = true) as Hex
      by (apply existsb_exists; by exists pattern).
    congruence. }
  assert (contains_str href "//" = false) as Hslashes.
  { apply not_skipped_not_in; [reflexivity|]. apply Hno. simpl. tauto. }
  split; [exact Hlen|]. split; [exact Hslashes|]. split.
  - apply not_skipped_not_in; [reflexivity|]. apply Hno. simpl. tauto.
  - intros scheme rest ->. unfold contains_str in Hslashes.
    rewrite !chars_of_app in Hslashes.
    rewrite contains_app_r in Hslashes; [discriminate|].
    cbn. by rewrite startswith_nil.
Qed.

Lemma enhanced_product_url_is_relative_witness :
  (5 <= String.length "/products/blue-shirt")%nat
  /\ contains_str "/products/blue-shirt" "//" = false
  /\ contains_str "/products/blue-shirt" "#" = false
  /\ forall scheme rest, "/products/blue-shirt" <> scheme +:+ "://" +:+ rest.
Proof.
  apply (enhanced_product_url_is_relative "/products/blue-shirt").
  vm_compute. reflexivity.
Defined.

(** *** The pattern of a product id *)

Lemma greedy_total p (k : chars -> option nat) s :
  (forall s', is_Some (k s')) -> is_Some (greedy p k s).
Proof.
  intros Hk. induction s as [|c s IH]; simpl; [apply Hk|].
  destruct (p c); [|apply Hk].
  destruct (greedy p k s); [by eexists|apply Hk].
Qed.

Lemma lit_true c d : lit c d = true <-> d = c.
Proof. unfold lit. destruct (ascii_dec d c); split; congruence. Qed.

Lemma match_product_id s :
  is_Some (match_at pat_product_id s)
  <-> exists d1 d2 d3 d4 after,
        s = "/"%char :: d1 :: d2 :: d3 :: d4 :: after
        /\ is_digit d1 = true /\ is_digit d2 = true
        /\ is_digit d3 = true /\ is_digit d4 = true.
Proof.
  unfold match_at, pat_product_id. cbn [items dollar match_items]. split.
  - intros H.
    destruct s as [|c0 [|d1 [|d2 [|d3 [|d4 after]]]]];
      try (by destruct H);
      repeat (match type of H with
              | context [if ?b then _ else _] => destruct b eqn:?; cbn in H
              end; try (by destruct H)).
    apply lit_true in Heqb as ->. by exists d1, d2, d3, d4, after.
  - intros (d1 & d2 & d3 & d4 & after & -> & H1 & H2 & H3 & H4).
    rewrite H1, H2, H3, H4.
    replace (lit "/" "/") with true by (symmetry; by apply lit_true).
    destruct (greedy_total is_digit (fun _ => Some 0%nat) after) as [n Hn];
      [by eexists|].
    rewrite Hn. by eexists.
Qed.

Lemma search_product_id s :
  search pat_product_id s = true <-> has_product_id s.
Proof.
  unfold has_product_id. induction s as [|c s IH].
  - cbn. split; [discriminate|].
    intros (before & d1 & d2 & d3 & d4 & after & H & _).
    by destruct before.
  - cbn [search]. destruct (match_at pat_product_id (c :: s)) as [n|] eqn:E.
    + split; [|done]. intros _.
      destruct (proj1 (match_product_id (c :: s)))
        as (d1 & d2 & d3 & d4 & after & Hs & Hd); [by rewrite E|].
      exists [], d1, d2, d3, d4, after. by split.
    + rewrite IH. split.
      * intros (before & d1 & d2 & d3 & d4 & after & -> & Hd).
        by exists (c :: before), d1, d2, d3, d4, after.
      * intros (before & d1 & d2 & d3 & d4 & after & Hs & Hd).
        destruct before as [|b before].
        -- exfalso.
           assert (is_Some (match_at pat_product_id (c :: s))) as [? H].
           { apply match_product_id. by exists d1, d2, d3, d4, after. }
           congruence.
        -- injection Hs as -> ->. by exists before, d1, d2, d3, d4, after.
Qed.

Lemma existsb_elem_of (f : string -> bool) (l : list string) :
  existsb f l = true <-> exists x, x ∈ l /\ f x = true.
Proof.
  rewrite existsb_exists. by setoid_rewrite list_elem_of_In.
Qed.

Lemma existsb_none (f : string -> bool) (l : list string) :
  existsb f l = false <-> forall x, x ∈ l -> f x = false.
Proof.
  split.
  - intros H x Hx. destruct (f x) eqn:E; [|reflexivity].
    assert (existsb f l = true) by (apply existsb_elem_of; by exists x).
    congruence.
  - intros H. destruct (existsb f l) eqn:E; [|reflexivity].
    apply existsb_elem_of in E as (x & Hx & Hf). rewrite (H x Hx) in Hf.
    discriminate.
Qed.

(** X23.  [_is_likely_product_url] accepts a link exactly when its lower-case
    form holds none of the skip patterns and either holds one of the product
    patterns or the link has, somewhere, a slash followed by four digits. *)
Theorem likely_product_url_spec :
  forall href,
    _is_likely_product_url href = true
    <-> (forall pattern, pattern ∈ likely_skip_patterns ->
           contains_str (lower_str href) pattern = false)
        /\ ((exists pattern,
               pattern ∈ likely_product_patterns
               /\ contains_str (lower_str href) pattern = true)
            \/ has_product_id (chars_of href)).
Proof.
  intros href.
  assert (_is_likely_product_url href
          = if existsb (fun pattern => contains_str (lower_str href) pattern)
                       likely_skip_patterns
            then false
            else if existsb (fun pattern => contains_str (lower_str href) pattern)
                            likely_product_patterns
                 then true
                 else search pat_product_id (chars_of href)) as ->.
  { destruct href; [|reflexivity]. vm_compute. reflexivity. }
  destruct (existsb _ likely_skip_patterns) eqn:Hskip.
  - split; [discriminate|]. intros [Hno _].
    apply existsb_elem_of in Hskip as (pattern & Hp & Hc).
    rewrite (Hno pattern Hp) in Hc. discriminate.
  - pose proof (proj1 (existsb_none _ _) Hskip) as Hno.
    destruct (existsb _ likely_product_patterns) eqn:Hprod.
    + split; [|done]. intros _. split; [exact Hno|]. left.
      by apply existsb_elem_of in Hprod.
    + rewrite search_product_id. split.
      * intros H. split; [exact Hno|by right].
      * intros [_ [(pattern & Hp & Hc)|H]]; [|exact H].
        rewrite (proj1 (existsb_none _ _) Hprod pattern Hp) in Hc.
        discriminate.
Qed.

End LinksProps.

(** ** The background extractor *)

Module BackgroundProps.
Import PyStr Extractor Background.

Lemma once_per_domain_queue netloc now store_url max_products priority context
    taken self :
  once_per_domain netloc taken self ->
  once_per_domain netloc taken
    (queue_extraction netloc now store_url max_products priority context self).
Proof.
  intros (Hnd & Hdom & Hall). unfold queue_extraction.
  destruct (decide _) as [Hin|Hnot]; [by split|].
  unfold once_per_domain. cbn [extraction_queue processed_domains].
  rewrite app_assoc, map_app. cbn [map Background.domain].
  split; [|split].
  - apply NoDup_app. split; [exact Hnd|]. split; [|apply NoDup_singleton].
    intros d Hd Hd'. apply list_elem_of_singleton in Hd' as ->.
    apply Hnot, Hdom, Hd.
  - intros d. rewrite elem_of_union, elem_of_singleton, elem_of_app,
      list_elem_of_singleton, Hdom. tauto.
  - apply Forall_app. split; [exact Hall|]. by constructor.
Qed.

Lemma once_per_domain_play netloc events : forall taken self,
  once_per_domain netloc taken self ->
  once_per_domain netloc (fst (play netloc events taken self))
                  (snd (play netloc events taken self)).
Proof.
  induction events as [|[now store_url max_products priority context|] events IH];
    intros taken self H; cbn [play].
  - exact H.
  - by apply IH, once_per_domain_queue.
  - unfold take. destruct (extraction_queue self) as [|job rest] eqn:E.
    + by apply IH.
    + apply IH. unfold once_per_domain in *. rewrite E in H.
      cbn [extraction_queue processed_domains].
      by rewrite <- app_assoc.
Qed.

(** X24.  A domain is queued once in the life of a [BackgroundExtractor]:
    whatever calls of [queue_extraction] are made and whenever the worker
    takes its jobs, no two of the jobs taken or waiting are for the same
    domain, each is for the lower-cased host of its url, and the domains of
    these jobs are the processed domains; so a domain is not queued again
    after its job was taken. *)
Theorem each_domain_is_queued_once :
  forall netloc events,
    let taken := fst (play netloc events [] new_extractor) in
    let self := snd (play netloc events [] new_extractor) in
    NoDup (map domain (taken ++ extraction_queue self))
    /\ (forall d,
          d ∈ processed_domains self
          <-> d ∈ map domain (taken ++ extraction_queue self))
    /\ Forall (fun job => domain job = lower_str (netloc (store_url job)))
              (taken ++ extraction_queue self)
    /\ forall now store_url max_products priority context,
         lower_str (netloc store_url) ∈ map domain taken ->
         queue_extraction netloc now store_url max_products priority context self
         = self.
Proof.
  intros netloc events taken self.
  destruct (once_per_domain_play netloc events [] new_extractor) as (Hnd & Hdom & Hall).
  { split; [constructor|]. split; [|constructor].
    intros d. simpl. split; intros H; [by apply not_elem_of_empty in H|].
    inversion H. }
  split; [exact Hnd|]. split; [exact Hdom|]. split; [exact Hall|].
  intros now store_url max_products priority context Hd.
  unfold queue_extraction. rewrite decide_True; [reflexivity|].
  apply Hdom. rewrite map_app, elem_of_app. by left.
Qed.

(** X25.  The delay that [_calculate_intelligent_delay] gives lies between
    30 and 120 seconds and is at least the base delay of the priority (30
    for ["high"], 60 otherwise); for a domain, the delay under ["high"] is
    at most the delay under any other priority, and at most 30 seconds
    less. *)
Theorem intelligent_delay_bounds :
  forall domain priority,
    (30 <= _calculate_intelligent_delay domain priority <= 120)%Z
    /\ ((if decide (priority = "high") then 30 else 60)
        <= _calculate_intelligent_delay domain priority)%Z
    /\ (_calculate_intelligent_delay domain "high"
        <= _calculate_intelligent_delay domain priority
        <= _calculate_intelligent_delay domain "high" + 30)%Z.
Proof.
  intros domain priority. unfold _calculate_intelligent_delay, domain_delays.
  cbn [List.find].
  rewrite (decide_True (P := "high" = "high")) by reflexivity.
  destruct (decide (priority = "high"));
    repeat (match goal with
            | |- context [contains_str ?a ?b] => destruct (contains_str a b)
            end; cbn [existsb orb]);
    lia.
Qed.

End BackgroundProps.
